(** * GD Team OLLAMA Assistant: the request handlers of server.js

    A shallow embedding of the Express handlers of server.js (the session
    store, the response classification, the CSV helpers and the seven
    POST endpoints) together with the properties the specification states
    about them, and further properties of the handlers, of the tools of
    /chat and of successive requests.

    Conventions of the embedding.
    - JavaScript text is a [string] that holds the UTF-8 bytes of the
      text (well-formed text: a lone surrogate has no counterpart).
      [trim] strips the white space and the line terminators of
      ECMAScript, [toLowerCase] is the lower case of Unicode 14.0 with
      its two context rules (final sigma, dotted capital I), and [.] of a
      regular expression stops at the four line terminators.  Lengths and
      indices count bytes; the server cuts a text only behind an ASCII
      marker, where bytes and UTF-16 code units agree.
    - [conversationHistories], a JS object used as a map, is a
      [gmap string Session] for the properties of the object itself,
      together with [inherited], the members it inherits from
      [Object.prototype] as the request finds them: a test
      [conversationHistories[id]] finds both.
    - The fields of a request are texts or absent: an optional JSON
      field is an [option], [None] for an absent ([undefined]) field.
    - A handler ends with a response or with an exception nobody
      catches ([threw]), in which case no response is sent.
    - The calls to the Ollama endpoint are the only suspension points of a
      handler.  A handler is a tree [Handler] whose nodes are those calls,
      so that "no inference call was made" is a property of the tree. *)

From Stdlib Require Import String Ascii List Bool Arith Lia NArith.
From stdpp Require Import base option list gmap strings.

Open Scope string_scope.

(** ** Unicode case data

    The tables of Unicode 14.0 that [String.prototype.toLowerCase]
    reads (UnicodeData.txt, SpecialCasing.txt, DerivedCoreProperties.txt),
    as ranges of code points. *)

Module Unicode.

Local Open Scope N_scope.

(** The code points whose lower case is one other code point: rows
    [(first, last, step, lower)], for the code points from [first] to
    [last] in steps of [step], the lower case of [first] being [lower]
    and the distance to the lower case the same along the row.  The
    capital sigma (U+03A3) and the capital dotted I (U+0130), whose
    lower case depends on the context or takes two code points, are
    not in the table. *)
Definition to_lower : list (N * N * N * N) :=
  [   (65, 90, 1, 97); (192, 214, 1, 224); (216, 222, 1, 248); (256, 302, 2, 257);
   (306, 310, 2, 307); (313, 327, 2, 314); (330, 374, 2, 331); (376, 376, 1, 255);
   (377, 381, 2, 378); (385, 385, 1, 595); (386, 388, 2, 387); (390, 390, 1, 596);
   (391, 391, 1, 392); (393, 394, 1, 598); (395, 395, 1, 396); (398, 398, 1, 477);
   (399, 399, 1, 601); (400, 400, 1, 603); (401, 401, 1, 402); (403, 403, 1, 608);
   (404, 404, 1, 611); (406, 406, 1, 617); (407, 407, 1, 616); (408, 408, 1, 409);
   (412, 412, 1, 623); (413, 413, 1, 626); (415, 415, 1, 629); (416, 420, 2, 417);
   (422, 422, 1, 640); (423, 423, 1, 424); (425, 425, 1, 643); (428, 428, 1, 429);
   (430, 430, 1, 648); (431, 431, 1, 432); (433, 434, 1, 650); (435, 437, 2, 436);
   (439, 439, 1, 658); (440, 440, 1, 441); (444, 444, 1, 445); (452, 452, 1, 454);
   (453, 453, 1, 454); (455, 455, 1, 457); (456, 456, 1, 457); (458, 458, 1, 460);
   (459, 475, 2, 460); (478, 494, 2, 479); (497, 497, 1, 499); (498, 500, 2, 499);
   (502, 502, 1, 405); (503, 503, 1, 447); (504, 542, 2, 505); (544, 544, 1, 414);
   (546, 562, 2, 547); (570, 570, 1, 11365); (571, 571, 1, 572); (573, 573, 1, 410);
   (574, 574, 1, 11366); (577, 577, 1, 578); (579, 579, 1, 384); (580, 580, 1, 649);
   (581, 581, 1, 652); (582, 590, 2, 583); (880, 882, 2, 881); (886, 886, 1, 887);
   (895, 895, 1, 1011); (902, 902, 1, 940); (904, 906, 1, 941); (908, 908, 1, 972);
   (910, 911, 1, 973); (913, 929, 1, 945); (932, 939, 1, 964); (975, 975, 1, 983);
   (984, 1006, 2, 985); (1012, 1012, 1, 952); (1015, 1015, 1, 1016); (1017, 1017, 1, 1010);
   (1018, 1018, 1, 1019); (1021, 1023, 1, 891); (1024, 1039, 1, 1104); (1040, 1071, 1, 1072);
   (1120, 1152, 2, 1121); (1162, 1214, 2, 1163); (1216, 1216, 1, 1231); (1217, 1229, 2, 1218);
   (1232, 1326, 2, 1233); (1329, 1366, 1, 1377); (4256, 4293, 1, 11520); (4295, 4295, 1, 11559);
   (4301, 4301, 1, 11565); (5024, 5103, 1, 43888); (5104, 5109, 1, 5112); (7312, 7354, 1, 4304);
   (7357, 7359, 1, 4349); (7680, 7828, 2, 7681); (7838, 7838, 1, 223); (7840, 7934, 2, 7841);
   (7944, 7951, 1, 7936); (7960, 7965, 1, 7952); (7976, 7983, 1, 7968); (7992, 7999, 1, 7984);
   (8008, 8013, 1, 8000); (8025, 8031, 2, 8017); (8040, 8047, 1, 8032); (8072, 8079, 1, 8064);
   (8088, 8095, 1, 8080); (8104, 8111, 1, 8096); (8120, 8121, 1, 8112); (8122, 8123, 1, 8048);
   (8124, 8124, 1, 8115); (8136, 8139, 1, 8050); (8140, 8140, 1, 8131); (8152, 8153, 1, 8144);
   (8154, 8155, 1, 8054); (8168, 8169, 1, 8160); (8170, 8171, 1, 8058); (8172, 8172, 1, 8165);
   (8184, 8185, 1, 8056); (8186, 8187, 1, 8060); (8188, 8188, 1, 8179); (8486, 8486, 1, 969);
   (8490, 8490, 1, 107); (8491, 8491, 1, 229); (8498, 8498, 1, 8526); (8544, 8559, 1, 8560);
   (8579, 8579, 1, 8580); (9398, 9423, 1, 9424); (11264, 11311, 1, 11312); (11360, 11360, 1, 11361);
   (11362, 11362, 1, 619); (11363, 11363, 1, 7549); (11364, 11364, 1, 637); (11367, 11371, 2, 11368);
   (11373, 11373, 1, 593); (11374, 11374, 1, 625); (11375, 11375, 1, 592); (11376, 11376, 1, 594);
   (11378, 11378, 1, 11379); (11381, 11381, 1, 11382); (11390, 11391, 1, 575); (11392, 11490, 2, 11393);
   (11499, 11501, 2, 11500); (11506, 11506, 1, 11507); (42560, 42604, 2, 42561); (42624, 42650, 2, 42625);
   (42786, 42798, 2, 42787); (42802, 42862, 2, 42803); (42873, 42875, 2, 42874); (42877, 42877, 1, 7545);
   (42878, 42886, 2, 42879); (42891, 42891, 1, 42892); (42893, 42893, 1, 613); (42896, 42898, 2, 42897);
   (42902, 42920, 2, 42903); (42922, 42922, 1, 614); (42923, 42923, 1, 604); (42924, 42924, 1, 609);
   (42925, 42925, 1, 620); (42926, 42926, 1, 618); (42928, 42928, 1, 670); (42929, 42929, 1, 647);
   (42930, 42930, 1, 669); (42931, 42931, 1, 43859); (42932, 42946, 2, 42933); (42948, 42948, 1, 42900);
   (42949, 42949, 1, 642); (42950, 42950, 1, 7566); (42951, 42953, 2, 42952); (42960, 42960, 1, 42961);
   (42966, 42968, 2, 42967); (42997, 42997, 1, 42998); (65313, 65338, 1, 65345); (66560, 66599, 1, 66600);
   (66736, 66771, 1, 66776); (66928, 66938, 1, 66967); (66940, 66954, 1, 66979); (66956, 66962, 1, 66995);
   (66964, 66965, 1, 67003); (68736, 68786, 1, 68800); (71840, 71871, 1, 71872); (93760, 93791, 1, 93792);
   (125184, 125217, 1, 125218)].

(** The case-ignorable code points, and the cased letters that are not
    case-ignorable. *)
Definition case_ignorable : list (N * N) :=
  [   (39, 39); (46, 46); (58, 58); (94, 94); (96, 96); (168, 168);
   (173, 173); (175, 175); (180, 180); (183, 184); (688, 879); (884, 885);
   (890, 890); (900, 901); (903, 903); (1155, 1161); (1369, 1369); (1375, 1375);
   (1425, 1469); (1471, 1471); (1473, 1474); (1476, 1477); (1479, 1479); (1524, 1524);
   (1536, 1541); (1552, 1562); (1564, 1564); (1600, 1600); (1611, 1631); (1648, 1648);
   (1750, 1757); (1759, 1768); (1770, 1773); (1807, 1807); (1809, 1809); (1840, 1866);
   (1958, 1968); (2027, 2037); (2042, 2042); (2045, 2045); (2070, 2093); (2137, 2139);
   (2184, 2184); (2192, 2193); (2200, 2207); (2249, 2306); (2362, 2362); (2364, 2364);
   (2369, 2376); (2381, 2381); (2385, 2391); (2402, 2403); (2417, 2417); (2433, 2433);
   (2492, 2492); (2497, 2500); (2509, 2509); (2530, 2531); (2558, 2558); (2561, 2562);
   (2620, 2620); (2625, 2626); (2631, 2632); (2635, 2637); (2641, 2641); (2672, 2673);
   (2677, 2677); (2689, 2690); (2748, 2748); (2753, 2757); (2759, 2760); (2765, 2765);
   (2786, 2787); (2810, 2815); (2817, 2817); (2876, 2876); (2879, 2879); (2881, 2884);
   (2893, 2893); (2901, 2902); (2914, 2915); (2946, 2946); (3008, 3008); (3021, 3021);
   (3072, 3072); (3076, 3076); (3132, 3132); (3134, 3136); (3142, 3144); (3146, 3149);
   (3157, 3158); (3170, 3171); (3201, 3201); (3260, 3260); (3263, 3263); (3270, 3270);
   (3276, 3277); (3298, 3299); (3328, 3329); (3387, 3388); (3393, 3396); (3405, 3405);
   (3426, 3427); (3457, 3457); (3530, 3530); (3538, 3540); (3542, 3542); (3633, 3633);
   (3636, 3642); (3654, 3662); (3761, 3761); (3764, 3772); (3782, 3782); (3784, 3789);
   (3864, 3865); (3893, 3893); (3895, 3895); (3897, 3897); (3953, 3966); (3968, 3972);
   (3974, 3975); (3981, 3991); (3993, 4028); (4038, 4038); (4141, 4144); (4146, 4151);
   (4153, 4154); (4157, 4158); (4184, 4185); (4190, 4192); (4209, 4212); (4226, 4226);
   (4229, 4230); (4237, 4237); (4253, 4253); (4348, 4348); (4957, 4959); (5906, 5908);
   (5938, 5939); (5970, 5971); (6002, 6003); (6068, 6069); (6071, 6077); (6086, 6086);
   (6089, 6099); (6103, 6103); (6109, 6109); (6155, 6159); (6211, 6211); (6277, 6278);
   (6313, 6313); (6432, 6434); (6439, 6440); (6450, 6450); (6457, 6459); (6679, 6680);
   (6683, 6683); (6742, 6742); (6744, 6750); (6752, 6752); (6754, 6754); (6757, 6764);
   (6771, 6780); (6783, 6783); (6823, 6823); (6832, 6862); (6912, 6915); (6964, 6964);
   (6966, 6970); (6972, 6972); (6978, 6978); (7019, 7027); (7040, 7041); (7074, 7077);
   (7080, 7081); (7083, 7085); (7142, 7142); (7144, 7145); (7149, 7149); (7151, 7153);
   (7212, 7219); (7222, 7223); (7288, 7293); (7376, 7378); (7380, 7392); (7394, 7400);
   (7405, 7405); (7412, 7412); (7416, 7417); (7468, 7530); (7544, 7544); (7579, 7679);
   (8125, 8125); (8127, 8129); (8141, 8143); (8157, 8159); (8173, 8175); (8189, 8190);
   (8203, 8207); (8216, 8217); (8228, 8228); (8231, 8231); (8234, 8238); (8288, 8292);
   (8294, 8303); (8305, 8305); (8319, 8319); (8336, 8348); (8400, 8432); (11388, 11389);
   (11503, 11505); (11631, 11631); (11647, 11647); (11744, 11775); (11823, 11823); (12293, 12293);
   (12330, 12333); (12337, 12341); (12347, 12347); (12441, 12446); (12540, 12542); (40981, 40981);
   (42232, 42237); (42508, 42508); (42607, 42610); (42612, 42621); (42623, 42623); (42652, 42655);
   (42736, 42737); (42752, 42785); (42864, 42864); (42888, 42890); (42994, 42996); (43000, 43001);
   (43010, 43010); (43014, 43014); (43019, 43019); (43045, 43046); (43052, 43052); (43204, 43205);
   (43232, 43249); (43263, 43263); (43302, 43309); (43335, 43345); (43392, 43394); (43443, 43443);
   (43446, 43449); (43452, 43453); (43471, 43471); (43493, 43494); (43561, 43566); (43569, 43570);
   (43573, 43574); (43587, 43587); (43596, 43596); (43632, 43632); (43644, 43644); (43696, 43696);
   (43698, 43700); (43703, 43704); (43710, 43711); (43713, 43713); (43741, 43741); (43756, 43757);
   (43763, 43764); (43766, 43766); (43867, 43871); (43881, 43883); (44005, 44005); (44008, 44008);
   (44013, 44013); (64286, 64286); (64434, 64450); (65024, 65039); (65043, 65043); (65056, 65071);
   (65106, 65106); (65109, 65109); (65279, 65279); (65287, 65287); (65294, 65294); (65306, 65306);
   (65342, 65342); (65344, 65344); (65392, 65392); (65438, 65439); (65507, 65507); (65529, 65531);
   (66045, 66045); (66272, 66272); (66422, 66426); (67456, 67461); (67463, 67504); (67506, 67514);
   (68097, 68099); (68101, 68102); (68108, 68111); (68152, 68154); (68159, 68159); (68325, 68326);
   (68900, 68903); (69291, 69292); (69446, 69456); (69506, 69509); (69633, 69633); (69688, 69702);
   (69744, 69744); (69747, 69748); (69759, 69761); (69811, 69814); (69817, 69818); (69821, 69821);
   (69826, 69826); (69837, 69837); (69888, 69890); (69927, 69931); (69933, 69940); (70003, 70003);
   (70016, 70017); (70070, 70078); (70089, 70092); (70095, 70095); (70191, 70193); (70196, 70196);
   (70198, 70199); (70206, 70206); (70367, 70367); (70371, 70378); (70400, 70401); (70459, 70460);
   (70464, 70464); (70502, 70508); (70512, 70516); (70712, 70719); (70722, 70724); (70726, 70726);
   (70750, 70750); (70835, 70840); (70842, 70842); (70847, 70848); (70850, 70851); (71090, 71093);
   (71100, 71101); (71103, 71104); (71132, 71133); (71219, 71226); (71229, 71229); (71231, 71232);
   (71339, 71339); (71341, 71341); (71344, 71349); (71351, 71351); (71453, 71455); (71458, 71461);
   (71463, 71467); (71727, 71735); (71737, 71738); (71995, 71996); (71998, 71998); (72003, 72003);
   (72148, 72151); (72154, 72155); (72160, 72160); (72193, 72202); (72243, 72248); (72251, 72254);
   (72263, 72263); (72273, 72278); (72281, 72283); (72330, 72342); (72344, 72345); (72752, 72758);
   (72760, 72765); (72767, 72767); (72850, 72871); (72874, 72880); (72882, 72883); (72885, 72886);
   (73009, 73014); (73018, 73018); (73020, 73021); (73023, 73029); (73031, 73031); (73104, 73105);
   (73109, 73109); (73111, 73111); (73459, 73460); (78896, 78904); (92912, 92916); (92976, 92982);
   (92992, 92995); (94031, 94031); (94095, 94111); (94176, 94177); (94179, 94180); (110576, 110579);
   (110581, 110587); (110589, 110590); (113821, 113822); (113824, 113827); (118528, 118573); (118576, 118598);
   (119143, 119145); (119155, 119170); (119173, 119179); (119210, 119213); (119362, 119364); (121344, 121398);
   (121403, 121452); (121461, 121461); (121476, 121476); (121499, 121503); (121505, 121519); (122880, 122886);
   (122888, 122904); (122907, 122913); (122915, 122916); (122918, 122922); (123184, 123197); (123566, 123566);
   (123628, 123631); (125136, 125142); (125252, 125259); (127995, 127999); (917505, 917505); (917536, 917631);
   (917760, 917999)].

Definition cased : list (N * N) :=
  [   (65, 90); (97, 122); (170, 170); (181, 181); (186, 186); (192, 214);
   (216, 246); (248, 442); (444, 447); (452, 659); (661, 687); (880, 883);
   (886, 887); (891, 893); (895, 895); (902, 902); (904, 906); (908, 908);
   (910, 929); (931, 1013); (1015, 1153); (1162, 1327); (1329, 1366); (1376, 1416);
   (4256, 4293); (4295, 4295); (4301, 4301); (4304, 4346); (4349, 4351); (5024, 5109);
   (5112, 5117); (7296, 7304); (7312, 7354); (7357, 7359); (7424, 7467); (7531, 7543);
   (7545, 7578); (7680, 7957); (7960, 7965); (7968, 8005); (8008, 8013); (8016, 8023);
   (8025, 8025); (8027, 8027); (8029, 8029); (8031, 8061); (8064, 8116); (8118, 8124);
   (8126, 8126); (8130, 8132); (8134, 8140); (8144, 8147); (8150, 8155); (8160, 8172);
   (8178, 8180); (8182, 8188); (8450, 8450); (8455, 8455); (8458, 8467); (8469, 8469);
   (8473, 8477); (8484, 8484); (8486, 8486); (8488, 8488); (8490, 8493); (8495, 8500);
   (8505, 8505); (8508, 8511); (8517, 8521); (8526, 8526); (8544, 8575); (8579, 8580);
   (9398, 9449); (11264, 11387); (11390, 11492); (11499, 11502); (11506, 11507); (11520, 11557);
   (11559, 11559); (11565, 11565); (42560, 42605); (42624, 42651); (42786, 42863); (42865, 42887);
   (42891, 42894); (42896, 42954); (42960, 42961); (42963, 42963); (42965, 42969); (42997, 42998);
   (43002, 43002); (43824, 43866); (43872, 43880); (43888, 43967); (64256, 64262); (64275, 64279);
   (65313, 65338); (65345, 65370); (66560, 66639); (66736, 66771); (66776, 66811); (66928, 66938);
   (66940, 66954); (66956, 66962); (66964, 66965); (66967, 66977); (66979, 66993); (66995, 67001);
   (67003, 67004); (68736, 68786); (68800, 68850); (71840, 71903); (93760, 93823); (119808, 119892);
   (119894, 119964); (119966, 119967); (119970, 119970); (119973, 119974); (119977, 119980); (119982, 119993);
   (119995, 119995); (119997, 120003); (120005, 120069); (120071, 120074); (120077, 120084); (120086, 120092);
   (120094, 120121); (120123, 120126); (120128, 120132); (120134, 120134); (120138, 120144); (120146, 120485);
   (120488, 120512); (120514, 120538); (120540, 120570); (120572, 120596); (120598, 120628); (120630, 120654);
   (120656, 120686); (120688, 120712); (120714, 120744); (120746, 120770); (120772, 120779); (122624, 122633);
   (122635, 122654); (125184, 125251); (127280, 127305); (127312, 127337); (127344, 127369)].

Definition within (cp : N) (ranges : list (N * N)) : bool :=
  existsb (fun r => (fst r <=? cp) && (cp <=? snd r)) ranges.

Definition in_row (cp : N) (row : N * N * N * N) : bool :=
  let '(first, last, step, _) := row in
  (first <=? cp) && (cp <=? last) && ((cp - first) mod step =? 0).

(** The lower case of a code point, for the code points of the table;
    the others are their own lower case. *)
Definition simple_lower (cp : N) : N :=
  match find (in_row cp) to_lower with
  | Some (first, _, _, lower) => lower + (cp - first)
  | None => cp
  end.

(** Skipping case-ignorable code points, the next one is a cased
    letter. *)
Fixpoint letter_next (l : list N) : bool :=
  match l with
  | [] => false
  | cp :: rest => if within cp case_ignorable then letter_next rest else within cp cased
  end.

(** The condition Final_Sigma of SpecialCasing.txt, for the code points
    before, nearest first, and after a capital sigma. *)
Definition final_sigma (before after : list N) : bool :=
  letter_next before && negb (letter_next after).

(** The lower case of a sequence of code points; [before] holds the
    code points already passed, nearest first. *)
Fixpoint lower_points (before l : list N) : list N :=
  match l with
  | [] => []
  | cp :: rest =>
      (if cp =? 931 then [if final_sigma before rest then 962 else 963]
       else if cp =? 304 then [105; 775]
       else [simple_lower cp]) ++ lower_points (cp :: before) rest
  end.

End Unicode.

(** ** JavaScript text primitives *)

Module JS.

Definition LF : ascii := ascii_of_nat 10.
Definition CR : ascii := ascii_of_nat 13.
Definition DQ : ascii := ascii_of_nat 34.
Definition BQ : ascii := ascii_of_nat 96.
Definition nl : string := String LF "".
Definition fence : string := String BQ (String BQ (String BQ "")).

(** [s.startsWith(p)] *)
Fixpoint startsWith (s p : string) {struct p} : bool :=
  match p with
  | "" => true
  | String c p' =>
      match s with
      | "" => false
      | String d s' => if Ascii.eqb c d then startsWith s' p' else false
      end
  end.

(** [s.substring(n)]: the text from index [n] on. *)
Fixpoint substring (n : nat) (s : string) : string :=
  match n with
  | 0 => s
  | S n' => match s with "" => "" | String _ s' => substring n' s' end
  end.

(** [s.substring(0, n)] *)
Fixpoint substring_to (n : nat) (s : string) : string :=
  match n with
  | 0 => ""
  | S n' => match s with "" => "" | String c s' => String c (substring_to n' s') end
  end.

(** *** Text as UTF-8

    A JavaScript text is held as the bytes of its UTF-8 form (a lone
    surrogate as the three bytes of its code point).  The server cuts a
    text only behind an ASCII marker it has just found at its start and
    at positions [indexOf] gives, and tests a length only against 0, so
    that counting in bytes and counting in UTF-16 code units agree
    where it matters. *)

Definition byte (c : ascii) : N := N_of_ascii c.
Definition char (n : N) : ascii := ascii_of_N n.

Definition continuation (c : ascii) : bool :=
  (128 <=? byte c)%N && (byte c <? 192)%N.

(** A byte that begins no well-formed sequence stands for itself, as a
    number above the code points. *)
Definition stray (c : ascii) : N := (1114112 + byte c)%N.

(** The code point a text begins with, and how many bytes it takes
    after the first. *)
Definition decode_head (s : string) : N * nat :=
  match s with
  | "" => (0%N, 0)
  | String a s1 =>
      let x := byte a in
      if (x <? 128)%N then (x, 0)
      else if (194 <=? x)%N && (x <? 224)%N then
        match s1 with
        | String b _ =>
            if continuation b
            then (((x - 192) * 64 + (byte b - 128))%N, 1)
            else (stray a, 0)
        | _ => (stray a, 0)
        end
      else if (224 <=? x)%N && (x <? 240)%N then
        match s1 with
        | String b (String c _) =>
            let cp := ((x - 224) * 4096 + (byte b - 128) * 64 + (byte c - 128))%N in
            if continuation b && continuation c && (2048 <=? cp)%N
            then (cp, 2)
            else (stray a, 0)
        | _ => (stray a, 0)
        end
      else if (240 <=? x)%N && (x <? 245)%N then
        match s1 with
        | String b (String c (String d _)) =>
            let cp := ((x - 240) * 262144 + (byte b - 128) * 4096 +
                       (byte c - 128) * 64 + (byte d - 128))%N in
            if continuation b && continuation c && continuation d &&
               (65536 <=? cp)%N && (cp <? 1114112)%N
            then (cp, 3)
            else (stray a, 0)
        | _ => (stray a, 0)
        end
      else (stray a, 0)
  end.

(** The code points of a text; [skip] counts the bytes still to pass
    of the code point just read. *)
Fixpoint points_from (skip : nat) (s : string) : list N :=
  match s with
  | "" => []
  | String _ s1 =>
      match skip with
      | S k => points_from k s1
      | 0 => let (cp, more) := decode_head s in cp :: points_from more s1
      end
  end.

Definition points (s : string) : list N := points_from 0 s.

(** The bytes of a code point. *)
Definition encode (cp : N) : string :=
  if (cp <? 128)%N then String (char cp) ""
  else if (cp <? 2048)%N then
    String (char (192 + cp / 64)) (String (char (128 + cp mod 64)) "")
  else if (cp <? 65536)%N then
    String (char (224 + cp / 4096))
      (String (char (128 + (cp / 64) mod 64)) (String (char (128 + cp mod 64)) ""))
  else if (cp <? 1114112)%N then
    String (char (240 + cp / 262144))
      (String (char (128 + (cp / 4096) mod 64))
         (String (char (128 + (cp / 64) mod 64)) (String (char (128 + cp mod 64)) "")))
  else String (char (cp - 1114112)) "".

Fixpoint utf8 (l : list N) : string :=
  match l with
  | [] => ""
  | cp :: rest => encode cp +:+ utf8 rest
  end.

(** *** [trim]

    The white space and the line terminators of ECMAScript: TAB, LF,
    VT, FF, CR, SPACE, U+00A0, U+1680, U+2000 to U+200A, U+2028,
    U+2029, U+202F, U+205F, U+3000 and U+FEFF. *)
Definition white_space : list string :=
  map encode
    [9; 10; 11; 12; 13; 32; 160; 5760;
     8192; 8193; 8194; 8195; 8196; 8197; 8198; 8199; 8200; 8201; 8202;
     8232; 8233; 8239; 8287; 12288; 65279]%N.

(** The text behind the white-space character a text begins with. *)
Definition after_white (s : string) : option string :=
  match find (startsWith s) white_space with
  | Some ws => Some (substring (String.length ws) s)
  | None => None
  end.

Fixpoint strip (n : nat) (s : string) : string :=
  match n with
  | 0 => s
  | S n' => match after_white s with Some r => strip n' r | None => s end
  end.

Definition trimStart (s : string) : string := strip (String.length s) s.

(** A text of white space only. *)
Definition all_white (s : string) : bool :=
  match trimStart s with "" => true | _ => false end.

Fixpoint trimEnd (s : string) : string :=
  match s with
  | "" => ""
  | String c s' => if all_white s then "" else String c (trimEnd s')
  end.

(** [s.trim()] *)
Definition trim (s : string) : string := trimEnd (trimStart s).

(** *** [toLowerCase] *)

(** [s.toLowerCase()]: the lower case of Unicode, whatever the
    locale. *)
Definition toLowerCase (s : string) : string :=
  utf8 (Unicode.lower_points [] (points s)).

(** *** Regular expressions *)

(** The line terminators, which [.] does not match: LF, CR, U+2028 and
    U+2029. *)
Definition line_terminators : list string := map encode [10; 13; 8232; 8233]%N.

(** The characters [.+] takes at the start of a text: all up to the
    first line terminator. *)
Fixpoint dots (s : string) : string :=
  match s with
  | "" => ""
  | String c s' =>
      if existsb (startsWith s) line_terminators then "" else String c (dots s')
  end.

(** [s.indexOf(p)], [None] for -1. *)
Fixpoint indexOf (s p : string) : option nat :=
  if startsWith s p then Some 0
  else match s with
       | "" => None
       | String _ s' => S <$> indexOf s' p
       end.

(** [s.includes(p)] *)
Definition includes (s p : string) : bool :=
  match indexOf s p with Some _ => true | None => false end.

(** Truthiness of a string: [!s] is [true] exactly for the empty one. *)
Definition truthy (s : string) : bool :=
  match s with "" => false | _ => true end.

(** Truthiness of an optional string field: absent and [""] are falsy. *)
Definition present (o : option string) : bool :=
  match o with Some s => truthy s | None => false end.

(** [o || d] on an optional string field. *)
Definition or_default (o : option string) (d : string) : string :=
  match o with
  | Some s => if truthy s then s else d
  | None => d
  end.

(** The names every object inherits from [Object.prototype]; the value
    under each is a function, under [__proto__] the prototype itself. *)
Definition Object_prototype : list string :=
  ["constructor"; "__defineGetter__"; "__defineSetter__"; "hasOwnProperty";
   "__lookupGetter__"; "__lookupSetter__"; "isPrototypeOf"; "propertyIsEnumerable";
   "toString"; "valueOf"; "__proto__"; "toLocaleString"].

(** The regular expression [/```json\n([\s\S]*?)\n```/]: the leftmost
    opening fence, then the shortest text up to a closing fence.  The
    result is the whole match and the captured group. *)
Definition json_open : string := fence +:+ "json" +:+ nl.
Definition json_close : string := nl +:+ fence.

Definition match_json_block (s : string) : option (string * string) :=
  match indexOf s json_open with
  | None => None
  | Some p =>
      let body := substring (p + String.length json_open) s in
      match indexOf body json_close with
      | None => None
      | Some q =>
          let group := substring_to q body in
          Some (json_open +:+ group +:+ json_close, group)
      end
  end.

(** [s.replace(p, '')] for a text pattern: the first occurrence goes. *)
Definition remove_first (s p : string) : string :=
  match indexOf s p with
  | None => s
  | Some i => substring_to i s +:+ substring (i + String.length p) s
  end.

End JS.

(** ** Results of fallible library calls *)

Inductive Result (A : Type) : Type :=
| Ok (a : A)
| Err (msg : string).
Arguments Ok {A} a.
Arguments Err {A} msg.

(** ** Tabular text: the csv-parse and csv-stringify packages

    server.js imports [parse] and [stringify] from npm packages whose
    code is not part of the repository.  Everything in this module is
    modelled from the specification of the format converters and from the
    options visible at the two call sites: the record delimiter is the
    line feed, the cell delimiter the comma, the quote the double quote.
    [csvToJson] and [jsonToCsv] themselves, which are in server.js, are in
    [Server] below. *)

Module Csv.
Import JS.

(** A record (a JS object with text values): its properties in
    insertion order. *)
Definition Record : Type := list (string * string).

(** [r[k]] *)
Fixpoint get_prop (k : string) (r : Record) : option string :=
  match r with
  | [] => None
  | (k', v) :: r' => if String.eqb k k' then Some v else get_prop k r'
  end.

(** [r[k] = v]: an existing property keeps its place. *)
Fixpoint set_prop (k v : string) (r : Record) : Record :=
  match r with
  | [] => [(k, v)]
  | (k', v') :: r' =>
      if String.eqb k k' then (k', v) :: r' else (k', v') :: set_prop k v r'
  end.

(** [Object.keys(r)] *)
Definition keys (r : Record) : list string := map fst r.

(** Two records are the same object up to the order of the keys. *)
Definition same_record (a b : Record) : Prop :=
  forall k, get_prop k a = get_prop k b.

(** *** Writing *)

Definition special (c : ascii) : bool :=
  Ascii.eqb c "," || Ascii.eqb c DQ || Ascii.eqb c LF || Ascii.eqb c CR.

Fixpoint needs_quote (f : string) : bool :=
  match f with
  | "" => false
  | String c f' => special c || needs_quote f'
  end.

Fixpoint escape (f : string) : string :=
  match f with
  | "" => ""
  | String c f' =>
      if Ascii.eqb c DQ then String DQ (String DQ (escape f'))
      else String c (escape f')
  end.

(** Modelled from the spec: a cell as csv-stringify writes it ("standard
    tabular-text quoting rules"). *)
Definition field_out (f : string) : string :=
  if needs_quote f then String DQ (escape f +:+ String DQ "") else f.

Fixpoint row_out (fs : list string) : string :=
  match fs with
  | [] => ""
  | f :: fs' =>
      match fs' with
      | [] => field_out f
      | _ => field_out f +:+ String "," (row_out fs')
      end
  end.

Definition line_out (fs : list string) : string := row_out fs +:+ nl.

Fixpoint lines_out (rows : list (list string)) : string :=
  match rows with
  | [] => ""
  | fs :: rows' => line_out fs +:+ lines_out rows'
  end.

(** The cells of a record under the given columns; a missing key
    leaves the cell empty. *)
Definition row_of (columns : list string) (r : Record) : list string :=
  map (fun k => default "" (get_prop k r)) columns.

(** Modelled from the spec: [stringify(records, { header: true })] of
    the csv-stringify package, which is not in the repository.  "Emits a
    header row derived from the key set of the first record, followed by
    one row per record in input order; must escape delimiter and quote
    characters per standard tabular-text quoting rules": a cell holding
    a comma, a double quote or a line break is enclosed in double quotes
    with its quotes doubled, cells are separated by commas and every row
    ends with a line feed. *)
Definition stringify (records : list Record) : Result string :=
  match records with
  | [] => Ok ""
  | first :: _ =>
      let columns := keys first in
      Ok (lines_out (columns :: map (row_of columns) records))
  end.

(** *** Reading *)

Inductive Mode : Type :=
| FieldStart   (* nothing of the cell read yet *)
| Unquoted     (* inside a bare cell *)
| Quoted       (* inside a quoted cell *)
| QuoteSeen.   (* a quote met inside a quoted cell *)

Definition snoc (s : string) (c : ascii) : string := s +:+ String c "".

(** Modelled from the spec: the reader of csv-parse, a character at a
    time ("blank lines are skipped; fails with a ParseError if the text is
    structurally malformed").  [cell] is the cell being read, [row] the
    cells of the current row so far (last first), [rows] the rows read so
    far (last first).  A line with no character at all is skipped; a quote
    inside a bare cell, a character other than a delimiter after a closing
    quote, and a quote left open are errors. *)
Fixpoint scan (mode : Mode) (cell : string) (row : list string)
    (rows : list (list string)) (text : string) : Result (list (list string)) :=
  match text with
  | "" =>
      match mode with
      | Quoted => Err "Quote Not Closed"
      | FieldStart =>
          match row with
          | [] => Ok (rev rows)
          | _ => Ok (rev (rev (cell :: row) :: rows))
          end
      | Unquoted | QuoteSeen => Ok (rev (rev (cell :: row) :: rows))
      end
  | String c text' =>
      match mode with
      | FieldStart =>
          if Ascii.eqb c DQ then scan Quoted "" row rows text'
          else if Ascii.eqb c "," then scan FieldStart "" ("" :: row) rows text'
          else if Ascii.eqb c LF then
            match row with
            | [] => scan FieldStart "" [] rows text'   (* a blank line is skipped *)
            | _ => scan FieldStart "" [] (rev ("" :: row) :: rows) text'
            end
          else scan Unquoted (String c "") row rows text'
      | Unquoted =>
          if Ascii.eqb c DQ then Err "Invalid Opening Quote"
          else if Ascii.eqb c "," then scan FieldStart "" (cell :: row) rows text'
          else if Ascii.eqb c LF then scan FieldStart "" [] (rev (cell :: row) :: rows) text'
          else scan Unquoted (snoc cell c) row rows text'
      | Quoted =>
          if Ascii.eqb c DQ then scan QuoteSeen cell row rows text'
          else scan Quoted (snoc cell c) row rows text'
      | QuoteSeen =>
          if Ascii.eqb c DQ then scan Quoted (snoc cell DQ) row rows text'
          else if Ascii.eqb c "," then scan FieldStart "" (cell :: row) rows text'
          else if Ascii.eqb c LF then scan FieldStart "" [] (rev (cell :: row) :: rows) text'
          else Err "Invalid Closing Quote"
      end
  end.

(** [obj[columns[i]] = cells[i]] for every [i], from the empty object. *)
Definition object_of (columns cells : list string) : Record :=
  fold_left (fun obj kv => set_prop (fst kv) (snd kv) obj) (combine columns cells) [].

Definition same_width (header : list string) (row : list string) : bool :=
  Nat.eqb (length row) (length header).

(** Modelled from the spec: [parse(text, { columns: true,
    skip_empty_lines: true })] of the csv-parse package, which is not in
    the repository.  "Parses delimited text with a header row; first row
    defines keys; blank lines are skipped; fails with a ParseError if the
    text is structurally malformed (mismatched column counts raise)". *)
Definition parse (text : string) : Result (list Record) :=
  match scan FieldStart "" [] [] text with
  | Err e => Err e
  | Ok [] => Ok []
  | Ok (header :: rows) =>
      if forallb (same_width header) rows
      then Ok (map (object_of header) rows)
      else Err "Invalid Record Length"
  end.

End Csv.

(** ** The server *)

Module Server.
Import JS.

(** *** Data model *)

Inductive Role : Type := system | user | assistant.

#[global] Instance Role_eq_dec : EqDecision Role.
Proof. solve_decision. Defined.

(** A message of a conversation; [images] is present on the user
    message of /analyze-image only. *)
Record Message : Type := mkMessage {
  role : Role;
  content : string;
  images : option (list string)
}.

Definition msg (r : Role) (c : string) : Message := mkMessage r c None.

(** What an analyze-* endpoint attached to the session: the records
    of a CSV, or the text of a PDF. *)
Inductive AnalyzedData : Type :=
| Records (rs : list Csv.Record)
| DocumentText (t : string).

Record Session : Type := mkSession {
  history : list Message;
  analyzedData : option AnalyzedData;
  analyzedImage : option string
}.

(** [{ history: [], analyzedData: null, analyzedImage: null }] *)
Definition emptySession : Session := mkSession [] None None.

(** [conversationHistories] *)
Abbreviation Store := (gmap string Session).

(** A value of a response body. *)
Inductive Value : Type :=
| undefined
| null
| str (s : string).

Definition of_option (o : option string) : Value :=
  match o with Some s => str s | None => undefined end.

Definition or_null (o : option string) : Value :=
  match o with Some s => str s | None => null end.

(** The object literal handed to [res.json]. *)
Definition Body : Type := list (string * Value).

Fixpoint field (k : string) (b : Body) : Value :=
  match b with
  | [] => undefined
  | (k', v) :: b' => if String.eqb k k' then v else field k b'
  end.

(** How a handler ends: with [res.status(s).json(b)], or with an
    exception nobody catches. *)
Inductive Outcome : Type :=
| responded (status : nat) (body : Body)
| threw (error : string).

Definition status_of (o : Outcome) : option nat :=
  match o with responded s _ => Some s | threw _ => None end.

Definition body_of (o : Outcome) : Body :=
  match o with responded _ b => b | threw _ => [] end.

(** *** Calls to the Ollama endpoint *)

Inductive Call : Type :=
| api_chat (model : string) (messages : list Message)
| api_generate (model prompt : string) (imgs : list string).

(** What the awaited call gives: an exception with its message, or the
    text of the model. *)
Inductive Reply : Type :=
| failed (error_message : string)
| replied (text : string).

Inductive Handler (A : Type) : Type :=
| Return (a : A)
| Await (c : Call) (k : Reply -> Handler A).
Arguments Return {A} a.
Arguments Await {A} c k.

(** Runs a handler against an endpoint; the calls made are recorded in
    order. *)
Fixpoint run {A : Type} (ollama : Call -> Reply) (h : Handler A) : A * list Call :=
  match h with
  | Return a => (a, [])
  | Await c k => let (a, cs) := run ollama (k (ollama c)) in (a, c :: cs)
  end.

Definition result {A : Type} (ollama : Call -> Reply) (h : Handler A) : A :=
  fst (run ollama h).

Definition calls {A : Type} (ollama : Call -> Reply) (h : Handler A) : list Call :=
  snd (run ollama h).

(** *** What the handlers take from outside *)

#[warnings="-register-all"]
Inductive Json : Type :=
| JNull
| JBool (b : bool)
| JNumber (digits : string)
| JString (s : string)
| JArray (items : list Json)
| JObject (members : list (string * Json)).

(** What [conversationHistories[id]] gives when the object has no
    property [id] of its own but inherits one: [conversationHistories]
    is a plain object, so that [constructor], [toString], [__proto__]
    and the other members of [Object.prototype] are found under their
    names.  Such a value is a function or an object without [history];
    the handlers read its [analyzedData] and [analyzedImage], which
    hold what an earlier request wrote there. *)
Record Heir : Type := mkHeir {
  heir_data : option AnalyzedData;
  heir_image : option string
}.

Record Externals : Type := mkExternals {
  (** the value of the call of [uuidv4()] in this request, a UUID (so
      not the name of a member of [Object.prototype]) *)
  uuidv4 : string;
  (** [formatter.format(new Date())] when the session is primed and
      when the date tool runs *)
  clock_prime : string;
  clock_tool : string;
  (** [pdf(Buffer.from(base64, 'base64'))]: the text, or the message of
      the error *)
  pdf : string -> Result string;
  (** [parse] of csv-parse, [stringify] of csv-stringify *)
  parse : string -> Result (list Csv.Record);
  stringify : list Json -> Result string;
  (** [JSON.parse], [None] when it throws; [JSON.stringify(x, null, 2)] *)
  JSON_parse : string -> option Json;
  JSON_stringify : list Csv.Record -> string;
  (** the instruction texts of /analyze-pdf, /analyze-csv and
      /analyze-image *)
  pdf_instructions : string;
  csv_instructions : string;
  image_instructions : string;
  (** the truthy value [conversationHistories] inherits under a name,
      as the process has it when the request arrives (what an earlier
      request assigned to such a member is part of it) *)
  inherited : string -> option Heir
}.

(** The inherited members of a process in which nothing was written to
    them. *)
Definition untouched_prototype (id : string) : option Heir :=
  if existsb (String.eqb id) Object_prototype
  then Some (mkHeir None None)
  else None.

Definition OLLAMA_DEFAULT_MODEL : string := "llama3.2-vision:11b".
Definition OLLAMA_MULTIMODAL_MODEL : string := "llama3.2-vision:11b".

(** *** Real-time data *)

Definition getSystemDateTime (formatted : string) : string :=
  "The current date and time in Adimali, Kerala, India is: " +:+ formatted +:+ ".".

Definition getWeather (location : string) : string :=
  "The current weather in " +:+ location +:+ " is sunny with a temperature of 30°C.".

(** [s.match(/weather in (.+)/)]: the captured group of the leftmost
    match. *)
Fixpoint match_weather_in (s : string) : option string :=
  let here :=
    if startsWith s "weather in "
    then match dots (substring 11 s) with "" => None | g => Some g end
    else None in
  match here with
  | Some g => Some g
  | None =>
      match s with
      | "" => None
      | String _ s' => match_weather_in s'
      end
  end.

(** [dispatchTool]: the tool used and its data, [None] for
    [{ toolUsed: null }]. *)
Definition dispatchTool (w : Externals) (userQuestion : string) : option (string * string) :=
  let userQuestion := toLowerCase userQuestion in
  if includes userQuestion "today's date" || includes userQuestion "current date" ||
     includes userQuestion "what date is it" || includes userQuestion "current time" ||
     includes userQuestion "what time is it" || includes userQuestion "date and time"
  then Some ("get_date_time", getSystemDateTime (clock_tool w))
  else if includes userQuestion "weather" || includes userQuestion "temperature"
  then
    let location :=
      match match_weather_in userQuestion with
      | Some g => trim g
      | None => "Adimali, Kerala, India"
      end in
    Some ("get_weather", getWeather location)
  else None.

(** *** The CSV helpers of server.js *)

(** [csvToJson]: the promise resolves with the records or rejects. *)
Definition csvToJson (parse : string -> Result (list Csv.Record))
    (csvString : string) : Result (list Csv.Record) :=
  match parse csvString with
  | Err m => Err ("Failed to parse CSV: " +:+ m)
  | Ok records => Ok records
  end.

(** [jsonToCsv], for the [stringify] of the caller's rows. *)
Definition jsonToCsv {A : Type} (stringify : list A -> Result string)
    (jsonData : list A) : Result string :=
  match jsonData with
  | [] => Ok ""
  | _ =>
      match stringify jsonData with
      | Err m => Err ("Failed to convert JSON to CSV: " +:+ m)
      | Ok csvString => Ok csvString
      end
  end.

(** [tryParseJson] *)
Definition tryParseJson (w : Externals) (s : string) : option Json :=
  match JSON_parse w s with
  | Some (JArray items) => Some (JArray items)
  | Some (JObject members) => Some (JObject members)
  | _ => None
  end.

(** *** The session store *)

(** The store holds a session under [id]. *)
Definition held (store : Store) (id : string) : bool :=
  bool_decide (is_Some (store !! id)).

(** [conversationHistories[id]] is truthy: a session of the store, or
    an inherited member. *)
Definition found (w : Externals) (store : Store) (id : string) : bool :=
  held store id || bool_decide (is_Some (inherited w id)).

(** [!sessionId || !conversationHistories[sessionId]] *)
Definition unknown (w : Externals) (store : Store) (sessionId : option string) : bool :=
  match sessionId with
  | Some id => negb (truthy id) || negb (found w store id)
  | None => true
  end.

(** The id a request carries when [unknown] is [false]. *)
Definition the_id (sessionId : option string) : string := default "" sessionId.

(** The resolution every session-bound handler opens with:
    [if (!sessionId || !conversationHistories[sessionId]) {
       sessionId = uuidv4();
       conversationHistories[sessionId] = { history: [], ... } }]. *)
Definition resolve (w : Externals) (store : Store) (sessionId : option string)
    : string * Store :=
  if unknown w store sessionId
  then (uuidv4 w, <[uuidv4 w := emptySession]> store)
  else (the_id sessionId, store).

Definition clear_analyzed (s : Session) : Session :=
  mkSession (history s) None None.

(** The same with the [else] branch of the analyze-* handlers, which
    drops what an earlier analysis attached (for an inherited member
    the two assignments go to that member and the store is as it
    was). *)
Definition resolve_analyze (w : Externals) (store : Store) (sessionId : option string)
    : string * Store :=
  if unknown w store sessionId
  then (uuidv4 w, <[uuidv4 w := emptySession]> store)
  else (the_id sessionId, alter clear_analyzed (the_id sessionId) store).

(** [history.push(m)] and [history.pop()] *)
Definition push (m : Message) (s : Session) : Session :=
  mkSession (history s ++ [m]) (analyzedData s) (analyzedImage s).

Definition pop (s : Session) : Session :=
  mkSession (removelast (history s)) (analyzedData s) (analyzedImage s).

Definition set_data (d : option AnalyzedData) (s : Session) : Session :=
  mkSession (history s) d (analyzedImage s).

Definition set_image (i : option string) (s : Session) : Session :=
  mkSession (history s) (analyzedData s) i.

(** The error of [conversationHistories[id].history.push(...)] when
    [id] names an inherited member, which has no [history]; no handler
    catches it. *)
Definition no_history : string :=
  "TypeError: Cannot read properties of undefined (reading 'push')".

(** [conversationHistories[id].history] *)
Definition history_of (store : Store) (id : string) : list Message :=
  match store !! id with Some s => history s | None => [] end.

Definition last_is_user (h : list Message) : bool :=
  match last h with
  | Some m => match role m with user => true | _ => false end
  | None => false
  end.

(** The rollback of /analyze-pdf and /analyze-csv: the last message
    goes when it is a user message. *)
Definition pop_user (s : Session) : Session :=
  if last_is_user (history s) then pop s else s.

(** *** Classification of the model's text *)

Inductive FileType : Type := csv | image.

Definition file_type_name (t : FileType) : string :=
  match t with csv => "csv" | image => "image" end.

(** [fileTypeToGenerate] and [generationPrompt] *)
Record Directive : Type := mkDirective {
  fileTypeToGenerate : option FileType;
  generationPrompt : option string
}.

Definition no_directive : Directive := mkDirective None None.

Definition after (marker text : string) : string :=
  trim (substring (String.length marker) text).

(** /chat, /analyze-csv and /analyze-pdf look for CSV_REQUEST first. *)
Definition classify_csv_first (ollamaResponse : string) : Directive :=
  if startsWith ollamaResponse "CSV_REQUEST:"
  then mkDirective (Some csv) (Some (after "CSV_REQUEST:" ollamaResponse))
  else if startsWith ollamaResponse "IMAGE_REQUEST:"
  then mkDirective (Some image) (Some (after "IMAGE_REQUEST:" ollamaResponse))
  else no_directive.

(** /analyze-image looks for IMAGE_REQUEST first. *)
Definition classify_image_first (ollamaResponse : string) : Directive :=
  if startsWith ollamaResponse "IMAGE_REQUEST:"
  then mkDirective (Some image) (Some (after "IMAGE_REQUEST:" ollamaResponse))
  else if startsWith ollamaResponse "CSV_REQUEST:"
  then mkDirective (Some csv) (Some (after "CSV_REQUEST:" ollamaResponse))
  else no_directive.

(** The fields every analysis and chat response ends with:
    [action], [fileType], [generationPrompt]. *)
Definition directive_fields (d : Directive) : Body :=
  [("action", match fileTypeToGenerate d with
              | Some _ => str "generate_file"
              | None => undefined
              end);
   ("fileType", or_null (file_type_name <$> fileTypeToGenerate d));
   ("generationPrompt", or_null (generationPrompt d))].

(** *** Requests *)

(** [req.body]: the fields the handlers read. *)
Record Request : Type := mkRequest {
  req_question : option string;
  req_csv : option string;
  req_pdf : option string;
  req_image : option string;
  req_prompt : option string;
  req_sessionId : option string
}.

Definition Answer : Type := (Store * Outcome)%type.

Definition on (id : string) (f : Session -> Session) (store : Store) : Store :=
  alter f id store.

Definition quoted (s : string) : string := String DQ (s +:+ String DQ "").

(** *** POST /analyze-pdf *)

Definition analyze_pdf (w : Externals) (store : Store) (req : Request) : Handler Answer :=
  let base64Pdf := req_pdf req in
  let prompt := or_default (req_prompt req) "Summarize the content of the PDF." in
  let (sessionId, store) := resolve_analyze w store (req_sessionId req) in
  if negb (present base64Pdf)
  then Return (store, responded 400 [("error", str "❌ No PDF data (base64) provided.")])
  else
    match pdf w (default "" base64Pdf) with
    | Err m =>
        Return (store, responded 400 [("error", str ("❌ Failed to parse PDF content: " +:+ m))])
    | Ok pdfText =>
        if negb (held store sessionId)
        then (* the text goes to the inherited member, which has no history *)
          Return (store, threw no_history)
        else
        let store := on sessionId (set_data (Some (DocumentText pdfText))) store in
        let store := on sessionId (push (msg system (pdf_instructions w))) store in
        let fullPromptForOllama :=
          prompt +:+ nl +:+ nl +:+ "Document Text:" +:+ nl +:+ fence +:+ nl +:+
          pdfText +:+ nl +:+ fence +:+ nl in
        let store := on sessionId (push (msg user fullPromptForOllama)) store in
        Await (api_chat OLLAMA_DEFAULT_MODEL (history_of store sessionId)) (fun reply =>
          match reply with
          | replied ollamaResponse =>
              let d := classify_csv_first ollamaResponse in
              let store := on sessionId (push (msg assistant ollamaResponse)) store in
              Return (store, responded 200
                ([("message", str "✅ PDF analysis complete");
                  ("response", str ollamaResponse)] ++
                 directive_fields d ++
                 [("sessionId", str sessionId)])%list)
          | failed m =>
              let store := on sessionId pop_user store in
              Return (store, responded 500
                [("message", str "❌ Failed to analyze PDF");
                 ("error", str m);
                 ("sessionId", str sessionId)])
          end)
    end.

(** *** POST /generate-csv *)

(** [!prompt || prompt.trim().length === 0] *)
Definition blank (o : option string) : bool :=
  match o with
  | Some s => negb (truthy s) || Nat.eqb (String.length (trim s)) 0
  | None => true
  end.

(** [sessionId && conversationHistories[sessionId] &&
    conversationHistories[sessionId].analyzedData], and the same for
    [analyzedImage]: what the session holds, or what the inherited
    member of that name has. *)
Definition analyzedData_at (w : Externals) (store : Store) (sessionId : option string)
    : option AnalyzedData :=
  match sessionId with
  | Some id =>
      if truthy id
      then match store !! id with
           | Some s => analyzedData s
           | None => inherited w id ≫= heir_data
           end
      else None
  | None => None
  end.

Definition analyzedImage_at (w : Externals) (store : Store) (sessionId : option string)
    : option string :=
  match sessionId with
  | Some id =>
      if truthy id
      then match store !! id with
           | Some s => analyzedImage s
           | None => inherited w id ≫= heir_image
           end
      else None
  | None => None
  end.

Definition json_output_request : string :=
  nl +:+ nl +:+
  "**IMPORTANT**: Output the result as a JSON array of objects, enclosed in triple backticks and 'json' tag. For example: " +:+
  fence +:+ "json" +:+ nl +:+
  "[{" +:+ quoted "Col1" +:+ ": " +:+ quoted "Val1" +:+ "}, {" +:+
  quoted "Col2" +:+ ": " +:+ quoted "Val2" +:+ "}]" +:+ nl +:+
  fence +:+ " No other text around the JSON.".

(** The prompt of /generate-csv, with the data an analysis attached. *)
Definition csv_generation_prompt (w : Externals) (store : Store)
    (sessionId : option string) (prompt : string) : string :=
  match analyzedData_at w store sessionId with
  | Some (Records data) =>
      "Based on the following data, please generate a CSV: " +:+ prompt +:+ nl +:+ nl +:+
      "Data (JSON format):" +:+ nl +:+ fence +:+ "json" +:+ nl +:+
      JSON_stringify w data +:+ nl +:+ fence +:+ nl
  | Some (DocumentText text) =>
      if truthy text
      then "Based on the following document text, please generate a CSV: " +:+ prompt +:+
           nl +:+ nl +:+ "Document Text:" +:+ nl +:+ fence +:+ nl +:+
           text +:+ nl +:+ fence +:+ nl
      else prompt
  | None => prompt
  end.

(** [finalCsvContent] of /generate-csv; [Err] when [jsonToCsv] rejects. *)
Definition final_csv_content (w : Externals) (rawContentFromOllama : string) : Result string :=
  match match_json_block rawContentFromOllama with
  | Some (_, group) =>
      if truthy group
      then match tryParseJson w (trim group) with
           | Some (JArray items) => jsonToCsv (stringify w) items
           | _ => Ok rawContentFromOllama
           end
      else Ok rawContentFromOllama
  | None => Ok rawContentFromOllama
  end.

Definition empty_csv_response : Outcome :=
  responded 500
    [("message", str "❌ Generated empty CSV. Please refine your prompt or data.");
     ("csvContent", str "");
     ("fileName", str "empty_generated.csv")].

Definition failed_csv_response (m : string) : Outcome :=
  responded 500 [("message", str "❌ Failed to generate CSV"); ("error", str m)].

(** The message of the error [callOllamaGenerate] throws. *)
Definition generate_failure : string := "Failed to generate content from Ollama.".

Definition generate_csv (w : Externals) (store : Store) (req : Request) : Handler Answer :=
  let prompt := req_prompt req in
  let sessionId := req_sessionId req in
  if blank prompt
  then Return (store, responded 400
         [("message", str "❌ Prompt for CSV generation cannot be empty.")])
  else
    let fullPromptForOllama := csv_generation_prompt w store sessionId (default "" prompt) in
    let ollamaPromptForJsonOutput := fullPromptForOllama +:+ json_output_request in
    Await (api_generate OLLAMA_DEFAULT_MODEL ollamaPromptForJsonOutput []) (fun reply =>
      match reply with
      | failed _ => Return (store, failed_csv_response generate_failure)
      | replied rawContentFromOllama =>
          match final_csv_content w rawContentFromOllama with
          | Err m => Return (store, failed_csv_response m)
          | Ok finalCsvContent =>
              if blank (Some finalCsvContent)
              then Return (store, empty_csv_response)
              else Return (store, responded 200
                     [("message", str "✅ CSV content generated successfully");
                      ("csvContent", str finalCsvContent);
                      ("fileName", str "generated_data.csv")])
          end
      end).

(** *** POST /generate-image *)

Definition generate_image (w : Externals) (store : Store) (req : Request) : Handler Answer :=
  let prompt := req_prompt req in
  let sessionId := req_sessionId req in
  if blank prompt
  then Return (store, responded 400
         [("message", str "❌ Prompt for Image analysis/processing cannot be empty.")])
  else
    let attached :=
      if present (analyzedImage_at w store sessionId)
      then analyzedImage_at w store sessionId
      else None in
    let imagesForOllama := match attached with Some i => [i] | None => [] end in
    let fullPromptForOllama :=
      match attached with
      | Some _ => "Given the attached image, please provide a textual output: " +:+ default "" prompt
      | None => default "" prompt
      end in
    Await (api_generate OLLAMA_MULTIMODAL_MODEL fullPromptForOllama imagesForOllama) (fun reply =>
      match reply with
      | replied responseContent =>
          Return (store, responded 200
            [("message", str "✅ Image analysis/description generated successfully");
             ("response", str responseContent);
             ("fileName", str "image_analysis.txt")])
      | failed _ =>
          Return (store, responded 500
            [("message", str "❌ Failed to process image with multimodal model");
             ("error", str generate_failure)])
      end).

(** *** POST /analyze-csv *)

Definition analyze_csv (w : Externals) (store : Store) (req : Request) : Handler Answer :=
  let csvContent := req_csv req in
  let prompt := or_default (req_prompt req) "Analyze the following CSV data." in
  let (sessionId, store) := resolve_analyze w store (req_sessionId req) in
  if negb (held store sessionId)
  then Return (store, threw no_history)
  else
  let store := on sessionId (push (msg system (csv_instructions w))) store in
  if negb (present csvContent)
  then Return (store, responded 400 [("error", str "❌ No CSV content provided.")])
  else
    match csvToJson (parse w) (default "" csvContent) with
    | Err _ =>
        Return (store, responded 400
          [("error", str "❌ Failed to parse CSV content. Please ensure it's valid CSV format.")])
    | Ok parsedCsvData =>
        let store := on sessionId (set_data (Some (Records parsedCsvData))) store in
        let fullPromptForOllama :=
          prompt +:+ nl +:+ nl +:+ "CSV Data (JSON format):" +:+ nl +:+
          fence +:+ "json" +:+ nl +:+ JSON_stringify w parsedCsvData +:+ nl +:+ fence +:+ nl in
        let store := on sessionId (push (msg user fullPromptForOllama)) store in
        Await (api_chat OLLAMA_DEFAULT_MODEL (history_of store sessionId)) (fun reply =>
          match reply with
          | replied ollamaResponse =>
              let d := classify_csv_first ollamaResponse in
              let store := on sessionId (push (msg assistant ollamaResponse)) store in
              Return (store, responded 200
                ([("message", str "✅ CSV analysis complete");
                  ("response", str ollamaResponse)] ++
                 directive_fields d ++
                 [("sessionId", str sessionId)])%list)
          | failed m =>
              let store := on sessionId pop_user store in
              Return (store, responded 500
                [("message", str "❌ Failed to analyze CSV");
                 ("error", str m);
                 ("sessionId", str sessionId)])
          end)
    end.

(** *** POST /analyze-image *)

(** What /analyze-image does with a CSV_REQUEST that carries a fenced
    JSON array: the text kept as the answer, the directive and
    [transformedCsvOutput]. *)
Definition embedded_csv (w : Externals) (ollamaResponse : string) (d : Directive)
    : string * Directive * option string :=
  match match_json_block ollamaResponse with
  | Some (whole, group) =>
      if truthy group
      then match tryParseJson w (trim group) with
           | Some (JArray items) =>
               match jsonToCsv (stringify w) items with
               | Ok transformedCsvOutput =>
                   let rest := trim (remove_first ollamaResponse whole) in
                   let rest :=
                     if Nat.eqb (String.length rest) 0 &&
                        Nat.ltb 0 (String.length transformedCsvOutput)
                     then "Detected objects/attributes as CSV. Please download."
                     else rest in
                   (rest, d, Some transformedCsvOutput)
               | Err m =>
                   ("Ollama provided JSON, but failed to convert it to CSV: " +:+ m +:+
                    nl +:+ nl +:+ "Original Ollama response part: " +:+ ollamaResponse,
                    mkDirective None (generationPrompt d), None)
               end
           | _ => (ollamaResponse, d, None)
           end
      else (ollamaResponse, d, None)
  | None => (ollamaResponse, d, None)
  end.

Definition analyze_image (w : Externals) (store : Store) (req : Request) : Handler Answer :=
  let base64Image := req_image req in
  let prompt := or_default (req_prompt req) "Describe this image." in
  let (sessionId, store) := resolve_analyze w store (req_sessionId req) in
  if negb (held store sessionId)
  then (* the picture goes to the inherited member, which has no history *)
    Return (store, threw no_history)
  else
  let store :=
    if present base64Image then on sessionId (set_image base64Image) store else store in
  let store := on sessionId (push (msg system (image_instructions w))) store in
  if negb (present base64Image)
  then Return (store, responded 400 [("error", str "❌ No image data (base64) provided.")])
  else
    let fullPromptForOllama := prompt in
    let store :=
      on sessionId
         (push (mkMessage user fullPromptForOllama (Some [default "" base64Image]))) store in
    Await (api_chat OLLAMA_MULTIMODAL_MODEL (history_of store sessionId)) (fun reply =>
      match reply with
      | replied ollamaResponse =>
          let d := classify_image_first ollamaResponse in
          let '(ollamaResponse, d, transformedCsvOutput) :=
            match fileTypeToGenerate d with
            | Some csv => embedded_csv w ollamaResponse d
            | _ => (ollamaResponse, d, None)
            end in
          let store := on sessionId (push (msg assistant ollamaResponse)) store in
          Return (store, responded 200
            ([("message", str "✅ Image analysis complete");
              ("response", str ollamaResponse)] ++
             directive_fields d ++
             [("csvContent", or_null transformedCsvOutput);
              ("sessionId", str sessionId)])%list)
      | failed m =>
          (* the error branch only logs: the user message stays *)
          Return (store, responded 500
            [("message", str "❌ Failed to analyze image");
             ("error", str m);
             ("sessionId", str sessionId)])
      end).

(** *** POST /chat *)

Definition chat_instructions (w : Externals) : string :=
  "You are a helpful assistant. I have access to real-time information such as the current date, time, and weather. The current date and time in Adimali, Kerala, India is: " +:+
  getSystemDateTime (clock_prime w) +:+ "." +:+
  nl +:+ "If, based on the conversational context, you determine a CSV should be generated, respond with: " +:+
  quoted "CSV_REQUEST: [Your detailed prompt for CSV generation here]" +:+ "." +:+
  nl +:+ "If you determine an image should be generated, respond with: " +:+
  quoted "IMAGE_REQUEST: [Your detailed prompt for image generation here]" +:+ "." +:+
  nl +:+ "Otherwise, keep your responses concise and relevant to the conversation.".

(** The commands /chat answers without the model:
    [fileTypeToGenerateDirectly] and [generationPromptDirectly]. *)
Definition direct_command (userQuestion : string) : option (FileType * string) :=
  let lowerCaseQuestion := toLowerCase userQuestion in
  if startsWith lowerCaseQuestion "generate csv:"
  then Some (csv, after "generate csv:" userQuestion)
  else if startsWith lowerCaseQuestion "generate image:" ||
          startsWith lowerCaseQuestion "show me an image of:"
  then if startsWith lowerCaseQuestion "generate image:"
       then Some (image, after "generate image:" userQuestion)
       else Some (image, after "show me an image of:" userQuestion)
  else None.

(** The session of /chat: a new one is primed with the instructions. *)
Definition resolve_chat (w : Externals) (store : Store) (sessionId : option string)
    : string * Store :=
  let (id, store') := resolve w store sessionId in
  if unknown w store sessionId
  then (id, on id (push (msg system (chat_instructions w))) store')
  else (id, store').

Definition chat (w : Externals) (store : Store) (req : Request) : Handler Answer :=
  match req_question req with
  | None =>
      (* [userQuestion.toLowerCase()] on [undefined] *)
      Return (store, threw "TypeError: Cannot read properties of undefined (reading 'toLowerCase')")
  | Some userQuestion =>
      match direct_command userQuestion with
      | Some (fileTypeToGenerateDirectly, generationPromptDirectly) =>
          Return (store, responded 200
            [("message", str ("✅ Command received to generate " +:+
                              file_type_name fileTypeToGenerateDirectly +:+ "."));
             ("action", str "generate_file");
             ("fileType", str (file_type_name fileTypeToGenerateDirectly));
             ("generationPrompt", str generationPromptDirectly);
             ("sessionId", of_option (req_sessionId req))])
      | None =>
          let (sessionId, store) := resolve_chat w store (req_sessionId req) in
          let toolCheck := dispatchTool w userQuestion in
          if negb (held store sessionId)
          then Return (store, threw no_history)
          else
          let store :=
            match toolCheck with
            | Some (_, toolResult) =>
                on sessionId (push (msg system ("Tool Output: " +:+ toolResult))) store
            | None => store
            end in
          let questionForOllama := userQuestion in
          let store := on sessionId (push (msg user questionForOllama)) store in
          Await (api_chat OLLAMA_DEFAULT_MODEL (history_of store sessionId)) (fun reply =>
            match reply with
            | replied ollamaResponse =>
                let d := classify_csv_first ollamaResponse in
                let store := on sessionId (push (msg assistant ollamaResponse)) store in
                Return (store, responded 200
                  ([("message", str "✅ Chat response received");
                    ("answer", str ollamaResponse)] ++
                   directive_fields d ++
                   [("sessionId", str sessionId)])%list)
            | failed m =>
                let store := on sessionId pop store in
                let store :=
                  match toolCheck with
                  | Some _ => on sessionId pop store
                  | None => store
                  end in
                Return (store, responded 500
                  [("message", str "❌ Failed to get chat response");
                   ("error", str m);
                   ("sessionId", str sessionId)])
            end)
      end
  end.

(** *** POST /clear-chat-history *)

(** [if (sessionId && conversationHistories[sessionId])]: the test is
    the negation of the one the other handlers open with; [delete]
    removes a property of the object itself and nothing else. *)
Definition clear_chat_history (w : Externals) (store : Store) (req : Request) : Answer :=
  if unknown w store (req_sessionId req)
  then (store, responded 404 [("error", str "❌ Session not found or no sessionId provided.")])
  else
    let sessionId := the_id (req_sessionId req) in
    (delete sessionId store,
     responded 200
       [("message", str ("✅ Conversation history cleared for session: " +:+ sessionId))]).

End Server.

(** ** The round trip of the format converters, as a function *)

Module Converters.
Import Server.

(** [csvToJson(await jsonToCsv(r))] with the two packages. *)
Definition round_trip (r : list Csv.Record) : Result (list Csv.Record) :=
  match jsonToCsv Csv.stringify r with
  | Ok text => csvToJson Csv.parse text
  | Err m => Err m
  end.

(** A row that is written as an empty line: no cell, or one empty
    cell. *)
Definition blank_row (cells : list string) : bool :=
  match cells with
  | [] => true
  | [c] => negb (JS.truthy c)
  | _ => false
  end.

(** No row of the table of [r], header included, is written as an
    empty line. *)
Definition no_blank_row (r : list Csv.Record) : Prop :=
  match r with
  | [] => True
  | first :: _ =>
      blank_row (Csv.keys first) = false /\
      Forall (fun rec => blank_row (Csv.row_of (Csv.keys first) rec) = false) r
  end.

(** All records have the key set of the first one, each key once. *)
Definition homogeneous (r : list Csv.Record) : Prop :=
  match r with
  | [] => True
  | first :: _ =>
      List.NoDup (Csv.keys first) /\
      Forall (fun rec => Csv.keys rec ≡ₚ Csv.keys first) r
  end.

(** All records list their keys in the order of the first one. *)
Definition same_key_order (r : list Csv.Record) : Prop :=
  match r with
  | [] => True
  | first :: _ => Forall (fun rec => Csv.keys rec = Csv.keys first) r
  end.

(** The mode of the reader once a written cell has been read. *)
Definition mode_after (f : string) : Csv.Mode :=
  if Csv.needs_quote f then Csv.QuoteSeen
  else match f with "" => Csv.FieldStart | _ => Csv.Unquoted end.

(** The object whose keys are [columns] and whose values [f] gives. *)
Definition tabulate (f : string -> string) (columns : list string) : Csv.Record :=
  map (fun k => (k, f k)) columns.

End Converters.

(** ** A concrete setting for the examples *)

Module Sample.
Import Server.

Definition world : Externals :=
  mkExternals
    "3f2c1a9e-0000-4000-8000-000000000001"
    "Monday, 2 November 2026 at 10:31:00"
    "Monday, 2 November 2026 at 10:31:01"
    (fun base64 => Ok base64)
    Csv.parse
    (fun _ => Err "Invalid Record: expect an array or an object")
    (fun _ => None)
    (fun _ => "[]")
    "You are an expert document analyst."
    "You are an expert CSV data analyst and transformer."
    "You are a helpful assistant capable of analyzing images."
    untouched_prototype.

Definition ask (q : string) (sessionId : option string) : Request :=
  mkRequest (Some q) None None None None sessionId.

Definition with_csv (c : option string) (sessionId : option string) : Request :=
  mkRequest None c None None None sessionId.

Definition with_image (i : option string) (sessionId : option string) : Request :=
  mkRequest None None None i None sessionId.

Definition with_prompt (p : option string) (sessionId : option string) : Request :=
  mkRequest None None None None p sessionId.

Definition for_session (sessionId : option string) : Request :=
  mkRequest None None None None None sessionId.

(** A session with one completed turn. *)
Definition busy : Session :=
  mkSession
    [msg system "You are a helpful assistant.";
     msg user "hello";
     msg assistant "Hi! How can I help?"]
    None None.

Definition one_session : Store := {[ "s1" := busy ]}.

(** An endpoint that is down, and one that answers the given text. *)
Definition down : Call -> Reply := fun _ => failed "connect ECONNREFUSED 127.0.0.1:11434".
Definition answering (text : string) : Call -> Reply := fun _ => replied text.

(** Two records with the same columns, one cell with a comma and a
    line break, one cell empty. *)
Definition people : list Csv.Record :=
  [[("name", "Ada, Countess
of Lovelace"); ("city", "London")];
   [("name", "Bob"); ("city", "")]].

(** One record with a single, empty cell. *)
Definition one_empty_cell : list Csv.Record := [[("a", "")]].

Definition small_table : string := "name,city
Ada,London
".

(** A session to which /analyze-image attached a picture. *)
Definition pictured : Session :=
  mkSession
    [msg system "You are a helpful assistant capable of analyzing images.";
     mkMessage user "Describe this image." (Some ["aGVsbG8="]);
     msg assistant "A greeting."]
    None (Some "aGVsbG8=").

Definition picture_session : Store := {[ "s2" := pictured ]}.

(** The same setting with a [JSON.parse] that reads the empty array. *)
Definition world_with_json : Externals :=
  mkExternals
    (uuidv4 world) (clock_prime world) (clock_tool world) (pdf world) (parse world)
    (stringify world)
    (fun s => if String.eqb s "[]" then Some (JArray []) else None)
    (JSON_stringify world)
    (pdf_instructions world) (csv_instructions world) (image_instructions world)
    (inherited world).

(** The same with a [JSON.parse] that reads an array of one number,
    which [stringify] refuses. *)
Definition world_with_numbers : Externals :=
  mkExternals
    (uuidv4 world) (clock_prime world) (clock_tool world) (pdf world) (parse world)
    (fun _ => Err "Invalid Record: expect an array or an object, got 1")
    (fun s => if String.eqb s "[1]" then Some (JArray [JNumber "1"]) else None)
    (JSON_stringify world)
    (pdf_instructions world) (csv_instructions world) (image_instructions world)
    (inherited world).

(** A fenced JSON block holding the empty array. *)
Definition fenced_empty_array : string :=
  JS.fence +:+ "json" +:+ JS.nl +:+ "[]" +:+ JS.nl +:+ JS.fence.

(** A fenced JSON block holding an array of one number. *)
Definition fenced_numbers : string :=
  JS.fence +:+ "json" +:+ JS.nl +:+ "[1]" +:+ JS.nl +:+ JS.fence.

(** A no-break space (U+00A0) and an ideographic space (U+3000). *)
Definition nbsp : string := JS.encode 160.
Definition wide_space : string := JS.encode 12288.

End Sample.

(** ** Notions the statements use *)

Module Notions.
Import Server.

(** [text] starts with [marker] at position 0. *)
Definition begins (marker text : string) : Prop :=
  exists rest, text = marker +:+ rest.

(** [text] starts, whatever the case of its letters, with [marker]
    (a lower-case text); [rest] is what follows. *)
Definition begins_nocase (marker text rest : string) : Prop :=
  exists head, text = head +:+ rest /\ JS.toLowerCase head = marker.

(** The capital of a lower-case ASCII letter; another character is
    its own. *)
Definition capital (m : ascii) : ascii :=
  let n := nat_of_ascii m in
  if Nat.leb 97 n && Nat.leb n 122 then ascii_of_nat (n - 32) else m.

(** [head] is [marker] (a lower-case text) with each letter in either
    case. *)
Fixpoint nocase (head marker : string) : Prop :=
  match head, marker with
  | "", "" => True
  | String c head', String m marker' => (c = m \/ c = capital m) /\ nocase head' marker'
  | _, _ => False
  end.

(** A marker the server compares a lower-cased text with: ASCII, no
    capital and no [k], which is also the lower case of the Kelvin sign
    U+212A. *)
Definition marker_char (m : ascii) : bool :=
  (JS.byte m <? 128)%N && negb ((65 <=? JS.byte m)%N && (JS.byte m <=? 90)%N) &&
  negb (JS.byte m =? 107)%N.

Fixpoint plain (marker : string) : bool :=
  match marker with
  | "" => true
  | String m rest => marker_char m && plain rest
  end.

(** A marker that ends with [i], with which the lower case of U+0130,
    an [i] and a combining dot, begins. *)
Fixpoint ends_in_i (marker : string) : bool :=
  match marker with
  | "" => false
  | String m rest => match rest with "" => (JS.byte m =? 105)%N | _ => ends_in_i rest end
  end.

(** A code point outside ASCII, or a byte that is no code point. *)
Definition high (cp : N) : Prop :=
  (128 <= cp < 1114112)%N \/ (1114112 + 128 <= cp < 1114112 + 256)%N.

(** Every row of the table leads from ASCII to ASCII or from outside
    ASCII to outside ASCII; the Kelvin sign alone leads into ASCII. *)
Definition row_high (row : N * N * N * N) : bool :=
  let '(first, last, _, lower) := row in
  ((last <? 128) && (lower + (last - first) <? 128))%N ||
  ((128 <=? first) && (128 <=? lower) && (lower + (last - first) <? 1114112))%N ||
  ((first =? 8490) && (last =? 8490) && (lower =? 107))%N.

(** [text] ends with [tail]. *)
Definition ends (tail text : string) : Prop :=
  exists front, text = front +:+ tail.

(** A text made of white-space characters only. *)
Inductive spaces : string -> Prop :=
| spaces_none : spaces ""
| spaces_more (ws rest : string) :
    In ws JS.white_space -> spaces rest -> spaces (ws +:+ rest).

(** [t] is [s] trimmed of the white space around it: [s] is [t] between
    two runs of white space, and [t] neither begins nor ends with a
    white-space character. *)
Definition trimmed (s t : string) : Prop :=
  (exists pre post, s = pre +:+ t +:+ post /\ spaces pre /\ spaces post) /\
  (forall ws, In ws JS.white_space -> ~ begins ws t /\ ~ ends ws t).

(** The three fields of a response that carry a directive. *)
Definition carries (b : Body) (d : Directive) : Prop :=
  field "action" b =
    match fileTypeToGenerate d with Some _ => str "generate_file" | None => undefined end /\
  field "fileType" b = or_null (file_type_name <$> fileTypeToGenerate d) /\
  field "generationPrompt" b = or_null (generationPrompt d).

(** The system messages of a history. *)
Definition system_messages (h : list Message) : list Message :=
  filter (fun m => role m = system) h.

(** The condition of the specification on a session id: none, or one
    the store does not hold. *)
Definition absent_or_missing (store : Store) (sessionId : option string) : Prop :=
  sessionId = None \/ exists id, sessionId = Some id /\ store !! id = None.

(** The message /chat pushes for the tool its question triggers. *)
Definition tool_messages (w : Externals) (q : string) : list Message :=
  match dispatchTool w q with
  | Some (_, toolResult) => [msg system ("Tool Output: " +:+ toolResult)]
  | None => []
  end.

(** Every call to the endpoint fails. *)
Definition always_fails (ollama : Call -> Reply) : Prop :=
  forall c, exists m, ollama c = failed m.

(** The session of the store a request names. *)
Definition session_at (store : Store) (sessionId : option string) : option Session :=
  match sessionId with
  | Some id => if JS.truthy id then store !! id else None
  | None => None
  end.

(** The inherited member a request names, when its session id is not
    that of a session of the store. *)
Definition heir_at (w : Externals) (store : Store) (sessionId : option string)
    : option Heir :=
  match sessionId with
  | Some id =>
      if JS.truthy id
      then match store !! id with Some _ => None | None => inherited w id end
      else None
  | None => None
  end.

(** The session id of the request names no inherited member of the
    store object: it is absent, empty, the id of a session of the store,
    or a name found nowhere. *)
Definition plain_id (w : Externals) (store : Store) (sessionId : option string) : Prop :=
  heir_at w store sessionId = None.

(** The history a request finds: that of the session it names, empty
    when it names none the store holds. *)
Definition history_before (store : Store) (sessionId : option string) : list Message :=
  match session_at store sessionId with
  | Some s => history s
  | None => []
  end.

(** The id the handlers work under. *)
Definition resolved_id (w : Externals) (store : Store) (sessionId : option string) : string :=
  fst (resolve w store sessionId).

(** A payload field that is absent or empty. *)
Definition missing (o : option string) : Prop := o = None \/ o = Some "".

(** What a refused request leaves in the store: under [id] a session
    with the history [h] and nothing attached, the other sessions as
    they were. *)
Definition left_behind (store store' : Store) (id : string)
    (h : list Message) : Prop :=
  (exists s', store' !! id = Some s' /\ history s' = h /\
              analyzedData s' = None /\ analyzedImage s' = None) /\
  (forall j, j <> id -> store' !! j = store !! j).

(** The model's text fences a JSON array, the way /generate-csv and
    /analyze-image look for one. *)
Definition fenced_array (w : Externals) (text : string) (items : list Json) : Prop :=
  exists whole group,
    JS.match_json_block text = Some (whole, group) /\ group <> "" /\
    tryParseJson w (JS.trim group) = Some (JArray items).

(** The text fences an array that [jsonToCsv] refuses. *)
Definition conversion_fails (w : Externals) (text : string) : Prop :=
  exists items m, fenced_array w text items /\ jsonToCsv (stringify w) items = Err m.

(** The body of the response of a handler when the model answers
    [text]. *)
Definition answered (text : string) (h : Handler Answer) : Body :=
  body_of (snd (result (fun _ => replied text) h)).

End Notions.

(** ** Further notions *)

Module MoreNotions.
Import Server Notions.

(** [part] occurs in [text]. *)
Definition occurs (part text : string) : Prop :=
  exists pre post, text = pre +:+ part +:+ post.

(** The phrases [dispatchTool] looks for. *)
Definition date_keywords : list string :=
  ["today's date"; "current date"; "what date is it";
   "current time"; "what time is it"; "date and time"].

Definition weather_keywords : list string := ["weather"; "temperature"].

(** [text] holds one of the phrases. *)
Definition mentions (keywords : list string) (text : string) : Prop :=
  exists k, In k keywords /\ occurs k text.

(** [g] is [s] up to its first line terminator: a line terminator or
    the end of [s] follows [g], and no line terminator begins before. *)
Definition first_line (s g : string) : Prop :=
  (exists post, s = g +:+ post /\
     (post = "" \/ exists lt, In lt JS.line_terminators /\ begins lt post)) /\
  forall pre lt rest,
    In lt JS.line_terminators -> s = pre +:+ lt +:+ rest ->
    String.length g <= String.length pre.

(** The expression /weather in (.+)/ matches at the start of [s] and
    captures [g]: one character at least, and all up to the end of the
    line. *)
Definition place_here (s g : string) : Prop :=
  exists rest, s = "weather in " +:+ rest /\ g <> "" /\ first_line rest g.

(** What [t.match(/weather in (.+)/)] captures: the group of the
    leftmost match. *)
Definition place_in (t g : string) : Prop :=
  exists pre s,
    t = pre +:+ s /\ place_here s g /\
    forall pre' s' g',
      t = pre' +:+ s' -> String.length pre' < String.length pre -> ~ place_here s' g'.

(** The expression matches nowhere in [t]. *)
Definition no_place (t : string) : Prop :=
  forall pre s g, t = pre +:+ s -> ~ place_here s g.

(** A session whose history does not end with a user message: no
    question is left without its answer. *)
Definition settled (s : Session) : Prop := last_is_user (history s) = false.

(** Every session of the store is settled. *)
Definition all_settled (store : Store) : Prop :=
  forall j s, store !! j = Some s -> settled s.

(** The handlers that work on a session. *)
Inductive Endpoint : Type :=
| to_chat | to_analyze_csv | to_analyze_pdf | to_analyze_image
| to_generate_csv | to_generate_image.

Definition handle (e : Endpoint) : Externals -> Store -> Request -> Handler Answer :=
  match e with
  | to_chat => chat
  | to_analyze_csv => analyze_csv
  | to_analyze_pdf => analyze_pdf
  | to_analyze_image => analyze_image
  | to_generate_csv => generate_csv
  | to_generate_image => generate_image
  end.



(** The fileType of a body names a file to generate. *)
Definition names_file (b : Body) : Prop :=
  field "fileType" b = str "csv" \/ field "fileType" b = str "image".

(** A handler that awaits the endpoint at most once, whatever the
    endpoint answers. *)
Definition one_shot {A : Type} (h : Handler A) : Prop :=
  (exists a, h = Return a) \/
  (exists c k, h = Await c k /\ forall r, exists a, k r = Return a).

(** A session with at most one kind of attachment. *)
Definition one_attachment (s : Session) : Prop :=
  analyzedData s = None \/ analyzedImage s = None.

Definition all_one_attachment (store : Store) : Prop :=
  forall j s, store !! j = Some s -> one_attachment s.

(** The stores the server goes through when requests are handled one
    after another: it starts with no session, and every request, to one
    of the six handlers or to /clear-chat-history, with whatever the
    outside world supplies to it, leads from one store to the next. *)
Inductive reachable : Store -> Prop :=
| at_start : reachable ∅
| after_request (e : Endpoint) (w : Externals) (req : Request) (ollama : Call -> Reply)
    (store : Store) :
    reachable store -> reachable (fst (result ollama (handle e w store req)))
| after_clear (w : Externals) (req : Request) (store : Store) :
    reachable store -> reachable (fst (clear_chat_history w store req)).

(** The prompts of /generate-csv for parsed CSV data and for the text
    of a document. *)
Definition prompt_about_data (serialised prompt : string) : string :=
  "Based on the following data, please generate a CSV: " +:+ prompt +:+ JS.nl +:+ JS.nl +:+
  "Data (JSON format):" +:+ JS.nl +:+ JS.fence +:+ "json" +:+ JS.nl +:+
  serialised +:+ JS.nl +:+ JS.fence +:+ JS.nl.

Definition prompt_about_text (text prompt : string) : string :=
  "Based on the following document text, please generate a CSV: " +:+ prompt +:+
  JS.nl +:+ JS.nl +:+ "Document Text:" +:+ JS.nl +:+ JS.fence +:+ JS.nl +:+
  text +:+ JS.nl +:+ JS.fence +:+ JS.nl.

(** The history /chat starts from: the priming message for a new
    session, else the history the request found. *)
Definition chat_base (w : Externals) (store : Store) (sessionId : option string)
    : list Message :=
  if unknown w store sessionId
  then [msg system (chat_instructions w)]
  else history_before store sessionId.

(** The messages /chat sends for a question. *)
Definition chat_sent (w : Externals) (base : list Message) (q : string) : list Message :=
  (base ++ tool_messages w q ++ [msg user q])%list.

(** The history /chat leaves, by the reply to what it sent. *)
Definition chat_left (w : Externals) (base : list Message) (q : string) (r : Reply)
    : list Message :=
  match r with
  | replied text => (chat_sent w base q ++ [msg assistant text])%list
  | failed _ => base
  end.

End MoreNotions.

(** * Properties *)

(** ** Text *)

Module TextFacts.
Import JS.

Lemma append_nil_l (s : string) : "" +:+ s = s.
Proof. reflexivity. Qed.

Lemma append_cons (c : ascii) (s t : string) : String c s +:+ t = String c (s +:+ t).
Proof. reflexivity. Qed.

Ltac push_append := rewrite ?append_cons, ?append_nil_l.

Lemma append_nil_r (s : string) : s +:+ "" = s.
Proof. induction s as [|c s IH]; push_append; [reflexivity | now f_equal]. Qed.

Lemma append_assoc (a b c : string) : (a +:+ b) +:+ c = a +:+ (b +:+ c).
Proof. induction a as [|x a IH]; push_append; [reflexivity | now f_equal]. Qed.

Lemma length_append (a b : string) :
  String.length (a +:+ b) = String.length a + String.length b.
Proof. induction a as [|x a IH]; push_append; simpl; [reflexivity | now f_equal]. Qed.

Lemma startsWith_append (p rest : string) : startsWith (p +:+ rest) p = true.
Proof.
  induction p as [|c p IH]; push_append; simpl; [reflexivity |].
  now rewrite Ascii.eqb_refl.
Qed.

Lemma substring_append (p rest : string) :
  substring (String.length p) (p +:+ rest) = rest.
Proof. induction p as [|c p IH]; push_append; simpl; [reflexivity | exact IH]. Qed.

Lemma startsWith_split (p s : string) :
  startsWith s p = true -> s = p +:+ substring (String.length p) s.
Proof.
  revert s. induction p as [|c p IH]; intros s H; push_append; simpl in *; [reflexivity |].
  destruct s as [|d s]; [discriminate |].
  destruct (Ascii.eqb_spec c d) as [->|]; [| discriminate].
  now rewrite <- (IH s H).
Qed.

(** [startsWith] decides "starts at position 0". *)
Lemma startsWith_begins (p s : string) :
  startsWith s p = true <-> exists rest, s = p +:+ rest.
Proof.
  split.
  - intros H. eexists. now apply startsWith_split.
  - intros [rest ->]. apply startsWith_append.
Qed.

End TextFacts.

(** ** Lower case *)

Module CaseFacts.
Import JS Notions TextFacts.

Lemma byte_char (n : N) : (n < 256)%N -> byte (char n) = n.
Proof. intros H. unfold byte, char. now apply N_ascii_embedding. Qed.

Lemma char_byte (a : ascii) : char (byte a) = a.
Proof. unfold byte, char. apply ascii_N_embedding. Qed.

Lemma byte_bound (a : ascii) : (byte a < 256)%N.
Proof. unfold byte. apply N_ascii_bounded. Qed.

(** An ASCII character is a code point of one byte. *)
Lemma points_ascii (a : ascii) (s : string) :
  (byte a < 128)%N -> points (String a s) = byte a :: points s.
Proof.
  intros H. unfold points. cbn [points_from decode_head].
  apply N.ltb_lt in H. now rewrite H.
Qed.

Ltac push_append_in H := rewrite ?append_cons, ?append_nil_l in H.

Lemma utf8_app (l k : list N) : utf8 (l ++ k) = utf8 l +:+ utf8 k.
Proof.
  induction l as [|cp l IH]; simpl; [reflexivity |].
  now rewrite IH, append_assoc.
Qed.

(** The lower case of a letter of a marker, written in either case. *)
Lemma lower_letter (c m : ascii) (before l : list N) :
  marker_char m = true -> c = m \/ c = capital m ->
  (byte c < 128)%N /\
  Unicode.lower_points before (byte c :: l) =
    byte m :: Unicode.lower_points (byte c :: before) l.
Proof.
  intros Hm Hc.
  destruct m as [[] [] [] [] [] [] [] []]; try discriminate Hm;
    destruct Hc as [-> | ->]; split; reflexivity.
Qed.

Lemma encode_ascii (m : ascii) : (byte m < 128)%N -> encode (byte m) = String m "".
Proof.
  intros H. unfold encode. apply N.ltb_lt in H. now rewrite H, char_byte.
Qed.

Lemma marker_char_ascii (m : ascii) : marker_char m = true -> (byte m < 128)%N.
Proof.
  unfold marker_char. intros H.
  apply andb_prop in H. destruct H as [H _]. apply andb_prop in H. destruct H as [H _].
  now apply N.ltb_lt.
Qed.

(** A text that begins with a marker in any mix of cases has a lower
    case that begins with the marker, and the marker's length cuts the
    head off. *)
Lemma lower_nocase (marker head rest : string) :
  plain marker = true -> nocase head marker ->
  String.length head = String.length marker /\
  forall before,
    exists before',
      utf8 (Unicode.lower_points before (points (head +:+ rest))) =
      marker +:+ utf8 (Unicode.lower_points before' (points rest)).
Proof.
  revert head. induction marker as [|m k IH]; intros head Hp Hn.
  - destruct head; [| destruct Hn]. split; [reflexivity |].
    intros before. eexists. reflexivity.
  - destruct head as [|c h]; [destruct Hn |]. destruct Hn as [Hc Hn].
    simpl in Hp. apply andb_prop in Hp. destruct Hp as [Hm Hp].
    destruct (IH h Hp Hn) as [Hlen Htail].
    split; [simpl; now rewrite Hlen |].
    intros before.
    destruct (lower_letter c m before (points (h +:+ rest)) Hm Hc) as [Hascii Hlow].
    destruct (Htail (byte c :: before)) as [before' Ht].
    exists before'. push_append. rewrite (points_ascii c _ Hascii), Hlow.
    cbn [utf8]. rewrite (encode_ascii m (marker_char_ascii m Hm)), Ht.
    reflexivity.
Qed.

Lemma toLowerCase_nocase (marker head rest : string) :
  plain marker = true -> nocase head marker ->
  (exists tail, toLowerCase (head +:+ rest) = marker +:+ tail) /\
  startsWith (toLowerCase (head +:+ rest)) marker = true /\
  substring (String.length marker) (head +:+ rest) = rest.
Proof.
  intros Hp Hn. destruct (lower_nocase marker head rest Hp Hn) as [Hlen Htail].
  destruct (Htail []) as [before' Ht]. unfold toLowerCase.
  split; [eexists; exact Ht |]. split.
  - rewrite Ht. apply startsWith_append.
  - rewrite <- Hlen. apply substring_append.
Qed.

(** *** Only ASCII letters have an ASCII lower case *)

Lemma decode_head_high (a : ascii) (s : string) :
  (128 <= byte a)%N -> high (fst (decode_head (String a s))).
Proof.
  intros Ha. pose proof (byte_bound a) as Hb. unfold decode_head, stray, high.
  destruct (byte a <? 128)%N eqn:E1; [apply N.ltb_lt in E1; lia |].
  destruct ((194 <=? byte a)%N && (byte a <? 224)%N) eqn:E2.
  { apply andb_prop in E2. destruct E2 as [L U].
    apply N.leb_le in L. apply N.ltb_lt in U.
    destruct s as [|b s]; [simpl; lia |].
    destruct (continuation b) eqn:Eb; [| simpl; lia].
    unfold continuation in Eb. apply andb_prop in Eb. destruct Eb as [Lb Ub].
    apply N.leb_le in Lb. apply N.ltb_lt in Ub. simpl. left. nia. }
  destruct ((224 <=? byte a)%N && (byte a <? 240)%N) eqn:E3.
  { apply andb_prop in E3. destruct E3 as [L U].
    apply N.leb_le in L. apply N.ltb_lt in U.
    destruct s as [|b [|c s]]; try (simpl; lia).
    match goal with |- context [if ?t then _ else _] => destruct t eqn:Et end;
      [| simpl; lia].
    apply andb_prop in Et. destruct Et as [Et Lc].
    apply andb_prop in Et. destruct Et as [Eb Ec].
    unfold continuation in Eb, Ec.
    apply andb_prop in Eb. destruct Eb as [Lb Ub].
    apply andb_prop in Ec. destruct Ec as [Lc' Uc].
    apply N.leb_le in Lb, Lc, Lc'. apply N.ltb_lt in Ub, Uc. simpl. left. nia. }
  destruct ((240 <=? byte a)%N && (byte a <? 245)%N) eqn:E4; [| simpl; lia].
  destruct s as [|b [|c [|d s]]]; try (simpl; lia).
  match goal with |- context [if ?t then _ else _] => destruct t eqn:Et end;
    [| simpl; lia].
  apply andb_prop in Et. destruct Et as [Et U].
  apply andb_prop in Et. destruct Et as [_ L].
  apply N.leb_le in L. apply N.ltb_lt in U. simpl. left. lia.
Qed.

Lemma points_high (a : ascii) (s : string) :
  (128 <= byte a)%N -> exists cp l, points (String a s) = cp :: l /\ high cp.
Proof.
  intros Ha. pose proof (decode_head_high a s Ha) as H.
  unfold points. cbn [points_from].
  destruct (decode_head (String a s)) as [cp more]. eauto.
Qed.

(** The bytes of such a number begin with a byte outside ASCII. *)
Lemma encode_high (cp : N) :
  high cp -> exists b t, encode cp = String b t /\ (128 <= byte b)%N.
Proof.
  intros [[L U] | [L U]]; unfold encode.
  - destruct (cp <? 128)%N eqn:E1; [apply N.ltb_lt in E1; lia |].
    destruct (cp <? 2048)%N eqn:E2.
    { apply N.ltb_lt in E2. eexists _, _. split; [reflexivity |].
      assert (cp / 64 < 32)%N by (apply N.Div0.div_lt_upper_bound; lia).
      generalize dependent (cp / 64)%N. intros x Hx. rewrite byte_char; lia. }
    destruct (cp <? 65536)%N eqn:E3.
    { apply N.ltb_lt in E3. eexists _, _. split; [reflexivity |].
      assert (cp / 4096 < 16)%N by (apply N.Div0.div_lt_upper_bound; lia).
      generalize dependent (cp / 4096)%N. intros x Hx. rewrite byte_char; lia. }
    pose proof U as U'. apply N.ltb_lt in U'. rewrite U'.
    eexists _, _. split; [reflexivity |].
    assert (cp / 262144 < 5)%N by (apply N.Div0.div_lt_upper_bound; lia).
    generalize dependent (cp / 262144)%N. intros x Hx. rewrite byte_char; lia.
  - destruct (cp <? 128)%N eqn:E1; [apply N.ltb_lt in E1; lia |].
    destruct (cp <? 2048)%N eqn:E2; [apply N.ltb_lt in E2; lia |].
    destruct (cp <? 65536)%N eqn:E3; [apply N.ltb_lt in E3; lia |].
    destruct (cp <? 1114112)%N eqn:E4; [apply N.ltb_lt in E4; lia |].
    eexists _, _. split; [reflexivity |]. rewrite byte_char; lia.
Qed.

Lemma simple_lower_high (cp : N) :
  high cp -> Unicode.simple_lower cp = 107%N \/ high (Unicode.simple_lower cp).
Proof.
  intros Hcp. unfold Unicode.simple_lower.
  destruct (find (Unicode.in_row cp) Unicode.to_lower) as [[[[first last] step] lower]|] eqn:E;
    [| now right].
  apply find_some in E. destruct E as [Hin Hrow].
  assert (Hall : forallb row_high Unicode.to_lower = true) by (vm_compute; reflexivity).
  rewrite forallb_forall in Hall. specialize (Hall _ Hin).
  unfold Unicode.in_row in Hrow. unfold row_high in Hall.
  apply andb_prop in Hrow. destruct Hrow as [Hrow _].
  apply andb_prop in Hrow. destruct Hrow as [L U].
  apply N.leb_le in L, U.
  apply orb_prop in Hall. destruct Hall as [Hall | Hall].
  - apply orb_prop in Hall. destruct Hall as [Hall | Hall].
    + apply andb_prop in Hall. destruct Hall as [H1 _]. apply N.ltb_lt in H1.
      destruct Hcp; lia.
    + apply andb_prop in Hall. destruct Hall as [Hall H3].
      apply andb_prop in Hall. destruct Hall as [H1 H2].
      apply N.leb_le in H1, H2. apply N.ltb_lt in H3. right. left. lia.
  - apply andb_prop in Hall. destruct Hall as [Hall H3].
    apply andb_prop in Hall. destruct Hall as [H1 H2].
    apply N.eqb_eq in H1, H2, H3. left. lia.
Qed.

Lemma ascii_step (a : ascii) (before l : list N) :
  (byte a < 128)%N ->
  exists m,
    utf8 (Unicode.lower_points before (byte a :: l)) =
      String m (utf8 (Unicode.lower_points (byte a :: before) l)) /\
    (a = m \/ a = capital m).
Proof.
  intros H.
  destruct a as [[] [] [] [] [] [] [] []]; try discriminate H;
    (eexists; split; [reflexivity |]);
    first [left; reflexivity | right; reflexivity].
Qed.

Lemma startsWith_cons (c d : ascii) (s p : string) :
  startsWith (String c s) (String d p) = true -> d = c /\ startsWith s p = true.
Proof.
  simpl. destruct (Ascii.eqb_spec d c) as [-> |]; [auto | discriminate].
Qed.

Lemma plain_cons (m : ascii) (k : string) :
  plain (String m k) = true -> marker_char m = true /\ plain k = true.
Proof. simpl. intros H. now apply andb_prop in H. Qed.

(** A code point outside ASCII gives no beginning of a marker. *)
Lemma high_no_marker (cp : N) (before l : list N) (marker : string) :
  high cp -> marker <> "" -> plain marker = true -> ends_in_i marker = false ->
  startsWith (utf8 (Unicode.lower_points before (cp :: l))) marker = false.
Proof.
  intros Hcp Hne Hp Hi.
  destruct marker as [|m k]; [congruence |].
  destruct (plain_cons m k Hp) as [Hm Hk].
  pose proof (marker_char_ascii m Hm) as Hascii.
  destruct (startsWith _ _) eqn:E; [exfalso | reflexivity].
  cbn [Unicode.lower_points] in E. rewrite utf8_app in E.
  destruct (cp =? 931)%N.
  { destruct (Unicode.final_sigma before l);
      apply startsWith_cons in E; destruct E as [-> _]; discriminate Hm. }
  destruct (cp =? 304)%N.
  { apply startsWith_cons in E. destruct E as [-> E].
    destruct k as [|m2 k]; [discriminate Hi |].
    apply startsWith_cons in E. destruct E as [-> _].
    destruct (plain_cons _ _ Hk) as [Hm2 _]. discriminate Hm2. }
  destruct (simple_lower_high cp Hcp) as [H | H].
  - rewrite H in E. apply startsWith_cons in E. destruct E as [-> _]. discriminate Hm.
  - destruct (encode_high _ H) as [b [t [Hb Hbyte]]].
    cbn [utf8] in E. rewrite Hb in E. push_append_in E.
    apply startsWith_cons in E. destruct E as [-> _]. lia.
Qed.

Lemma ends_in_i_tail (m : ascii) (k : string) :
  ends_in_i (String m k) = false -> ends_in_i k = false.
Proof. destruct k; [reflexivity | auto]. Qed.

(** A text whose lower case begins with a marker begins with the
    marker itself, in some mix of cases. *)
Lemma lowered_prefix (marker : string) :
  plain marker = true -> ends_in_i marker = false ->
  forall q before,
    startsWith (utf8 (Unicode.lower_points before (points q))) marker = true ->
    exists head rest, q = head +:+ rest /\ nocase head marker.
Proof.
  induction marker as [|m k IH]; intros Hp Hi q before E.
  - exists "", q. split; [reflexivity | exact I].
  - destruct (plain_cons m k Hp) as [Hm Hk].
    destruct q as [|a s]; [discriminate E |].
    destruct (N.lt_ge_cases (byte a) 128) as [Ha | Ha].
    + rewrite (points_ascii a s Ha) in E.
      destruct (ascii_step a before (points s) Ha) as [m' [Hstep Hcase]].
      rewrite Hstep in E. apply startsWith_cons in E. destruct E as [-> E].
      destruct (IH Hk (ends_in_i_tail _ _ Hi) s _ E) as [head [rest [-> Hn]]].
      exists (String a head), rest. split; [reflexivity |]. now split.
    + destruct (points_high a s Ha) as [cp [l [Hpts Hcp]]]. rewrite Hpts in E.
      rewrite (high_no_marker cp before l (String m k) Hcp) in E;
        [discriminate | discriminate | assumption | assumption].
Qed.

(** The three commands of /chat, and the phrases [dispatchTool] looks
    for, are such markers. *)
Lemma toLowerCase_prefix (marker q : string) :
  plain marker = true -> ends_in_i marker = false ->
  startsWith (toLowerCase q) marker = true <->
  exists head rest, q = head +:+ rest /\ nocase head marker.
Proof.
  intros Hp Hi. split.
  - apply (lowered_prefix marker Hp Hi q []).
  - intros [head [rest [-> Hn]]]. now apply toLowerCase_nocase.
Qed.

Lemma encode_nonempty (cp : N) : encode cp <> "".
Proof.
  unfold encode.
  repeat match goal with |- context [if ?t then _ else _] => destruct t end; discriminate.
Qed.

Lemma lower_nonempty (before : list N) (r : string) :
  utf8 (Unicode.lower_points before (points r)) = "" -> r = "".
Proof.
  destruct r as [|a s]; [reflexivity |]. intros H. exfalso.
  unfold points in H. cbn [points_from] in H.
  destruct (decode_head (String a s)) as [cp more].
  cbn [Unicode.lower_points] in H. rewrite utf8_app in H.
  destruct (cp =? 931)%N; [destruct (Unicode.final_sigma _ _); discriminate H |].
  destruct (cp =? 304)%N; [discriminate H |].
  cbn [utf8] in H. pose proof (encode_nonempty (Unicode.simple_lower cp)) as Hne.
  destruct (encode (Unicode.simple_lower cp)); [congruence | discriminate H].
Qed.

Lemma append_same (a b : string) : a +:+ b = a -> b = "".
Proof.
  induction a as [|c a IH]; push_append; [auto |]. intros [= H]. auto.
Qed.

(** For a marker, "the lower case is the marker" and "the marker in
    some mix of cases" are one. *)
Lemma nocase_toLowerCase (marker head : string) :
  plain marker = true -> ends_in_i marker = false ->
  nocase head marker <-> toLowerCase head = marker.
Proof.
  intros Hp Hi. split.
  - intros Hn. destruct (lower_nocase marker head "" Hp Hn) as [_ H].
    destruct (H []) as [before' E]. rewrite append_nil_r in E.
    unfold toLowerCase. now rewrite E, append_nil_r.
  - intros E.
    assert (Hs : startsWith (toLowerCase head) marker = true).
    { rewrite E, <- (append_nil_r marker) at 1. apply startsWith_append. }
    apply (toLowerCase_prefix marker head Hp Hi) in Hs.
    destruct Hs as [h [r [-> Hn]]].
    destruct (lower_nocase marker h r Hp Hn) as [_ H].
    destruct (H []) as [before' E']. unfold toLowerCase in E. rewrite E' in E.
    apply append_same, lower_nonempty in E. subst r. now rewrite append_nil_r.
Qed.

End CaseFacts.

(** ** White space *)

Module TrimFacts.
Import JS Server Notions TextFacts.

Lemma white_space_nonempty (ws : string) : In ws white_space -> ws <> "".
Proof.
  intros H. vm_compute in H.
  repeat (destruct H as [<- | H]; [discriminate |]). destruct H.
Qed.

Lemma after_white_some (s r : string) :
  after_white s = Some r -> exists ws, In ws white_space /\ s = ws +:+ r.
Proof.
  unfold after_white.
  destruct (find (startsWith s) white_space) as [ws|] eqn:E; [| discriminate].
  intros [= <-]. apply find_some in E. destruct E as [Hin Hs].
  exists ws. split; [exact Hin | now apply startsWith_split].
Qed.

Lemma after_white_none (s ws : string) :
  after_white s = None -> In ws white_space -> ~ begins ws s.
Proof.
  unfold after_white.
  destruct (find (startsWith s) white_space) as [x|] eqn:E; [discriminate |].
  intros _ Hin [rest ->].
  pose proof (find_none _ _ E ws Hin) as H. simpl in H.
  now rewrite startsWith_append in H.
Qed.

(** No white-space character begins another. *)
Lemma after_white_found (ws r : string) :
  In ws white_space -> after_white (ws +:+ r) = Some r.
Proof.
  intros H. vm_compute in H.
  repeat (destruct H as [<- | H]; [reflexivity |]). destruct H.
Qed.

Lemma strip_spec (n : nat) (s : string) :
  exists pre, s = pre +:+ strip n s /\ spaces pre.
Proof.
  revert s. induction n as [|n IH]; intros s; simpl.
  - exists "". split; [reflexivity | constructor].
  - destruct (after_white s) as [r|] eqn:E.
    + destruct (after_white_some _ _ E) as [ws [Hin ->]].
      destruct (IH r) as [pre [Hr Hpre]].
      exists (ws +:+ pre). split.
      * rewrite append_assoc. now rewrite <- Hr.
      * now constructor.
    + exists "". split; [reflexivity | constructor].
Qed.

Lemma length_after_white (s r : string) :
  after_white s = Some r -> String.length r < String.length s.
Proof.
  intros E. destruct (after_white_some _ _ E) as [ws [Hin ->]].
  pose proof (white_space_nonempty ws Hin) as Hne.
  rewrite length_append. destruct ws; [congruence | simpl; lia].
Qed.

Lemma strip_done (n : nat) (s : string) :
  String.length s <= n -> after_white (strip n s) = None.
Proof.
  revert s. induction n as [|n IH]; intros s H; simpl.
  - destruct s; [reflexivity | simpl in H; lia].
  - destruct (after_white s) as [r|] eqn:E; [| exact E].
    apply IH. pose proof (length_after_white _ _ E). lia.
Qed.

Lemma strip_fuel (n m : nat) (s : string) :
  String.length s <= n -> String.length s <= m -> strip n s = strip m s.
Proof.
  revert m s. induction n as [|n IH]; intros m s Hn Hm.
  - destruct s; [| simpl in Hn; lia]. now destruct m.
  - destruct m as [|m].
    + destruct s; [reflexivity | simpl in Hm; lia].
    + simpl. destruct (after_white s) as [r|] eqn:E; [| reflexivity].
      pose proof (length_after_white _ _ E). apply IH; lia.
Qed.

Lemma trimStart_white (ws r : string) :
  In ws white_space -> trimStart (ws +:+ r) = trimStart r.
Proof.
  intros Hin. unfold trimStart.
  pose proof (white_space_nonempty ws Hin) as Hne.
  destruct (String.length (ws +:+ r)) as [|n] eqn:El.
  - rewrite length_append in El. destruct ws; [congruence | discriminate].
  - simpl. rewrite (after_white_found ws r Hin).
    apply strip_fuel; [| lia].
    rewrite length_append in El. destruct ws; [congruence | simpl in El; lia].
Qed.

Lemma all_white_white (ws r : string) :
  In ws white_space -> all_white (ws +:+ r) = all_white r.
Proof. intros H. unfold all_white. now rewrite trimStart_white. Qed.

Lemma all_white_spaces (s : string) : all_white s = true <-> spaces s.
Proof.
  split.
  - unfold all_white, trimStart. intros H.
    destruct (strip_spec (String.length s) s) as [pre [Hs Hpre]].
    destruct (strip _ s); [| discriminate].
    rewrite append_nil_r in Hs. now subst.
  - induction 1 as [| ws rest Hin _ IH]; [reflexivity |].
    now rewrite all_white_white.
Qed.

(** What [trimEnd] leaves ends before the longest run of white space
    the text ends with. *)
Lemma trimEnd_spec (u : string) :
  exists post,
    u = trimEnd u +:+ post /\ all_white post = true /\
    forall a b, trimEnd u = a +:+ b -> b <> "" -> all_white (b +:+ post) = false.
Proof.
  induction u as [|c u [post [Hu [Hpost Hlast]]]].
  - exists "". repeat split. intros a b H Hb.
    destruct a; [rewrite append_nil_l in H; simpl in H; congruence | discriminate].
  - cbn [trimEnd]. destruct (all_white (String c u)) eqn:E.
    + exists (String c u). repeat split; [exact E |].
      intros a b H Hb. destruct a; [rewrite append_nil_l in H; simpl in H; congruence | discriminate].
    + exists post. split; [push_append; now rewrite <- Hu | split; [exact Hpost |]].
      intros a b H Hb. destruct a as [|d a].
      * rewrite append_nil_l in H. subst b. push_append. now rewrite <- Hu.
      * rewrite append_cons in H. injection H as _ H. now apply (Hlast a b).
Qed.

(** [trim] trims. *)
Lemma trim_trimmed (s : string) : trimmed s (trim s).
Proof.
  unfold trim, trimStart.
  destruct (strip_spec (String.length s) s) as [pre [Hs Hpre]].
  pose proof (strip_done (String.length s) s (le_n _)) as Hdone.
  set (u := strip (String.length s) s) in *.
  destruct (trimEnd_spec u) as [post [Hu [Hpost Hlast]]].
  split.
  - exists pre, post. split; [now rewrite <- Hu | split; [exact Hpre |]].
    now apply all_white_spaces.
  - intros ws Hin. split.
    + intros [r Hr]. apply (after_white_none u ws Hdone Hin).
      exists (r +:+ post). rewrite Hu, Hr. now rewrite append_assoc.
    + intros [front Hf].
      pose proof (Hlast front ws Hf (white_space_nonempty ws Hin)) as H.
      rewrite (all_white_white ws post Hin) in H. congruence.
Qed.

Lemma spaces_app (a b : string) : spaces a -> spaces b -> spaces (a +:+ b).
Proof.
  induction 1 as [| ws rest Hin Hrest IH]; intros Hb.
  - exact Hb.
  - rewrite append_assoc. constructor; auto.
Qed.

Lemma trim_spaces (s : string) : trim s = "" <-> spaces s.
Proof.
  split.
  - intros H. destruct (trim_trimmed s) as [(pre & post & Hs & Hpre & Hpost) _].
    rewrite H in Hs. subst s. now apply spaces_app.
  - intros H. apply all_white_spaces in H. unfold trim.
    unfold all_white in H. now destruct (trimStart s).
Qed.

(** [!s || s.trim().length === 0] holds of the texts of white space
    only. *)
Lemma blank_spaces (s : string) : blank (Some s) = true <-> spaces s.
Proof.
  unfold blank. rewrite <- trim_spaces. split.
  - destruct s as [|c s]; [reflexivity |]. simpl.
    intros H. apply Nat.eqb_eq in H. now destruct (trim (String c s)).
  - intros ->. apply orb_true_r.
Qed.

End TrimFacts.

(** ** The commands /chat answers without the model *)

Module DirectCommandFacts.
Import JS Server Notions TextFacts CaseFacts TrimFacts.

Lemma after_nocase (marker q head rest : string) :
  plain marker = true -> q = head +:+ rest -> nocase head marker ->
  (exists tail, toLowerCase q = marker +:+ tail) /\
  startsWith (toLowerCase q) marker = true /\ after marker q = trim rest.
Proof.
  intros Hp -> Hn.
  destruct (toLowerCase_nocase marker head rest Hp Hn) as [H1 [H2 H3]].
  split; [exact H1 | split; [exact H2 |]]. unfold after. now rewrite H3.
Qed.

Lemma direct_csv (q head rest : string) :
  q = head +:+ rest -> nocase head "generate csv:" ->
  direct_command q = Some (csv, trim rest).
Proof.
  intros Hq Hn.
  destruct (after_nocase "generate csv:" q head rest eq_refl Hq Hn) as [_ [Hs Ha]].
  unfold direct_command. now rewrite Hs, Ha.
Qed.

Lemma direct_image (q head rest : string) :
  q = head +:+ rest -> nocase head "generate image:" ->
  direct_command q = Some (image, trim rest).
Proof.
  intros Hq Hn.
  destruct (after_nocase "generate image:" q head rest eq_refl Hq Hn)
    as [[tail Ht] [Hs Ha]].
  unfold direct_command. rewrite Hs, Ha. now rewrite Ht.
Qed.

Lemma direct_show (q head rest : string) :
  q = head +:+ rest -> nocase head "show me an image of:" ->
  direct_command q = Some (image, trim rest).
Proof.
  intros Hq Hn.
  destruct (after_nocase "show me an image of:" q head rest eq_refl Hq Hn)
    as [[tail Ht] [Hs Ha]].
  unfold direct_command. rewrite Hs, Ha. now rewrite Ht.
Qed.

(** The same for a head given by its lower case. *)
Lemma direct_lowered (q rest : string) :
  (begins_nocase "generate csv:" q rest -> direct_command q = Some (csv, trim rest)) /\
  (begins_nocase "generate image:" q rest -> direct_command q = Some (image, trim rest)) /\
  (begins_nocase "show me an image of:" q rest ->
   direct_command q = Some (image, trim rest)).
Proof.
  repeat split; intros [head [Hq Hlow]];
    apply nocase_toLowerCase in Hlow; try reflexivity;
    [now apply (direct_csv q head rest)
    | now apply (direct_image q head rest)
    | now apply (direct_show q head rest)].
Qed.

(** The commands are taken for these questions only. *)
Lemma direct_command_begins (q : string) (kind : FileType) (instruction : string) :
  direct_command q = Some (kind, instruction) ->
  exists head rest,
    q = head +:+ rest /\ instruction = trim rest /\
    (kind = csv /\ nocase head "generate csv:" \/
     kind = image /\ (nocase head "generate image:" \/
                      nocase head "show me an image of:")).
Proof.
  unfold direct_command.
  destruct (startsWith (toLowerCase q) "generate csv:") eqn:E1.
  { apply toLowerCase_prefix in E1; try reflexivity.
    destruct E1 as [head [rest [Hq Hn]]]. intros H.
    rewrite (proj2 (proj2 (after_nocase "generate csv:" q head rest eq_refl Hq Hn))) in H.
    injection H as <- <-. exists head, rest. auto 8. }
  destruct (startsWith (toLowerCase q) "generate image:") eqn:E2.
  { apply toLowerCase_prefix in E2; try reflexivity.
    destruct E2 as [head [rest [Hq Hn]]]. simpl. intros H.
    rewrite (proj2 (proj2 (after_nocase "generate image:" q head rest eq_refl Hq Hn)))
      in H.
    injection H as <- <-. exists head, rest. auto 8. }
  destruct (startsWith (toLowerCase q) "show me an image of:") eqn:E3; [| discriminate].
  apply toLowerCase_prefix in E3; try reflexivity.
  destruct E3 as [head [rest [Hq Hn]]]. simpl. intros H.
  rewrite (proj2 (proj2 (after_nocase "show me an image of:" q head rest eq_refl Hq Hn)))
    in H.
  injection H as <- <-. exists head, rest. auto 8.
Qed.

(** A command is answered on the spot: the handler is a leaf, the
    store is the one it was given. *)
Lemma chat_direct (w : Externals) (store : Store) (req : Request)
    (q : string) (kind : FileType) (instruction : string) :
  req_question req = Some q ->
  direct_command q = Some (kind, instruction) ->
  chat w store req =
    Return (store, responded 200
      [("message", str ("✅ Command received to generate " +:+ file_type_name kind +:+ "."));
       ("action", str "generate_file");
       ("fileType", str (file_type_name kind));
       ("generationPrompt", str instruction);
       ("sessionId", of_option (req_sessionId req))]).
Proof. intros Hq Hd. unfold chat. now rewrite Hq, Hd. Qed.

End DirectCommandFacts.

Module DirectCommandTheorems.
Import JS Server Notions TextFacts CaseFacts TrimFacts DirectCommandFacts.



(** C10. The short circuit of /chat leaves the session store as it
    was: no session is created for a new or unknown id, nothing is
    appended to the history of a known one; and the sessionId of the
    response is the one of the request, absent when the request has
    none. *)
Theorem direct_command_frame (w : Externals) (store : Store) (req : Request)
    (q rest : string) (ollama : Call -> Reply) :
  req_question req = Some q ->
  begins_nocase "generate csv:" q rest \/
  begins_nocase "generate image:" q rest \/
  begins_nocase "show me an image of:" q rest ->
  let answer := result ollama (chat w store req) in
  fst answer = store /\
  field "sessionId" (body_of (snd answer)) = of_option (req_sessionId req) /\
  (req_sessionId req = None -> field "sessionId" (body_of (snd answer)) = undefined).
Proof.
  intros Hq Hk.
  assert (Hd : exists kind, direct_command q = Some (kind, trim rest)).
  { destruct (direct_lowered q rest) as [H1 [H2 H3]].
    destruct Hk as [H | [H | H]];
      [exists csv; now apply H1 | exists image; now apply H2 | exists image; now apply H3]. }
  destruct Hd as [kind Hd].
  rewrite (chat_direct w store req q kind (trim rest) Hq Hd).
  cbv zeta. unfold result. simpl. repeat split.
  now intros ->.
Qed.

(** A command sent with the id of a session in use, and one sent
    without an id. *)
Lemma direct_command_frame_witness :
  let req := Sample.ask "Show me an image of: a red fox" (Some "s1") in
  let answer := result Sample.down (chat Sample.world Sample.one_session req) in
  fst answer = Sample.one_session /\
  field "sessionId" (body_of (snd answer)) = str "s1".
Proof.
  pose proof (direct_command_frame Sample.world Sample.one_session
                (Sample.ask "Show me an image of: a red fox" (Some "s1"))
                "Show me an image of: a red fox" " a red fox" Sample.down eq_refl) as H.
  cbv zeta in *.
  destruct H as [H1 [H2 _]].
  - right. right. exists "Show me an image of:". split; reflexivity.
  - split; [exact H1 | exact H2].
Defined.

End DirectCommandTheorems.

(** ** The session store *)

Module StoreFacts.
Import JS Server Notions.

Lemma truthy_nonempty (s : string) : s <> "" -> truthy s = true.
Proof. destruct s; [congruence | reflexivity]. Qed.

Lemma truthy_true (s : string) : truthy s = true -> s <> "".
Proof. intros H ->. discriminate. Qed.

Lemma held_true (store : Store) (id : string) (s : Session) :
  store !! id = Some s -> held store id = true.
Proof. intros H. unfold held. apply bool_decide_eq_true_2. eauto. Qed.

Lemma held_false (store : Store) (id : string) :
  store !! id = None -> held store id = false.
Proof.
  intros H. unfold held. apply bool_decide_eq_false_2. rewrite H. now intros [x Hx].
Qed.

Lemma held_is_Some (store : Store) (id : string) :
  held store id = true -> is_Some (store !! id).
Proof. unfold held. apply bool_decide_eq_true_1. Qed.

Lemma unknown_absent (w : Externals) (store : Store) : unknown w store None = true.
Proof. reflexivity. Qed.

Lemma unknown_missing (w : Externals) (store : Store) (id : string) :
  store !! id = None -> inherited w id = None -> unknown w store (Some id) = true.
Proof.
  intros H Hi. unfold unknown, found. rewrite (held_false _ _ H), Hi.
  rewrite bool_decide_eq_false_2; [apply orb_true_r | now intros [x Hx]].
Qed.

Lemma unknown_known (w : Externals) (store : Store) (id : string) (s : Session) :
  id <> "" -> store !! id = Some s -> unknown w store (Some id) = false.
Proof.
  intros Hid H. unfold unknown, found.
  now rewrite (truthy_nonempty id Hid), (held_true _ _ _ H).
Qed.

Lemma unknown_inherited (w : Externals) (store : Store) (id : string) (h : Heir) :
  id <> "" -> inherited w id = Some h -> unknown w store (Some id) = false.
Proof.
  intros Hid H. unfold unknown, found. rewrite (truthy_nonempty id Hid), H.
  rewrite (bool_decide_eq_true_2 (is_Some (Some h))); [| eauto].
  now rewrite orb_true_r.
Qed.

(** The three things a session id can name: nothing, a session of the
    store, or a member the store object inherits. *)
Lemma lookup_cases (w : Externals) (store : Store) (sessionId : option string) :
  (unknown w store sessionId = true /\ session_at store sessionId = None /\
   heir_at w store sessionId = None) \/
  (exists id s, sessionId = Some id /\ id <> "" /\ store !! id = Some s /\
     unknown w store sessionId = false /\ session_at store sessionId = Some s /\
     heir_at w store sessionId = None) \/
  (exists id h, sessionId = Some id /\ id <> "" /\ store !! id = None /\
     inherited w id = Some h /\
     unknown w store sessionId = false /\ session_at store sessionId = None /\
     heir_at w store sessionId = Some h).
Proof.
  destruct sessionId as [id|]; [| left; repeat split].
  destruct id as [|c id]; [left; repeat split |].
  destruct (store !! String c id) as [s|] eqn:Es.
  - right. left. exists (String c id), s.
    split; [reflexivity |]. split; [discriminate |]. split; [exact Es |].
    split; [now apply (unknown_known w store _ s) |].
    split; simpl; now rewrite Es.
  - destruct (inherited w (String c id)) as [h|] eqn:Eh.
    + right. right. exists (String c id), h.
      split; [reflexivity |]. split; [discriminate |]. split; [exact Es |].
      split; [exact Eh |].
      split; [now apply (unknown_inherited w store _ h) |].
      split; simpl; now rewrite Es.
    + left. split; [now apply unknown_missing |].
      split; simpl; now rewrite Es.
Qed.

Lemma unknown_spec (w : Externals) (store : Store) (sessionId : option string) :
  absent_or_missing store sessionId -> plain_id w store sessionId ->
  unknown w store sessionId = true.
Proof.
  intros Ha Hp.
  destruct (lookup_cases w store sessionId)
    as [[H _] | [(id & s & -> & _ & Hs & _) | (id & h & _ & _ & _ & _ & _ & _ & Hh)]].
  - exact H.
  - destruct Ha as [Ha | [j [[= <-] Hj]]]; congruence.
  - unfold plain_id in Hp. congruence.
Qed.

Lemma session_at_known (store : Store) (id : string) (s : Session) :
  id <> "" -> store !! id = Some s -> session_at store (Some id) = Some s.
Proof. intros Hid H. unfold session_at. now rewrite (truthy_nonempty id Hid). Qed.

Lemma session_at_unknown (store : Store) (sessionId : option string) :
  absent_or_missing store sessionId -> session_at store sessionId = None.
Proof.
  intros [-> | [id [-> H]]]; [reflexivity |].
  unfold session_at. now destruct (truthy id).
Qed.

(** What the resolution leaves for a plain id: a session under the id
    the handler goes on with. *)
Lemma resolve_held (w : Externals) (store : Store) (sessionId : option string) :
  plain_id w store sessionId ->
  held (snd (resolve w store sessionId)) (fst (resolve w store sessionId)) = true /\
  held (snd (resolve_analyze w store sessionId))
       (fst (resolve_analyze w store sessionId)) = true.
Proof.
  intros Hp. unfold resolve, resolve_analyze, plain_id in *.
  destruct (lookup_cases w store sessionId)
    as [[-> _] | [(id & s & -> & _ & Hs & -> & _) | (id & h & _ & _ & _ & _ & _ & _ & Hh)]].
  - simpl. split; eapply held_true; apply lookup_insert_eq.
  - simpl. split; [now apply (held_true _ _ s) |].
    apply (held_true _ _ (clear_analyzed s)). now rewrite lookup_alter_eq, Hs.
  - congruence.
Qed.

(** For an inherited member the resolution changes nothing and the id
    stays; the store holds no session under it. *)
Lemma resolve_heir (w : Externals) (store : Store) (sessionId : option string) (h : Heir) :
  heir_at w store sessionId = Some h ->
  exists id, sessionId = Some id /\ id <> "" /\ store !! id = None /\
    inherited w id = Some h /\
    unknown w store sessionId = false /\
    resolve w store sessionId = (id, store) /\
    resolve_analyze w store sessionId = (id, store) /\
    held store id = false.
Proof.
  intros Hh. unfold resolve, resolve_analyze.
  destruct (lookup_cases w store sessionId)
    as [[_ [_ H]] | [(id & s & _ & _ & _ & _ & _ & H) | (id & h' & -> & Hid & Hs & Hi & -> & _ & H)]];
    try congruence.
  exists id. rewrite H in Hh. injection Hh as ->. simpl.
  repeat split; try assumption.
  - f_equal. apply map_eq. intros j. destruct (decide (id = j)) as [<- | Hj].
    + now rewrite lookup_alter_eq, Hs.
    + now rewrite lookup_alter_ne.
  - now apply held_false.
Qed.

Lemma history_of_on (store : Store) (id : string) (f : Session -> Session) (s : Session) :
  store !! id = Some s -> history_of (on id f store) id = history (f s).
Proof. intros H. unfold history_of, on. now rewrite lookup_alter_eq, H. Qed.

Lemma lookup_on (store : Store) (id : string) (f : Session -> Session) (s : Session) :
  store !! id = Some s -> on id f store !! id = Some (f s).
Proof. intros H. unfold on. now rewrite lookup_alter_eq, H. Qed.

Lemma lookup_on_ne (store : Store) (id j : string) (f : Session -> Session) :
  id <> j -> on id f store !! j = store !! j.
Proof. intros H. unfold on. now rewrite lookup_alter_ne. Qed.

Lemma on_on (store : Store) (id : string) (f g : Session -> Session) :
  on id f (on id g store) = on id (f ∘ g) store.
Proof. unfold on. apply alter_alter_eq. Qed.

Lemma on_same (store : Store) (id : string) (f : Session -> Session) :
  (forall s, store !! id = Some s -> f s = s) -> on id f store = store.
Proof. intros H. unfold on. now apply alter_id. Qed.

Lemma on_insert (store : Store) (id : string) (f : Session -> Session) (s : Session) :
  on id f (<[id := s]> store) = <[id := f s]> store.
Proof. unfold on. now rewrite alter_insert_eq. Qed.

Lemma pop_push (m : Message) (s : Session) : pop (push m s) = s.
Proof. destruct s as [h d i]. unfold pop, push. simpl. now rewrite removelast_last. Qed.

Lemma pop_user_push (c : string) (imgs : option (list string)) (s : Session) :
  pop_user (push (mkMessage user c imgs) s) = s.
Proof.
  unfold pop_user, last_is_user. simpl. rewrite last_snoc. simpl. apply pop_push.
Qed.

End StoreFacts.

Module StoreTheorems.
Import JS Server Notions StoreFacts.

(** C6, as the code has it.  When the request carries no session id,
    an empty one, or one that names neither a session of the store nor
    a member the store object inherits, the resolution takes the id
    [uuidv4()] gives and stores under it a session with an empty
    history, no analyzed data and no analyzed image, leaving the other
    sessions alone; it raises no error.  When the id names a session of
    the store, /chat goes on with the store as it is; the analyze-*
    handlers keep the history of the session (and so its length) and
    set its analyzed data and analyzed image to null, the other
    sessions staying as they are. *)
Theorem session_resolution (w : Externals) (store : Store) (sessionId : option string) :
  (absent_or_missing store sessionId -> plain_id w store sessionId ->
     forall resolution, resolution = resolve \/ resolution = resolve_analyze ->
     let id' := fst (resolution w store sessionId) in
     let store' := snd (resolution w store sessionId) in
     id' = uuidv4 w /\
     store' = <[uuidv4 w := emptySession]> store /\
     store' !! id' = Some emptySession /\
     history emptySession = [] /\ analyzedData emptySession = None /\
     analyzedImage emptySession = None /\
     (forall j, j <> id' -> store' !! j = store !! j)) /\
  (forall id s, sessionId = Some id -> id <> "" -> store !! id = Some s ->
     resolve w store sessionId = (id, store) /\
     fst (resolve_analyze w store sessionId) = id /\
     (exists s', snd (resolve_analyze w store sessionId) !! id = Some s' /\
                 history s' = history s /\
                 length (history s') = length (history s) /\
                 analyzedData s' = None /\ analyzedImage s' = None) /\
     (forall j, j <> id -> snd (resolve_analyze w store sessionId) !! j = store !! j)).
Proof.
  split.
  - intros Hu Hp resolution Hr. cbv zeta.
    assert (E : resolution w store sessionId =
                (uuidv4 w, <[uuidv4 w := emptySession]> store)).
    { destruct Hr as [-> | ->]; unfold resolve, resolve_analyze;
        now rewrite (unknown_spec w store sessionId Hu Hp). }
    rewrite E. simpl. repeat split.
    + apply lookup_insert_eq.
    + intros j Hj. now apply lookup_insert_ne.
  - intros id s -> Hid Hs.
    unfold resolve, resolve_analyze. rewrite (unknown_known w store id s Hid Hs). simpl.
    repeat split.
    + exists (clear_analyzed s). split; [| repeat split].
      fold (on id clear_analyzed store). now apply lookup_on.
    + intros j Hj. now apply lookup_alter_ne.
Qed.

(** A first contact, and a second request with the id it was given. *)
Lemma session_resolution_witness :
  fst (resolve Sample.world ∅ None) = uuidv4 Sample.world /\
  snd (resolve Sample.world ∅ None) !! uuidv4 Sample.world = Some emptySession /\
  resolve Sample.world Sample.one_session (Some "s1") = ("s1", Sample.one_session).
Proof.
  destruct (session_resolution Sample.world ∅ None) as [H _].
  destruct (H (or_introl eq_refl) eq_refl resolve (or_introl eq_refl))
    as [H1 [_ [H3 _]]].
  destruct (session_resolution Sample.world Sample.one_session (Some "s1"))
    as [_ K].
  destruct (K "s1" Sample.busy eq_refl ltac:(discriminate) eq_refl) as [K1 _].
  split; [exact H1 | split; [exact H3 | exact K1]].
Defined.

(** C6 as stated fails.  The resolution of /analyze-csv on a session
    that holds a picture does not return it unchanged: the picture is
    gone.  And an id the store does not hold is not always given a new
    session: for [constructor] nothing is allocated, and /chat then
    raises a TypeError. *)
Lemma session_resolution_counterexample :
  (exists s', snd (resolve_analyze Sample.world Sample.picture_session (Some "s2")) !! "s2"
                = Some s' /\
              Sample.picture_session !! "s2" = Some Sample.pictured /\
              s' <> Sample.pictured /\ analyzedImage s' = None) /\
  (∅ : Store) !! "constructor" = None /\
  resolve Sample.world ∅ (Some "constructor") = ("constructor", ∅) /\
  snd (result Sample.down (chat Sample.world ∅ (Sample.ask "hello" (Some "constructor")))) =
    threw no_history.
Proof.
  split; [| repeat split].
  exists (clear_analyzed Sample.pictured). repeat split. discriminate.
Qed.

(** C9 at the session id [toString], which is the id of no session:
    the request to clear it is answered 200 with the message of a
    cleared session, not 404, and nothing is deleted.  The test of
    line 881 finds the member of that name the store object
    inherits. *)
Theorem clear_history_of_inherited_name :
  let req := Sample.for_session (Some "toString") in
  Sample.one_session !! "toString" = None /\
  snd (clear_chat_history Sample.world Sample.one_session req) =
    responded 200
      [("message", str "✅ Conversation history cleared for session: toString")] /\
  status_of (snd (clear_chat_history Sample.world Sample.one_session req)) <> Some 404 /\
  fst (clear_chat_history Sample.world Sample.one_session req) = Sample.one_session.
Proof.
  cbv zeta. split; [reflexivity |]. split; [reflexivity |]. split; [discriminate |].
  unfold clear_chat_history.
  change (unknown Sample.world Sample.one_session
            (req_sessionId (Sample.for_session (Some "toString")))) with false.
  simpl. now apply delete_id.
Qed.

End StoreTheorems.

(** ** Clearing a session *)

Module ClearFacts.
Import JS Server Notions StoreFacts.

(** With the id of a session the store holds, /clear-chat-history
    answers 200 and deletes the entry, the other sessions staying as
    they are; a later resolution of that id finds nothing and makes a
    new, empty session.  With no id, an empty id, or an id that names
    neither a session nor an inherited member of the store object, it
    answers 404 (an error body, not an exception and not a 500) and the
    store is unchanged.  With an id that names an inherited member it
    answers 200 too, and deletes nothing. *)
Theorem clear_history_semantics (w : Externals) (store : Store) (req : Request) :
  (forall id s, req_sessionId req = Some id -> id <> "" -> store !! id = Some s ->
     let store' := fst (clear_chat_history w store req) in
     let out := snd (clear_chat_history w store req) in
     status_of out = Some 200 /\
     store' = delete id store /\ store' !! id = None /\
     (forall j, j <> id -> store' !! j = store !! j) /\
     (inherited w id = None ->
      fst (resolve w store' (Some id)) = uuidv4 w /\
      snd (resolve w store' (Some id)) !! uuidv4 w = Some emptySession)) /\
  (absent_or_missing store (req_sessionId req) -> plain_id w store (req_sessionId req) ->
     fst (clear_chat_history w store req) = store /\
     status_of (snd (clear_chat_history w store req)) = Some 404 /\
     field "error" (body_of (snd (clear_chat_history w store req))) =
       str "❌ Session not found or no sessionId provided.") /\
  (forall id h, req_sessionId req = Some id ->
     heir_at w store (req_sessionId req) = Some h ->
     store !! id = None /\
     fst (clear_chat_history w store req) = store /\
     status_of (snd (clear_chat_history w store req)) = Some 200 /\
     field "message" (body_of (snd (clear_chat_history w store req))) =
       str ("✅ Conversation history cleared for session: " +:+ id)).
Proof.
  split; [| split].
  - intros id s Hreq Hid Hs. cbv zeta. unfold clear_chat_history.
    rewrite Hreq, (unknown_known w store id s Hid Hs). simpl.
    assert (Hgone : delete id store !! id = None) by apply lookup_delete_eq.
    repeat split.
    + exact Hgone.
    + intros j Hj. now apply lookup_delete_ne.
    + unfold resolve. now rewrite (unknown_missing _ _ _ Hgone H).
    + unfold resolve. rewrite (unknown_missing _ _ _ Hgone H). simpl.
      apply lookup_insert_eq.
  - intros Hu Hp. unfold clear_chat_history.
    rewrite (unknown_spec w store _ Hu Hp). simpl. repeat split.
  - intros id h Hreq Hh. unfold clear_chat_history.
    destruct (resolve_heir w store _ h Hh) as (id' & E & _ & Hs & _ & -> & _).
    rewrite Hreq in *. injection E as <-. simpl.
    repeat split; [exact Hs |]. now apply delete_id.
Qed.

(** Clearing the session in use, and clearing one that does not exist. *)
Lemma clear_history_semantics_witness :
  fst (clear_chat_history Sample.world Sample.one_session (Sample.for_session (Some "s1"))) =
    delete "s1" Sample.one_session /\
  status_of (snd (clear_chat_history Sample.world Sample.one_session
                    (Sample.for_session (Some "s1")))) = Some 200 /\
  status_of (snd (clear_chat_history Sample.world Sample.one_session
                    (Sample.for_session (Some "nope")))) = Some 404.
Proof.
  destruct (clear_history_semantics Sample.world Sample.one_session
              (Sample.for_session (Some "s1"))) as [H _].
  destruct (H "s1" Sample.busy eq_refl ltac:(discriminate) eq_refl) as [H1 [H2 _]].
  destruct (clear_history_semantics Sample.world Sample.one_session
              (Sample.for_session (Some "nope"))) as [_ [K _]].
  destruct K as [_ [K2 _]].
  { right. exists "nope". split; reflexivity. }
  { reflexivity. }
  split; [exact H2 | split; [exact H1 | exact K2]].
Defined.

End ClearFacts.

(** ** Tabular text: what is written is read back *)

Module CsvFacts.
Import JS Csv TextFacts Converters.

Lemma snoc_append (cell : string) (c : ascii) (rest : string) :
  snoc cell c +:+ rest = cell +:+ String c rest.
Proof. unfold snoc. now rewrite append_assoc. Qed.

Lemma special_false (c : ascii) :
  special c = false ->
  Ascii.eqb c DQ = false /\ Ascii.eqb c "," = false /\ Ascii.eqb c LF = false.
Proof.
  unfold special. intros H.
  destruct (Ascii.eqb c ","), (Ascii.eqb c DQ), (Ascii.eqb c LF); simpl in H;
    try discriminate; auto.
Qed.

(** The body of a quoted cell, up to the closing quote. *)
Lemma scan_quoted (f cell : string) (row : list string) (rows : list (list string))
    (rest : string) :
  scan Quoted cell row rows (escape f +:+ String DQ rest) =
  scan QuoteSeen (cell +:+ f) row rows rest.
Proof.
  revert cell. induction f as [|c f IH]; intros cell; simpl.
  - push_append. simpl. now rewrite append_nil_r.
  - destruct (Ascii.eqb_spec c DQ) as [-> | Hc].
    + push_append. simpl. rewrite IH. now rewrite snoc_append.
    + push_append. simpl.
      destruct (Ascii.eqb_spec c DQ) as [E | _]; [contradiction |].
      rewrite IH. now rewrite snoc_append.
Qed.

(** A bare cell is read character by character. *)
Lemma scan_bare (f cell : string) (row : list string) (rows : list (list string))
    (rest : string) :
  needs_quote f = false ->
  scan Unquoted cell row rows (f +:+ rest) = scan Unquoted (cell +:+ f) row rows rest.
Proof.
  revert cell. induction f as [|c f IH]; intros cell H; simpl in H.
  - push_append. now rewrite append_nil_r.
  - apply orb_false_elim in H as [Hc Hf].
    destruct (special_false c Hc) as [H1 [H2 H3]].
    push_append. simpl. rewrite H1, H2, H3.
    rewrite (IH _ Hf). now rewrite snoc_append.
Qed.

Lemma scan_cell (f : string) (row : list string) (rows : list (list string))
    (rest : string) :
  scan FieldStart "" row rows (field_out f +:+ rest) =
  scan (mode_after f) f row rows rest.
Proof.
  unfold field_out, mode_after. destruct (needs_quote f) eqn:Hq.
  - push_append. simpl. rewrite append_assoc. push_append.
    now rewrite scan_quoted.
  - destruct f as [|c f]; [reflexivity |].
    simpl in Hq. apply orb_false_elim in Hq as [Hc Hf].
    destruct (special_false c Hc) as [H1 [H2 H3]].
    push_append. simpl. rewrite H1, H2, H3.
    now rewrite (scan_bare f _ _ _ _ Hf).
Qed.

Lemma scan_cell_comma (f : string) (row : list string) (rows : list (list string))
    (rest : string) :
  scan FieldStart "" row rows (field_out f +:+ String "," rest) =
  scan FieldStart "" (f :: row) rows rest.
Proof.
  rewrite scan_cell. unfold mode_after.
  destruct (needs_quote f); [reflexivity |].
  destruct f; reflexivity.
Qed.

Lemma scan_cell_newline (f : string) (row : list string) (rows : list (list string))
    (rest : string) :
  ~ (f = "" /\ row = []) ->
  scan FieldStart "" row rows (field_out f +:+ String LF rest) =
  scan FieldStart "" [] (rev (f :: row) :: rows) rest.
Proof.
  intros H. rewrite scan_cell. unfold mode_after.
  destruct (needs_quote f); [reflexivity |].
  destruct f; [| reflexivity].
  destruct row; [exfalso; now apply H | reflexivity].
Qed.

End CsvFacts.

Module CsvRows.
Import JS Csv TextFacts CsvFacts Converters.

Lemma row_out_cons (f g : string) (fs : list string) :
  row_out (f :: g :: fs) = field_out f +:+ String "," (row_out (g :: fs)).
Proof. reflexivity. Qed.

(** A written row, read back from the start of a cell. *)
Lemma scan_row (fs row : list string) (rows : list (list string)) (rest : string) :
  fs <> [] -> ~ (row = [] /\ blank_row fs = true) ->
  scan FieldStart "" row rows (row_out fs +:+ String LF rest) =
  scan FieldStart "" [] (rev (rev fs ++ row)%list :: rows) rest.
Proof.
  revert row. induction fs as [|f fs IH]; intros row Hne Hb; [congruence |].
  destruct fs as [|g fs].
  - simpl. apply scan_cell_newline.
    intros [-> ->]. apply Hb. now split.
  - rewrite row_out_cons, append_assoc. push_append.
    rewrite scan_cell_comma.
    rewrite IH; [| discriminate | intros [E _]; discriminate E].
    do 3 f_equal. simpl. now rewrite <- !app_assoc.
Qed.

(** The written rows, read back. *)
Lemma scan_lines (table rows : list (list string)) :
  Forall (fun fs => blank_row fs = false) table ->
  scan FieldStart "" [] rows (lines_out table) = Ok (rev rows ++ table)%list.
Proof.
  revert rows. induction table as [|fs table IH]; intros rows H; simpl.
  - now rewrite app_nil_r.
  - inversion H as [|? ? Hfs Htable]; subst.
    unfold line_out, nl. rewrite append_assoc. push_append.
    rewrite scan_row.
    + rewrite app_nil_r, rev_involutive. rewrite (IH _ Htable). simpl.
      now rewrite <- app_assoc.
    + intros ->. discriminate Hfs.
    + intros [_ E]. congruence.
Qed.

Lemma length_row_of (columns : list string) (r : Record) :
  length (row_of columns r) = length columns.
Proof. unfold row_of. apply length_map. Qed.

(** What is read from the table written for [r]. *)
Lemma parse_written (first : Record) (r : list Record) :
  let columns := keys first in
  Forall (fun fs => blank_row fs = false) (columns :: map (row_of columns) r) ->
  parse (lines_out (columns :: map (row_of columns) r)) =
  Ok (map (fun rec => object_of columns (row_of columns rec)) r).
Proof.
  intros columns H. unfold parse. rewrite (scan_lines _ [] H). simpl.
  assert (W : forallb (same_width columns) (map (row_of columns) r) = true).
  { apply forallb_forall. intros row Hrow.
    apply in_map_iff in Hrow as [rec [<- _]].
    unfold same_width. rewrite length_row_of. apply Nat.eqb_refl. }
  rewrite W. now rewrite map_map.
Qed.

End CsvRows.

Module CsvRecords.
Import JS Csv TextFacts Converters.

Lemma get_prop_head (k v : string) (r : Record) : get_prop k ((k, v) :: r) = Some v.
Proof. simpl. now rewrite String.eqb_refl. Qed.

Lemma get_prop_tail (k k' v : string) (r : Record) :
  k <> k' -> get_prop k ((k', v) :: r) = get_prop k r.
Proof. intros H. simpl. now apply String.eqb_neq in H as ->. Qed.

Lemma get_prop_missing (k : string) (r : Record) :
  ~ In k (keys r) -> get_prop k r = None.
Proof.
  induction r as [|[k' v] r IH]; intros H; [reflexivity |].
  simpl in H. rewrite get_prop_tail; [| intros ->; apply H; now left].
  apply IH. intros Hin. apply H. now right.
Qed.

Lemma get_prop_present (k : string) (r : Record) :
  In k (keys r) -> exists v, get_prop k r = Some v.
Proof.
  induction r as [|[k' v] r IH]; intros H; [destruct H |].
  destruct (String.eqb_spec k k') as [-> | Hne].
  - exists v. apply get_prop_head.
  - rewrite (get_prop_tail _ _ _ _ Hne). apply IH.
    destruct H as [H | H]; [simpl in H; congruence | exact H].
Qed.

Lemma keys_tabulate (f : string -> string) (columns : list string) :
  keys (tabulate f columns) = columns.
Proof. unfold keys, tabulate. rewrite map_map. simpl. apply map_id. Qed.

Lemma get_prop_tabulate (f : string -> string) (columns : list string) (k : string) :
  In k columns -> get_prop k (tabulate f columns) = Some (f k).
Proof.
  induction columns as [|c columns IH]; intros H; [destruct H |].
  simpl. destruct (String.eqb_spec k c) as [-> | Hne]; [reflexivity |].
  apply IH. destruct H as [H | H]; [congruence | exact H].
Qed.

Lemma set_prop_new (k v : string) (r : Record) :
  ~ In k (keys r) -> set_prop k v r = (r ++ [(k, v)])%list.
Proof.
  induction r as [|[k' v'] r IH]; intros H; [reflexivity |].
  simpl in *. destruct (String.eqb_spec k k') as [-> | Hne].
  - exfalso. apply H. now left.
  - rewrite IH; [reflexivity |]. intros Hin. apply H. now right.
Qed.

Lemma fill_new (f : string -> string) (columns : list string) (obj : Record) :
  List.NoDup (keys obj ++ columns) ->
  fold_left (fun o kv => set_prop (fst kv) (snd kv) o) (tabulate f columns) obj =
  (obj ++ tabulate f columns)%list.
Proof.
  revert obj. induction columns as [|c columns IH]; intros obj H; simpl.
  - now rewrite app_nil_r.
  - rewrite set_prop_new.
    + rewrite IH.
      * now rewrite <- app_assoc.
      * unfold keys in *. rewrite map_app. simpl. now rewrite <- app_assoc.
    + apply List.NoDup_remove_2 in H. intros Hin. apply H.
      apply in_or_app. now left.
Qed.

Lemma combine_row (f : string -> string) (columns : list string) :
  combine columns (map f columns) = tabulate f columns.
Proof. induction columns as [|c columns IH]; simpl; [reflexivity | now rewrite IH]. Qed.

(** With distinct columns the object read from a written row is the
    table of the record's cells. *)
Lemma object_of_row (columns : list string) (rec : Record) :
  List.NoDup columns ->
  object_of columns (row_of columns rec) =
  tabulate (fun k => default "" (get_prop k rec)) columns.
Proof.
  intros H. unfold object_of, row_of. rewrite combine_row.
  now rewrite fill_new.
Qed.

Lemma tabulate_same (columns : list string) (rec : Record) :
  (forall k, In k columns <-> In k (keys rec)) ->
  same_record (tabulate (fun k => default "" (get_prop k rec)) columns) rec.
Proof.
  intros H k. destruct (in_dec string_dec k columns) as [Hin | Hout].
  - rewrite (get_prop_tabulate _ _ _ Hin).
    destruct (get_prop_present k rec (proj1 (H k) Hin)) as [v ->]. reflexivity.
  - rewrite get_prop_missing by now rewrite keys_tabulate.
    symmetry. apply get_prop_missing. intros Hk. apply Hout. now apply H.
Qed.

Lemma tabulate_keys (rec : Record) :
  List.NoDup (keys rec) ->
  tabulate (fun k => default "" (get_prop k rec)) (keys rec) = rec.
Proof.
  induction rec as [|[k v] rec IH]; intros H; [reflexivity |].
  inversion H as [|? ? Hk Hrec]; subst.
  unfold tabulate in *. simpl. rewrite String.eqb_refl. simpl. f_equal.
  rewrite <- (IH Hrec) at 2. apply map_ext_in.
  intros k' Hk'. f_equal.
  destruct (String.eqb_spec k' k) as [-> | _]; [contradiction | reflexivity].
Qed.

Lemma Forall2_map_self {A : Type} (R : A -> A -> Prop) (g : A -> A) (l : list A) :
  Forall (fun x => R (g x) x) l -> Forall2 R (map g l) l.
Proof. induction 1; simpl; constructor; assumption. Qed.

End CsvRecords.

Module ConverterTheorems.
Import JS Csv Server TextFacts Converters CsvRows CsvRecords.

(** What comes back from the table written for a non-empty [r]: each
    record laid out under the columns of the first one. *)
Lemma round_trip_written (first : Record) (rest : list Record) :
  List.NoDup (keys first) -> no_blank_row (first :: rest) ->
  round_trip (first :: rest) =
  Ok (map (fun rec => tabulate (fun k => default "" (get_prop k rec)) (keys first))
          (first :: rest)).
Proof.
  intros Hnd [Hh Hr].
  unfold round_trip, jsonToCsv, Csv.stringify, csvToJson. cbv beta iota zeta.
  rewrite parse_written.
  - f_equal. apply map_ext. intros rec. now apply object_of_row.
  - constructor; [exact Hh |]. now apply Forall_map.
Qed.

(** C2, as the code has it.  For every non-empty sequence of records
    [r] in which all records have the key set of the first one (each key
    once) and in which no row of the table, header included, would be
    written as an empty line (a single column whose name or value is
    empty, or no column at all), writing [r] with [jsonToCsv] and reading
    the text back with [csvToJson] succeeds and gives the records of [r]
    again, one for one, each with the keys and values it had; when the
    records also list their keys in the same order the result is [r]
    itself. *)
Theorem csv_round_trip (r : list Record) :
  r <> [] -> homogeneous r -> no_blank_row r ->
  exists r',
    round_trip r = Ok r' /\
    Forall2 same_record r' r /\
    (same_key_order r -> r' = r).
Proof.
  destruct r as [|first rest]; [congruence |].
  intros _ [Hnd Hkeys] Hblank.
  eexists. split; [now apply round_trip_written | split].
  - apply Forall2_map_self.
    eapply Forall_impl; [exact Hkeys |].
    intros rec Hperm. cbv beta in Hperm |- *. apply tabulate_same. intros k. split; intros H.
    + eapply Permutation_in; [symmetry; exact Hperm | exact H].
    + eapply Permutation_in; [exact Hperm | exact H].
  - intros Horder. rewrite <- (map_id (first :: rest)) at 2.
    apply map_ext_in. intros rec Hrec.
    assert (E : keys rec = keys first).
    { exact (proj1 (List.Forall_forall _ _) Horder rec Hrec). }
    rewrite <- E. apply tabulate_keys. now rewrite E.
Qed.

(** A table with a quoted cell and an empty cell comes back as it
    was. *)
Lemma csv_round_trip_witness : round_trip Sample.people = Ok Sample.people.
Proof.
  destruct (csv_round_trip Sample.people) as [r' [H1 [_ H3]]].
  - discriminate.
  - split.
    + repeat constructor; simpl; intuition discriminate.
    + repeat constructor.
  - split; [reflexivity | repeat constructor].
  - rewrite H1. f_equal. apply H3. repeat constructor.
Defined.

(** C2 as stated fails: a single record with one empty cell is written
    as a header line and an empty line, and the empty line is skipped
    when the text is read. *)
Lemma csv_round_trip_counterexample :
  Sample.one_empty_cell <> [] /\
  homogeneous Sample.one_empty_cell /\
  jsonToCsv Csv.stringify Sample.one_empty_cell = Ok ("a" +:+ nl +:+ nl) /\
  round_trip Sample.one_empty_cell = Ok [] /\
  round_trip Sample.one_empty_cell <> Ok Sample.one_empty_cell.
Proof.
  split; [discriminate | split; [| split; [reflexivity | split; [reflexivity | discriminate]]]].
  split.
  - repeat constructor; simpl; intuition.
  - repeat constructor.
Qed.

End ConverterTheorems.

(** ** The handlers, step by step *)

Module HandlerFacts.
Import JS Server Notions TextFacts StoreFacts.

Lemma unknown_true (w : Externals) (store : Store) (sessionId : option string) :
  unknown w store sessionId = true -> session_at store sessionId = None.
Proof.
  intros H.
  destruct (lookup_cases w store sessionId)
    as [[_ [E _]] | [(id & s & _ & _ & _ & E & _) | (id & h & _ & _ & _ & _ & E & _)]];
    [exact E | congruence | congruence].
Qed.

Lemma unknown_false (w : Externals) (store : Store) (sessionId : option string) :
  plain_id w store sessionId ->
  unknown w store sessionId = false ->
  exists id s, sessionId = Some id /\ store !! id = Some s /\
               session_at store sessionId = Some s.
Proof.
  intros Hp H.
  destruct (lookup_cases w store sessionId)
    as [[E _] | [(id & s & -> & _ & Hs & _ & Hat & _) | (id & h & _ & _ & _ & _ & _ & _ & E)]].
  - congruence.
  - now exists id, s.
  - unfold plain_id in Hp. congruence.
Qed.

(** Once resolved, an analyze-* handler holds a session with the
    history the request found and nothing attached. *)
Lemma resolve_analyze_at (w : Externals) (store : Store) (sessionId : option string) :
  plain_id w store sessionId ->
  fst (resolve_analyze w store sessionId) = resolved_id w store sessionId /\
  exists s1,
    snd (resolve_analyze w store sessionId) !! resolved_id w store sessionId = Some s1 /\
    history s1 = history_before store sessionId /\
    analyzedData s1 = None /\ analyzedImage s1 = None.
Proof.
  intros Hp. unfold resolve_analyze, resolved_id, resolve, history_before.
  destruct (unknown w store sessionId) eqn:E.
  - rewrite (unknown_true _ _ _ E). simpl.
    split; [reflexivity |]. exists emptySession.
    rewrite lookup_insert_eq. repeat split.
  - destruct (unknown_false _ _ _ Hp E) as [id [s [-> [Hs Hat]]]].
    rewrite Hat. simpl.
    split; [reflexivity |]. exists (clear_analyzed s).
    fold (on id clear_analyzed store).
    rewrite (lookup_on _ _ _ _ Hs). repeat split.
Qed.

(** Once resolved, /chat holds a session whose history is the one the
    request found, or the instructions alone for a new session. *)
Lemma resolve_chat_at (w : Externals) (store : Store) (sessionId : option string) :
  plain_id w store sessionId ->
  fst (resolve_chat w store sessionId) = resolved_id w store sessionId /\
  exists s1,
    snd (resolve_chat w store sessionId) !! resolved_id w store sessionId = Some s1 /\
    history s1 =
      (if unknown w store sessionId
       then [msg system (chat_instructions w)]
       else history_before store sessionId).
Proof.
  intros Hp. unfold resolve_chat, resolved_id, resolve, history_before.
  destruct (unknown w store sessionId) eqn:E.
  - simpl. split; [reflexivity |]. rewrite on_insert.
    eexists. rewrite lookup_insert_eq. split; reflexivity.
  - destruct (unknown_false _ _ _ Hp E) as [id [s [-> [Hs Hat]]]].
    rewrite Hat. simpl. split; [reflexivity |]. now exists s.
Qed.

Lemma resolve_chat_known (w : Externals) (store : Store) (id : string) (s : Session) :
  id <> "" -> store !! id = Some s -> resolve_chat w store (Some id) = (id, store).
Proof.
  intros Hid Hs. unfold resolve_chat, resolve.
  now rewrite (unknown_known w store id s Hid Hs).
Qed.

(** For an inherited member /chat resolves as the other handlers
    do. *)
Lemma resolve_chat_heir (w : Externals) (store : Store) (sessionId : option string)
    (h : Heir) :
  heir_at w store sessionId = Some h ->
  exists id, sessionId = Some id /\ resolve_chat w store sessionId = (id, store) /\
             held store id = false.
Proof.
  intros Hh. destruct (resolve_heir w store sessionId h Hh)
    as (id & -> & _ & _ & _ & Hu & Hr & _ & Hheld).
  exists id. unfold resolve_chat. now rewrite Hr, Hu.
Qed.

(** The common opening of the analyze-* handlers in a proof: the
    resolved pair is named, the session under the resolved id is [s1] and
    the history the request found is written [history s1]. *)
Ltac open_analyze w store req Hp s1 Hs1 :=
  let Hid := fresh "Hid" in
  let Hh := fresh "Hh" in
  let id := fresh "id" in
  let st := fresh "st" in
  destruct (resolve_analyze_at w store (req_sessionId req) Hp) as [Hid [s1 [Hs1 [Hh _]]]];
  destruct (resolve_analyze w store (req_sessionId req)) as [id st];
  simpl in Hid, Hs1; subst id; try rewrite <- Hh;
  rewrite (held_true _ _ _ Hs1); cbn [negb].

Ltac open_chat w store req Hp s1 Hs1 :=
  let Hid := fresh "Hid" in
  let Hh := fresh "Hh" in
  let id := fresh "id" in
  let st := fresh "st" in
  destruct (resolve_chat_at w store (req_sessionId req) Hp) as [Hid [s1 [Hs1 Hh]]];
  destruct (resolve_chat w store (req_sessionId req)) as [id st];
  simpl in Hid, Hs1; subst id; try rewrite <- Hh;
  rewrite (held_true _ _ _ Hs1); cbn [negb].

(** The history under the resolved id after a chain of updates. *)
Ltac read_history Hs1 :=
  rewrite ?on_on, (history_of_on _ _ _ _ Hs1); unfold compose, msg;
  rewrite ?pop_user_push, ?pop_push; simpl; rewrite <- ?app_assoc; simpl.

Lemma present_nonempty (o : option string) (s : string) :
  o = Some s -> s <> "" -> present o = true.
Proof. intros -> H. simpl. now apply truthy_nonempty. Qed.

(** A request whose session id names an inherited member: the handler
    resolves nothing and throws where it first reaches for the
    history. *)
Section Heir.
Context (w : Externals) (store : Store) (req : Request) (h : Heir).
Hypothesis Hh : heir_at w store (req_sessionId req) = Some h.

Lemma chat_heir (q : string) :
  req_question req = Some q -> direct_command q = None ->
  chat w store req = Return (store, threw no_history).
Proof.
  intros Hq Hd. unfold chat. rewrite Hq, Hd.
  destruct (resolve_chat_heir w store _ h Hh) as (id & _ & -> & ->).
  reflexivity.
Qed.

Lemma analyze_csv_heir : analyze_csv w store req = Return (store, threw no_history).
Proof.
  unfold analyze_csv.
  destruct (resolve_heir w store _ h Hh) as (id & _ & _ & _ & _ & _ & _ & -> & ->).
  reflexivity.
Qed.

Lemma analyze_image_heir : analyze_image w store req = Return (store, threw no_history).
Proof.
  unfold analyze_image.
  destruct (resolve_heir w store _ h Hh) as (id & _ & _ & _ & _ & _ & _ & -> & ->).
  reflexivity.
Qed.


End Heir.

(** An id is plain or names an inherited member. *)
Lemma plain_or_heir (w : Externals) (store : Store) (sessionId : option string) :
  plain_id w store sessionId \/ exists h, heir_at w store sessionId = Some h.
Proof.
  unfold plain_id. destruct (heir_at w store sessionId) as [h|]; [right | left]; eauto.
Qed.

End HandlerFacts.

(** ** The response classifier *)

Module ClassifierFacts.
Import JS Server Notions TextFacts TrimFacts.

Lemma csv_marker (rest : string) :
  classify_csv_first ("CSV_REQUEST:" +:+ rest) = mkDirective (Some csv) (Some (trim rest)) /\
  classify_image_first ("CSV_REQUEST:" +:+ rest) = mkDirective (Some csv) (Some (trim rest)).
Proof. split; reflexivity. Qed.

Lemma image_marker (rest : string) :
  classify_csv_first ("IMAGE_REQUEST:" +:+ rest) = mkDirective (Some image) (Some (trim rest)) /\
  classify_image_first ("IMAGE_REQUEST:" +:+ rest) = mkDirective (Some image) (Some (trim rest)).
Proof. split; reflexivity. Qed.

Lemma not_begins (marker text : string) :
  ~ begins marker text -> startsWith text marker = false.
Proof.
  intros H. destruct (startsWith text marker) eqn:E; [| reflexivity].
  exfalso. apply H. now apply startsWith_begins.
Qed.

Lemma no_marker (text : string) :
  ~ begins "CSV_REQUEST:" text -> ~ begins "IMAGE_REQUEST:" text ->
  classify_csv_first text = no_directive /\ classify_image_first text = no_directive.
Proof.
  intros Hc Hi. unfold classify_csv_first, classify_image_first.
  now rewrite (not_begins _ _ Hc), (not_begins _ _ Hi).
Qed.

Lemma csv_kind_begins (text : string) :
  fileTypeToGenerate (classify_csv_first text) = Some csv \/
  fileTypeToGenerate (classify_image_first text) = Some csv ->
  begins "CSV_REQUEST:" text.
Proof.
  unfold classify_csv_first, classify_image_first.
  destruct (startsWith text "CSV_REQUEST:") eqn:Ec.
  - intros _. now apply startsWith_begins.
  - destruct (startsWith text "IMAGE_REQUEST:"); simpl; intros [H|H]; discriminate.
Qed.

Lemma image_kind_begins (text : string) :
  fileTypeToGenerate (classify_csv_first text) = Some image \/
  fileTypeToGenerate (classify_image_first text) = Some image ->
  begins "IMAGE_REQUEST:" text.
Proof.
  unfold classify_csv_first, classify_image_first.
  destruct (startsWith text "IMAGE_REQUEST:") eqn:Ei.
  - intros _. now apply startsWith_begins.
  - destruct (startsWith text "CSV_REQUEST:"); simpl; intros [H|H]; discriminate.
Qed.

End ClassifierFacts.

Module ClassifierTheorems.
Import JS Server Notions TextFacts TrimFacts StoreFacts HandlerFacts ClassifierFacts.

Section Answered.
Context (w : Externals) (store : Store) (req : Request) (text : string).
Hypothesis plain : plain_id w store (req_sessionId req).

Lemma chat_carries (q : string) :
  req_question req = Some q -> direct_command q = None ->
  field "answer" (answered text (chat w store req)) = str text /\
  carries (answered text (chat w store req)) (classify_csv_first text).
Proof.
  intros Hq Hd. unfold answered, chat. rewrite Hq, Hd.
  open_chat w store req plain s1 Hs1.
  unfold result. simpl. repeat split.
Qed.

Lemma csv_carries (c : string) (records : list Csv.Record) :
  req_csv req = Some c -> c <> "" -> parse w c = Ok records ->
  field "response" (answered text (analyze_csv w store req)) = str text /\
  carries (answered text (analyze_csv w store req)) (classify_csv_first text).
Proof.
  intros Hc Hne Hparse. unfold answered, analyze_csv.
  open_analyze w store req plain s1 Hs1.
  rewrite Hc. simpl. destruct c as [|x c]; [congruence |]. simpl.
  unfold csvToJson. rewrite Hparse. unfold result. simpl. repeat split.
Qed.

Lemma pdf_carries (p extracted : string) :
  req_pdf req = Some p -> p <> "" -> pdf w p = Ok extracted ->
  field "response" (answered text (analyze_pdf w store req)) = str text /\
  carries (answered text (analyze_pdf w store req)) (classify_csv_first text).
Proof.
  intros Hp Hne Hparse. unfold answered, analyze_pdf.
  destruct (resolve_analyze_at w store (req_sessionId req) plain) as [Hid [s1 [Hs1 _]]].
  destruct (resolve_analyze w store (req_sessionId req)) as [sessionId store'].
  simpl in Hid, Hs1. subst sessionId.
  rewrite Hp. simpl. destruct p as [|x p]; [congruence |]. simpl.
  rewrite Hparse, (held_true _ _ _ Hs1). unfold result. simpl. repeat split.
Qed.

(** /analyze-image: the instruction is always the classified one; the
    kind is too, unless the text is a CSV_REQUEST that fences an array
    which cannot be converted, and the answer is the text unless the
    handler works on such an array. *)
Lemma image_carries :
  present (req_image req) = true ->
  let body := answered text (analyze_image w store req) in
  field "generationPrompt" body = or_null (generationPrompt (classify_image_first text)) /\
  (begins "CSV_REQUEST:" text /\ conversion_fails w text ->
   field "fileType" body = null /\ field "action" body = undefined) /\
  (~ (begins "CSV_REQUEST:" text /\ conversion_fails w text) ->
   carries body (classify_image_first text)) /\
  (~ (begins "CSV_REQUEST:" text /\ exists items, fenced_array w text items) ->
   field "response" body = str text).
Proof.
  intros Hi. cbv zeta. unfold answered, analyze_image.
  open_analyze w store req plain s1 Hs1.
  rewrite Hi. unfold result. simpl.
  unfold carries, conversion_fails, fenced_array.
  destruct (fileTypeToGenerate (classify_image_first text)) as [[|]|] eqn:Ek.
  - assert (Hb : begins "CSV_REQUEST:" text) by (apply csv_kind_begins; now right).
    unfold embedded_csv. destruct (match_json_block text) as [[whole group]|] eqn:Em.
    + destruct group as [|g0 group'] eqn:Eg.
      { simpl. rewrite Ek. split; [reflexivity |]. split; [| split].
        - intros [_ (items & m & (wh & gr & [= <- <-] & Hne & _) & _)]. congruence.
        - intros _. repeat split.
        - reflexivity. }
      rewrite <- Eg. assert (Hg : truthy group = true) by now subst.
      assert (Hgne : group <> "") by (subst; discriminate).
      rewrite Hg. clear Eg.
      destruct (tryParseJson w (trim group)) as [[| | | | items |]|] eqn:Ep;
        try (simpl; rewrite Ek; split; [reflexivity |]; split; [| split];
             [ intros [_ (items' & m & (wh & gr & [= <- <-] & _ & Hj) & _)]; congruence
             | intros _; repeat split
             | reflexivity ]).
      destruct (jsonToCsv (stringify w) items) as [c | m] eqn:Ec; simpl.
      * rewrite Ek. split; [reflexivity |]. split; [| split].
        -- intros [_ (items' & m & (wh & gr & [= <- <-] & _ & Hj) & Hf)].
           rewrite Ep in Hj. injection Hj as <-. congruence.
        -- intros _. repeat split.
        -- intros H. exfalso. apply H. split; [exact Hb |].
           exists items, whole, group. auto.
      * split; [reflexivity |]. split; [| split].
        -- intros _. split; reflexivity.
        -- intros H. exfalso. apply H. split; [exact Hb |].
           exists items, m. split; [| exact Ec]. exists whole, group. auto.
        -- intros H. exfalso. apply H. split; [exact Hb |].
           exists items, whole, group. auto.
    + simpl. rewrite Ek. split; [reflexivity |]. split; [| split].
      * intros [_ (items & m & (wh & gr & [=] & _) & _)].
      * intros _. repeat split.
      * reflexivity.
  - assert (Hb : begins "IMAGE_REQUEST:" text) by (apply image_kind_begins; now right).
    simpl. rewrite Ek. split; [reflexivity |]. split; [| split].
    + intros [[rest ->] _]. destruct Hb as [rest' Hb]. discriminate Hb.
    + intros _. repeat split.
    + reflexivity.
  - simpl. rewrite Ek. split; [reflexivity |]. split; [| split].
    + intros [[rest ->] _]. discriminate Ek.
    + intros _. repeat split.
    + reflexivity.
Qed.

End Answered.

(** C1, as the code has it.  For every text of the model, the
    classification of /chat, /analyze-csv and /analyze-pdf
    (CSV_REQUEST looked for first) and that of /analyze-image
    (IMAGE_REQUEST looked for first) give the kind csv (resp. image)
    with, as instruction, what follows the marker trimmed of the white
    space around it, if and only if the text starts with CSV_REQUEST:
    (resp. IMAGE_REQUEST:) at position 0.  A text that starts with
    neither marker, wherever else it mentions one, gives no directive.
    The responses of /chat, /analyze-csv and /analyze-pdf carry that
    classification with the full text as the answer, and so does the
    response of /analyze-image, with one exception: for a CSV_REQUEST
    that fences a JSON array which cannot be converted to CSV the
    response has no kind (fileType null, no action) although the text
    starts with the marker; the instruction is the classified one even
    then.  (A request whose session id names an inherited member of the
    store object gets no response.) *)
Theorem classifier_prefix_semantics (text : string) :
  let by_csv := classify_csv_first text in
  let by_image := classify_image_first text in
  (forall rest, text = "CSV_REQUEST:" +:+ rest ->
     by_csv = mkDirective (Some csv) (Some (trim rest)) /\
     by_image = mkDirective (Some csv) (Some (trim rest)) /\
     trimmed rest (trim rest)) /\
  (forall rest, text = "IMAGE_REQUEST:" +:+ rest ->
     by_csv = mkDirective (Some image) (Some (trim rest)) /\
     by_image = mkDirective (Some image) (Some (trim rest)) /\
     trimmed rest (trim rest)) /\
  (fileTypeToGenerate by_csv = Some csv \/ fileTypeToGenerate by_image = Some csv ->
     begins "CSV_REQUEST:" text) /\
  (fileTypeToGenerate by_csv = Some image \/ fileTypeToGenerate by_image = Some image ->
     begins "IMAGE_REQUEST:" text) /\
  (~ begins "CSV_REQUEST:" text -> ~ begins "IMAGE_REQUEST:" text ->
     by_csv = no_directive /\ by_image = no_directive) /\
  (forall w store req q,
     plain_id w store (req_sessionId req) ->
     req_question req = Some q -> direct_command q = None ->
     field "answer" (answered text (chat w store req)) = str text /\
     carries (answered text (chat w store req)) by_csv) /\
  (forall w store req c records,
     plain_id w store (req_sessionId req) ->
     req_csv req = Some c -> c <> "" -> parse w c = Ok records ->
     field "response" (answered text (analyze_csv w store req)) = str text /\
     carries (answered text (analyze_csv w store req)) by_csv) /\
  (forall w store req p extracted,
     plain_id w store (req_sessionId req) ->
     req_pdf req = Some p -> p <> "" -> pdf w p = Ok extracted ->
     field "response" (answered text (analyze_pdf w store req)) = str text /\
     carries (answered text (analyze_pdf w store req)) by_csv) /\
  (forall w store req,
     plain_id w store (req_sessionId req) ->
     present (req_image req) = true ->
     let body := answered text (analyze_image w store req) in
     field "generationPrompt" body = or_null (generationPrompt by_image) /\
     (begins "CSV_REQUEST:" text /\ conversion_fails w text ->
      field "fileType" body = null /\ field "action" body = undefined) /\
     (~ (begins "CSV_REQUEST:" text /\ conversion_fails w text) ->
      carries body by_image) /\
     (~ (begins "CSV_REQUEST:" text /\ exists items, fenced_array w text items) ->
      field "response" body = str text)).
Proof.
  cbv zeta. repeat apply conj.
  - intros rest ->. destruct (csv_marker rest) as [A B].
    split; [exact A | split; [exact B | apply trim_trimmed]].
  - intros rest ->. destruct (image_marker rest) as [A B].
    split; [exact A | split; [exact B | apply trim_trimmed]].
  - apply csv_kind_begins.
  - apply image_kind_begins.
  - intros Hc Hi. exact (no_marker text Hc Hi).
  - intros w store req q Hp Hq Hd. exact (chat_carries w store req text Hp q Hq Hd).
  - intros w store req c records Hp Hc Hne Hr.
    exact (csv_carries w store req text Hp c records Hc Hne Hr).
  - intros w store req p extracted Hp Hq Hne Hr.
    exact (pdf_carries w store req text Hp p extracted Hq Hne Hr).
  - intros w store req Hp Hi. exact (image_carries w store req text Hp Hi).
Qed.

(** The examples of the specification, with white space of several
    kinds around the instruction, and a marker in mid-text. *)
Lemma classifier_prefix_semantics_witness :
  let rest := " " +:+ Sample.nbsp +:+ "make a table " +:+ Sample.nbsp +:+ Sample.wide_space in
  (classify_csv_first ("CSV_REQUEST:" +:+ rest) =
     mkDirective (Some csv) (Some "make a table") /\
   classify_image_first ("CSV_REQUEST:" +:+ rest) =
     mkDirective (Some csv) (Some "make a table") /\
   trimmed rest "make a table") /\
  classify_csv_first "Hello there" = no_directive /\
  classify_image_first "Please answer with CSV_REQUEST: make a table" = no_directive.
Proof.
  cbv zeta. split; [| split].
  - exact (proj1 (classifier_prefix_semantics
                    ("CSV_REQUEST:" +:+ " " +:+ Sample.nbsp +:+ "make a table " +:+
                     Sample.nbsp +:+ Sample.wide_space))
             (" " +:+ Sample.nbsp +:+ "make a table " +:+ Sample.nbsp +:+ Sample.wide_space)
             eq_refl).
  - refine (proj1 (proj1 (proj2 (proj2 (proj2 (proj2
              (classifier_prefix_semantics "Hello there"))))) _ _));
      intros [rest H]; discriminate H.
  - refine (proj2 (proj1 (proj2 (proj2 (proj2 (proj2
              (classifier_prefix_semantics
                 "Please answer with CSV_REQUEST: make a table"))))) _ _));
      intros [rest H]; discriminate H.
Defined.

(** A text that starts with CSV_REQUEST: at position 0 and for which
    the response of /analyze-image has no kind: the array it fences is
    read by [JSON.parse] and refused by the CSV writer. *)
Lemma classifier_prefix_semantics_counterexample :
  let text := "CSV_REQUEST: the objects " +:+ Sample.fenced_numbers in
  let body :=
    answered text
      (analyze_image Sample.world_with_numbers ∅ (Sample.with_image (Some "aGVsbG8=") None)) in
  begins "CSV_REQUEST:" text /\
  classify_image_first text =
    mkDirective (Some csv) (Some ("the objects " +:+ Sample.fenced_numbers)) /\
  field "fileType" body = null /\
  field "action" body = undefined /\
  field "generationPrompt" body = str ("the objects " +:+ Sample.fenced_numbers).
Proof.
  cbv zeta. split; [eexists; reflexivity |].
  split; [reflexivity |]. split; [reflexivity |]. split; reflexivity.
Qed.

End ClassifierTheorems.

(** ** Failure of the inference call *)

Module RollbackFacts.
Import JS Server Notions TextFacts StoreFacts HandlerFacts.

Section Failure.
Context (w : Externals) (store : Store) (req : Request).
Context (ollama : Call -> Reply) (Hfail : always_fails ollama).

Ltac endpoint_fails :=
  unfold result; simpl;
  match goal with |- context [ollama ?c] => destruct (Hfail c) as [? ->] end;
  simpl.

(** /chat after a failed call: the history the session had once
    resolved. *)
Lemma chat_failure (q : string) :
  req_question req = Some q -> direct_command q = None ->
  history_of (fst (result ollama (chat w store req)))
             (resolved_id w store (req_sessionId req)) =
  (if unknown w store (req_sessionId req)
   then [msg system (chat_instructions w)]
   else history_before store (req_sessionId req)).
Proof.
  intros Hq Hd.
  destruct (plain_or_heir w store (req_sessionId req)) as [Hp | [h Hh]].
  - unfold chat. rewrite Hq, Hd.
    open_chat w store req Hp s1 Hs1.
    destruct (dispatchTool w q) as [[tool data]|]; endpoint_fails;
      now read_history Hs1.
  - rewrite (chat_heir w store req h Hh q Hq Hd).
    destruct (resolve_heir w store _ h Hh) as (id & _ & _ & Hs & _ & Hu & Hr & _).
    unfold resolved_id, history_before. rewrite Hu, Hr. simpl.
    destruct (lookup_cases w store (req_sessionId req))
      as [[_ [_ E]] | [(j & s & _ & _ & _ & _ & _ & E) | (j & h' & _ & _ & _ & _ & _ & -> & _)]];
      try congruence.
    unfold history_of. now rewrite Hs.
Qed.

(** On a session the store holds, the failed turn of /chat leaves the
    whole store as it was. *)
Lemma chat_failure_known (q id : string) (s : Session) :
  req_question req = Some q -> direct_command q = None ->
  req_sessionId req = Some id -> id <> "" -> store !! id = Some s ->
  fst (result ollama (chat w store req)) = store.
Proof.
  intros Hq Hd Hsid Hid Hs. unfold chat. rewrite Hq, Hd, Hsid.
  rewrite (resolve_chat_known w store id s Hid Hs), (held_true _ _ _ Hs).
  cbn [negb].
  destruct (dispatchTool w q) as [[tool data]|]; endpoint_fails;
    rewrite ?on_on; apply on_same; intros s' _; unfold compose;
    now rewrite ?pop_push.
Qed.

(** /analyze-csv after a failed call. *)
Lemma csv_failure (c : string) (records : list Csv.Record) :
  plain_id w store (req_sessionId req) ->
  req_csv req = Some c -> c <> "" -> parse w c = Ok records ->
  history_of (fst (result ollama (analyze_csv w store req)))
             (resolved_id w store (req_sessionId req)) =
  (history_before store (req_sessionId req) ++ [msg system (csv_instructions w)])%list.
Proof.
  intros Hpl Hc Hne Hparse. unfold analyze_csv.
  open_analyze w store req Hpl s1 Hs1.
  rewrite (present_nonempty _ _ Hc Hne), Hc. simpl.
  unfold csvToJson. rewrite Hparse.
  endpoint_fails. now read_history Hs1.
Qed.

(** /analyze-pdf after a failed call. *)
Lemma pdf_failure (p text : string) :
  plain_id w store (req_sessionId req) ->
  req_pdf req = Some p -> p <> "" -> pdf w p = Ok text ->
  history_of (fst (result ollama (analyze_pdf w store req)))
             (resolved_id w store (req_sessionId req)) =
  (history_before store (req_sessionId req) ++ [msg system (pdf_instructions w)])%list.
Proof.
  intros Hpl Hp Hne Hparse. unfold analyze_pdf.
  destruct (resolve_analyze_at w store (req_sessionId req) Hpl) as [Hid [s1 [Hs1 [Hh _]]]].
  destruct (resolve_analyze w store (req_sessionId req)) as [sessionId store'].
  simpl in Hid, Hs1. subst sessionId. rewrite <- Hh.
  rewrite (present_nonempty _ _ Hp Hne), Hp. simpl. rewrite Hparse, (held_true _ _ _ Hs1). simpl.
  endpoint_fails. now read_history Hs1.
Qed.

(** /analyze-image after a failed call: its error branch pops nothing,
    the system message and the user message stay. *)
Lemma image_failure (i : string) :
  plain_id w store (req_sessionId req) ->
  req_image req = Some i -> i <> "" ->
  history_of (fst (result ollama (analyze_image w store req)))
             (resolved_id w store (req_sessionId req)) =
  (history_before store (req_sessionId req) ++
   [msg system (image_instructions w);
    mkMessage user (or_default (req_prompt req) "Describe this image.") (Some [i])])%list.
Proof.
  intros Hpl Hi Hne. unfold analyze_image.
  open_analyze w store req Hpl s1 Hs1.
  rewrite (present_nonempty _ _ Hi Hne), Hi. simpl.
  endpoint_fails. now read_history Hs1.
Qed.

End Failure.

End RollbackFacts.

Module RollbackTheorems.
Import JS Server Notions TextFacts StoreFacts HandlerFacts RollbackFacts.

Lemma session_at_some (store : Store) (sessionId : option string) (s : Session) :
  session_at store sessionId = Some s ->
  exists id, sessionId = Some id /\ id <> "" /\ store !! id = Some s.
Proof.
  destruct sessionId as [id|]; [| discriminate].
  unfold session_at. destruct id as [|c id]; [discriminate |].
  intros H. eexists. split; [reflexivity | split; [discriminate | exact H]].
Qed.

(** C3, as the code has it.  When the inference call fails, /chat,
    /analyze-csv and /analyze-pdf pop the user message they pushed
    (and /chat the tool-output message it pushed), so that the failed
    turn leaves nothing behind: on a session the store holds, /chat
    leaves the store as it was before the call; a session the call
    created holds the system message alone; after /analyze-csv and
    /analyze-pdf the history is the one before the call followed by the
    system message these handlers push on every call (for a request
    whose session id names no inherited member of the store object). *)
Theorem inference_failure_rollback (w : Externals) (store : Store) (req : Request)
    (ollama : Call -> Reply) :
  always_fails ollama ->
  let sessionId := req_sessionId req in
  let id := resolved_id w store sessionId in
  let before := history_before store sessionId in
  (forall q, req_question req = Some q -> direct_command q = None ->
     let store' := fst (result ollama (chat w store req)) in
     history_of store' id =
       (if unknown w store sessionId then [msg system (chat_instructions w)] else before) /\
     (forall s, session_at store sessionId = Some s ->
        store' = store /\ length (history_of store' id) = length before)) /\
  (forall c records, plain_id w store sessionId ->
     req_csv req = Some c -> c <> "" -> parse w c = Ok records ->
     let store' := fst (result ollama (analyze_csv w store req)) in
     history_of store' id = (before ++ [msg system (csv_instructions w)])%list) /\
  (forall p text, plain_id w store sessionId ->
     req_pdf req = Some p -> p <> "" -> pdf w p = Ok text ->
     let store' := fst (result ollama (analyze_pdf w store req)) in
     history_of store' id = (before ++ [msg system (pdf_instructions w)])%list).
Proof.
  intros Hfail. cbv zeta. split; [| split].
  - intros q Hq Hd. split; [exact (chat_failure w store req ollama Hfail q Hq Hd) |].
    intros s Hs. destruct (session_at_some _ _ _ Hs) as [id [Hsid [Hid Hlook]]].
    rewrite (chat_failure_known w store req ollama Hfail q id s Hq Hd Hsid Hid Hlook).
    split; [reflexivity |].
    unfold history_before. rewrite Hs. unfold resolved_id, resolve.
    rewrite Hsid, (unknown_known w store id s Hid Hlook). simpl.
    unfold history_of. now rewrite Hlook.
  - intros c records Hpl Hc Hne Hparse.
    now apply (csv_failure w store req ollama Hfail c records).
  - intros p text Hpl Hp Hne Hparse.
    now apply (pdf_failure w store req ollama Hfail p text).
Qed.

(** A question that triggers the date tool, on a session in use, with
    the endpoint down: the store is as before. *)
Lemma inference_failure_rollback_witness :
  fst (result Sample.down
         (chat Sample.world Sample.one_session (Sample.ask "what time is it?" (Some "s1")))) =
  Sample.one_session.
Proof.
  assert (Hdown : always_fails Sample.down) by (intros c; eexists; reflexivity).
  destruct (inference_failure_rollback Sample.world Sample.one_session
              (Sample.ask "what time is it?" (Some "s1")) Sample.down Hdown)
    as [Hchat _].
  destruct (Hchat "what time is it?" eq_refl eq_refl) as [_ Hknown].
  exact (proj1 (Hknown Sample.busy eq_refl)).
Defined.

(** C3 as stated fails.  /chat without a session id creates and primes
    a session, and the failed call leaves the system message in it; the
    error branch of /analyze-image pops nothing, so the system message
    and the user message stay. *)
Lemma inference_failure_rollback_counterexample :
  let fresh := fst (result Sample.down (chat Sample.world ∅ (Sample.ask "hello" None))) in
  let seen := fst (result Sample.down
                     (analyze_image Sample.world Sample.one_session
                        (Sample.with_image (Some "aGVsbG8=") (Some "s1")))) in
  length (history_of fresh (uuidv4 Sample.world)) <> length (history_before ∅ None) /\
  length (history_of seen "s1") <> length (history_of Sample.one_session "s1") /\
  length (history_of fresh (uuidv4 Sample.world)) = 1 /\
  length (history_of seen "s1") = 5.
Proof. vm_compute. repeat split; discriminate. Qed.

End RollbackTheorems.

(** ** Priming a session with the instructions *)

Module PrimingFacts.
Import JS Server Notions TextFacts StoreFacts HandlerFacts.

Section AnyReply.
Context (w : Externals) (store : Store) (req : Request) (ollama : Call -> Reply).

Ltac endpoint_replies text :=
  unfold result; simpl;
  match goal with |- context [ollama ?c] => destruct (ollama c) as [? | text] end;
  simpl.

(** What /chat appends to the history the resolved session has. *)
Lemma chat_history (q : string) :
  req_question req = Some q -> direct_command q = None ->
  let base := if unknown w store (req_sessionId req)
              then [msg system (chat_instructions w)]
              else history_before store (req_sessionId req) in
  let after := history_of (fst (result ollama (chat w store req)))
                          (resolved_id w store (req_sessionId req)) in
  after = base \/
  exists text,
    after = (base ++ tool_messages w q ++ [msg user q; msg assistant text])%list.
Proof.
  intros Hq Hd. cbv zeta.
  destruct (plain_or_heir w store (req_sessionId req)) as [Hp | [h Hh]].
  - unfold chat. rewrite Hq, Hd.
    open_chat w store req Hp s1 Hs1. unfold tool_messages.
    destruct (dispatchTool w q) as [[tool data]|]; endpoint_replies text;
      read_history Hs1; first [now left | right; now exists text].
  - left. rewrite (chat_heir w store req h Hh q Hq Hd).
    destruct (resolve_heir w store _ h Hh) as (id & _ & _ & Hs & _ & Hu & Hr & _).
    unfold resolved_id, history_before. rewrite Hu, Hr. simpl.
    destruct (lookup_cases w store (req_sessionId req))
      as [[_ [_ E]] | [(j & s & _ & _ & _ & _ & _ & E) | (j & h' & _ & _ & _ & _ & _ & -> & _)]];
      try congruence.
    unfold history_of. now rewrite Hs.
Qed.

(** /analyze-csv pushes its instructions whatever the request and the
    history are. *)
Lemma csv_history :
  plain_id w store (req_sessionId req) ->
  exists tail,
    history_of (fst (result ollama (analyze_csv w store req)))
               (resolved_id w store (req_sessionId req)) =
    (history_before store (req_sessionId req) ++
     msg system (csv_instructions w) :: tail)%list.
Proof.
  intros Hpl. unfold analyze_csv. open_analyze w store req Hpl s1 Hs1.
  destruct (negb (present (req_csv req))).
  - unfold result; simpl. read_history Hs1. now eexists.
  - destruct (csvToJson (parse w) (default "" (req_csv req))) as [records | e].
    + endpoint_replies text; read_history Hs1; now eexists.
    + unfold result; simpl. read_history Hs1. now eexists.
Qed.

(** So does /analyze-image. *)
Lemma image_history :
  plain_id w store (req_sessionId req) ->
  exists tail,
    history_of (fst (result ollama (analyze_image w store req)))
               (resolved_id w store (req_sessionId req)) =
    (history_before store (req_sessionId req) ++
     msg system (image_instructions w) :: tail)%list.
Proof.
  intros Hpl. unfold analyze_image. open_analyze w store req Hpl s1 Hs1.
  destruct (present (req_image req)); simpl.
  - endpoint_replies text.
    + read_history Hs1. now eexists.
    + destruct (fileTypeToGenerate (classify_image_first text)) as [[|]|];
        [destruct (embedded_csv w text (classify_image_first text)) as [[r d] t] | |];
        simpl; read_history Hs1; now eexists.
  - unfold result; simpl. read_history Hs1. now eexists.
Qed.

(** /analyze-pdf does once the PDF is there and its text is read. *)
Lemma pdf_history (p text : string) :
  plain_id w store (req_sessionId req) ->
  req_pdf req = Some p -> p <> "" -> pdf w p = Ok text ->
  exists tail,
    history_of (fst (result ollama (analyze_pdf w store req)))
               (resolved_id w store (req_sessionId req)) =
    (history_before store (req_sessionId req) ++
     msg system (pdf_instructions w) :: tail)%list.
Proof.
  intros Hpl Hp Hne Hparse. unfold analyze_pdf.
  destruct (resolve_analyze_at w store (req_sessionId req) Hpl) as [Hid [s1 [Hs1 [Hh _]]]].
  destruct (resolve_analyze w store (req_sessionId req)) as [sessionId store'].
  simpl in Hid, Hs1. subst sessionId. rewrite <- Hh.
  rewrite (present_nonempty _ _ Hp Hne), Hp. simpl.
  rewrite Hparse, (held_true _ _ _ Hs1). cbn [negb].
  endpoint_replies reply; read_history Hs1; now eexists.
Qed.

End AnyReply.

End PrimingFacts.

Module PrimingTheorems.
Import JS Server Notions TextFacts StoreFacts HandlerFacts PrimingFacts.

(** C4, as the code has it.  /chat pushes its instructions only when
    it creates the session, hence onto an empty history: to the history
    of a session the store holds it appends nothing, or the
    tool-output message (if any), the question and the answer.  The
    analyze-* handlers push their instructions after the history the
    request found whether that history is empty or not: /analyze-csv
    and /analyze-image on every call, /analyze-pdf on every call whose
    PDF is present and readable (for a request whose session id names
    no inherited member of the store object).  A history can so hold
    several system messages. *)
Theorem system_message_priming (w : Externals) (store : Store) (req : Request)
    (ollama : Call -> Reply) :
  let sessionId := req_sessionId req in
  let id := resolved_id w store sessionId in
  let before := history_before store sessionId in
  (forall q, req_question req = Some q -> direct_command q = None ->
     let base := if unknown w store sessionId
                 then [msg system (chat_instructions w)]
                 else before in
     let after := history_of (fst (result ollama (chat w store req))) id in
     after = base \/
     exists text,
       after = (base ++ tool_messages w q ++ [msg user q; msg assistant text])%list) /\
  (plain_id w store sessionId ->
   exists tail,
     history_of (fst (result ollama (analyze_csv w store req))) id =
     (before ++ msg system (csv_instructions w) :: tail)%list) /\
  (plain_id w store sessionId ->
   exists tail,
     history_of (fst (result ollama (analyze_image w store req))) id =
     (before ++ msg system (image_instructions w) :: tail)%list) /\
  (forall p text, plain_id w store sessionId ->
     req_pdf req = Some p -> p <> "" -> pdf w p = Ok text ->
     exists tail,
       history_of (fst (result ollama (analyze_pdf w store req))) id =
       (before ++ msg system (pdf_instructions w) :: tail)%list).
Proof.
  cbv zeta. split; [| split; [| split]].
  - intros q Hq Hd. exact (chat_history w store req ollama q Hq Hd).
  - apply csv_history.
  - apply image_history.
  - intros p text Hpl Hp Hne Hparse.
    exact (pdf_history w store req ollama p text Hpl Hp Hne Hparse).
Qed.

(** A further question on a session in use: the history grows by the
    question and the answer, or not at all. *)
Lemma system_message_priming_witness :
  let req := Sample.ask "hello again" (Some "s1") in
  let after := history_of (fst (result (Sample.answering "Hello!")
                                  (chat Sample.world Sample.one_session req))) "s1" in
  after = history Sample.busy \/
  exists text,
    after = (history Sample.busy ++
             [msg user "hello again"; msg assistant text])%list.
Proof.
  exact (proj1 (system_message_priming Sample.world Sample.one_session
                  (Sample.ask "hello again" (Some "s1")) (Sample.answering "Hello!"))
               "hello again" eq_refl eq_refl).
Defined.

(** C4 as stated fails: /analyze-csv on a session whose history is not
    empty and already opens with a system message pushes its own, and
    the history then holds two. *)
Lemma system_message_priming_counterexample :
  let req := Sample.with_csv (Some Sample.small_table) (Some "s1") in
  let after := history_of (fst (result (Sample.answering "One row, one city.")
                                  (analyze_csv Sample.world Sample.one_session req))) "s1" in
  history_of Sample.one_session "s1" <> [] /\
  length (system_messages (history_of Sample.one_session "s1")) = 1 /\
  after !! 3 = Some (msg system (csv_instructions Sample.world)) /\
  length (system_messages after) = 2.
Proof. vm_compute. repeat split; discriminate. Qed.

End PrimingTheorems.

(** ** Requests with a missing field *)

Module ValidationFacts.
Import JS Server Notions TextFacts StoreFacts HandlerFacts.

Lemma missing_blank (o : option string) : missing o -> blank o = true.
Proof. intros [-> | ->]; reflexivity. Qed.

Lemma missing_present (o : option string) : missing o -> present o = false.
Proof. intros [-> | ->]; reflexivity. Qed.

(** The resolution of an analyze-* handler touches one entry. *)
Lemma resolve_analyze_frame (w : Externals) (store : Store) (sessionId : option string)
    (j : string) :
  j <> resolved_id w store sessionId ->
  snd (resolve_analyze w store sessionId) !! j = store !! j.
Proof.
  unfold resolve_analyze, resolved_id, resolve.
  destruct (unknown w store sessionId); simpl; intros H.
  - now apply lookup_insert_ne.
  - now apply lookup_alter_ne.
Qed.

Lemma pdf_refused (w : Externals) (store : Store) (req : Request) (ollama : Call -> Reply) :
  plain_id w store (req_sessionId req) ->
  missing (req_pdf req) ->
  let answer := result ollama (analyze_pdf w store req) in
  calls ollama (analyze_pdf w store req) = [] /\
  status_of (snd answer) = Some 400 /\
  left_behind store (fst answer) (resolved_id w store (req_sessionId req))
              (history_before store (req_sessionId req)).
Proof.
  intros Hpl Hm. cbv zeta. unfold analyze_pdf, left_behind.
  pose proof (resolve_analyze_frame w store (req_sessionId req)) as Hframe.
  destruct (resolve_analyze_at w store (req_sessionId req) Hpl)
    as [Hid [s1 [Hs1 [Hh [Hd Hi]]]]].
  destruct (resolve_analyze w store (req_sessionId req)) as [id st]. simpl in *.
  subst id. rewrite ?(held_true _ _ _ Hs1), (missing_present _ Hm).
  unfold calls, result. simpl.
  repeat split; [| exact Hframe]. now exists s1.
Qed.

Lemma csv_refused (w : Externals) (store : Store) (req : Request) (ollama : Call -> Reply) :
  plain_id w store (req_sessionId req) ->
  missing (req_csv req) ->
  let answer := result ollama (analyze_csv w store req) in
  calls ollama (analyze_csv w store req) = [] /\
  status_of (snd answer) = Some 400 /\
  left_behind store (fst answer) (resolved_id w store (req_sessionId req))
              (history_before store (req_sessionId req) ++
               [msg system (csv_instructions w)])%list.
Proof.
  intros Hpl Hm. cbv zeta. unfold analyze_csv, left_behind.
  pose proof (resolve_analyze_frame w store (req_sessionId req)) as Hframe.
  destruct (resolve_analyze_at w store (req_sessionId req) Hpl)
    as [Hid [s1 [Hs1 [Hh [Hd Hi]]]]].
  destruct (resolve_analyze w store (req_sessionId req)) as [id st]. simpl in *.
  subst id. rewrite ?(held_true _ _ _ Hs1), (missing_present _ Hm).
  unfold calls, result. simpl.
  repeat split.
  - eexists. rewrite (lookup_on _ _ _ _ Hs1). split; [reflexivity |].
    simpl. now rewrite Hh.
  - intros j Hj. rewrite lookup_on_ne by congruence. now apply Hframe.
Qed.

Lemma image_refused (w : Externals) (store : Store) (req : Request) (ollama : Call -> Reply) :
  plain_id w store (req_sessionId req) ->
  missing (req_image req) ->
  let answer := result ollama (analyze_image w store req) in
  calls ollama (analyze_image w store req) = [] /\
  status_of (snd answer) = Some 400 /\
  left_behind store (fst answer) (resolved_id w store (req_sessionId req))
              (history_before store (req_sessionId req) ++
               [msg system (image_instructions w)])%list.
Proof.
  intros Hpl Hm. cbv zeta. unfold analyze_image, left_behind.
  pose proof (resolve_analyze_frame w store (req_sessionId req)) as Hframe.
  destruct (resolve_analyze_at w store (req_sessionId req) Hpl)
    as [Hid [s1 [Hs1 [Hh [Hd Hi]]]]].
  destruct (resolve_analyze w store (req_sessionId req)) as [id st]. simpl in *.
  subst id. rewrite ?(held_true _ _ _ Hs1), (missing_present _ Hm).
  unfold calls, result. simpl.
  repeat split.
  - eexists. rewrite (lookup_on _ _ _ _ Hs1). split; [reflexivity |].
    simpl. now rewrite Hh.
  - intros j Hj. rewrite lookup_on_ne by congruence. now apply Hframe.
Qed.

(** /chat has no test of its question: an absent one raises before
    anything is touched and no response is sent; an empty one goes to
    the model. *)
Lemma chat_without_question (w : Externals) (store : Store) (req : Request)
    (ollama : Call -> Reply) :
  (req_question req = None ->
     calls ollama (chat w store req) = [] /\
     fst (result ollama (chat w store req)) = store /\
     status_of (snd (result ollama (chat w store req))) = None) /\
  (req_question req = Some "" -> plain_id w store (req_sessionId req) ->
     exists messages,
       calls ollama (chat w store req) = [api_chat OLLAMA_DEFAULT_MODEL messages]).
Proof.
  split.
  - intros Hq. unfold chat. rewrite Hq. unfold calls, result. simpl. repeat split.
  - intros Hq Hpl. unfold chat. rewrite Hq.
    change (direct_command "") with (@None (FileType * string)). cbv beta iota.
    open_chat w store req Hpl s1 Hs1.
    change (dispatchTool w "") with (@None (string * string)). cbv beta iota zeta.
    unfold calls. simpl.
    match goal with |- context [ollama ?c] => destruct (ollama c) end;
      simpl; eexists; reflexivity.
Qed.

End ValidationFacts.

Module ValidationTheorems.
Import JS Server Notions TextFacts StoreFacts HandlerFacts ValidationFacts.

(** C5, as the code has it.  /generate-csv and /generate-image test
    their prompt first: when it is absent or empty they answer 400 and
    leave the store as it was.  The analyze-* handlers answer 400 to an
    absent or empty csv, pdf or image without calling the model, but
    only once the session is resolved: a session is created for a new
    or unknown id, the analyzed data and image of a known one are reset,
    and /analyze-csv and /analyze-image have pushed their system
    message; the other sessions are untouched (for a request whose
    session id names no inherited member of the store object). *)
Theorem validation_of_requests (w : Externals) (store : Store) (req : Request)
    (ollama : Call -> Reply) :
  let sessionId := req_sessionId req in
  let id := resolved_id w store sessionId in
  let before := history_before store sessionId in
  (missing (req_prompt req) ->
     (calls ollama (generate_csv w store req) = [] /\
      fst (result ollama (generate_csv w store req)) = store /\
      status_of (snd (result ollama (generate_csv w store req))) = Some 400) /\
     (calls ollama (generate_image w store req) = [] /\
      fst (result ollama (generate_image w store req)) = store /\
      status_of (snd (result ollama (generate_image w store req))) = Some 400)) /\
  (plain_id w store sessionId -> missing (req_pdf req) ->
     let answer := result ollama (analyze_pdf w store req) in
     calls ollama (analyze_pdf w store req) = [] /\
     status_of (snd answer) = Some 400 /\
     left_behind store (fst answer) id before) /\
  (plain_id w store sessionId -> missing (req_csv req) ->
     let answer := result ollama (analyze_csv w store req) in
     calls ollama (analyze_csv w store req) = [] /\
     status_of (snd answer) = Some 400 /\
     left_behind store (fst answer) id (before ++ [msg system (csv_instructions w)])%list) /\
  (plain_id w store sessionId -> missing (req_image req) ->
     let answer := result ollama (analyze_image w store req) in
     calls ollama (analyze_image w store req) = [] /\
     status_of (snd answer) = Some 400 /\
     left_behind store (fst answer) id (before ++ [msg system (image_instructions w)])%list).
Proof.
  cbv zeta. split; [| split; [| split]].
  - intros Hm. unfold generate_csv, generate_image.
    rewrite (missing_blank _ Hm). unfold calls, result. simpl. repeat split.
  - apply pdf_refused.
  - apply csv_refused.
  - apply image_refused.
Qed.

(** /generate-csv with an empty prompt, for a session in use. *)
Lemma validation_of_requests_witness :
  let req := Sample.with_prompt (Some "") (Some "s1") in
  calls Sample.down (generate_csv Sample.world Sample.one_session req) = [] /\
  fst (result Sample.down (generate_csv Sample.world Sample.one_session req)) =
    Sample.one_session /\
  status_of (snd (result Sample.down (generate_csv Sample.world Sample.one_session req))) =
    Some 400.
Proof.
  exact (proj1 (proj1 (validation_of_requests Sample.world Sample.one_session
                         (Sample.with_prompt (Some "") (Some "s1")) Sample.down)
                      (or_intror eq_refl))).
Defined.

(** C5 as stated fails.  /chat without a question sends no response,
    so no client error; /analyze-csv without a csv, on a session that
    holds a picture, answers 400 after it has dropped the picture and
    pushed a message. *)
Lemma validation_of_requests_counterexample :
  let chat_out :=
    snd (result Sample.down
           (chat Sample.world Sample.one_session (Sample.for_session (Some "s1")))) in
  let csv_answer :=
    result Sample.down
      (analyze_csv Sample.world Sample.picture_session (Sample.with_csv None (Some "s2"))) in
  status_of chat_out = None /\
  status_of (snd csv_answer) = Some 400 /\
  analyzedImage <$> Sample.picture_session !! "s2" = Some (Some "aGVsbG8=") /\
  analyzedImage <$> fst csv_answer !! "s2" = Some None /\
  length (history_of Sample.picture_session "s2") = 3 /\
  length (history_of (fst csv_answer) "s2") = 4.
Proof. vm_compute. repeat split. Qed.

End ValidationTheorems.

(** ** The results of /generate-csv *)

Module GenerationTheorems.
Import JS Server Notions TextFacts TrimFacts.

(** C8, as the code has it.  When the text /generate-csv ends with is
    empty or holds white space only (of any of the kinds [trim]
    strips), the endpoint answers with status 500, the message
    "Generated empty CSV. Please refine your prompt or data.", an empty
    csvContent and the file name empty_generated.csv, and no error
    field: a failure, told apart from the other answers by its body,
    not by its status.  A text with anything else in it is answered
    with status 200 and that text; a generation that fails (the call
    to the model, or the conversion of the array it fenced) is answered
    with status 500, the message "Failed to generate CSV", an error
    field and no csvContent. *)
Theorem empty_csv_result (w : Externals) (store : Store) (req : Request)
    (ollama : Call -> Reply) :
  blank (req_prompt req) = false ->
  let out := snd (result ollama (generate_csv w store req)) in
  (forall raw content,
     (forall c, ollama c = replied raw) ->
     final_csv_content w raw = Ok content -> spaces content ->
     status_of out = Some 500 /\
     field "message" (body_of out) =
       str "❌ Generated empty CSV. Please refine your prompt or data." /\
     field "csvContent" (body_of out) = str "" /\
     field "fileName" (body_of out) = str "empty_generated.csv" /\
     field "error" (body_of out) = undefined) /\
  (forall raw content,
     (forall c, ollama c = replied raw) ->
     final_csv_content w raw = Ok content -> ~ spaces content ->
     status_of out = Some 200 /\
     field "message" (body_of out) = str "✅ CSV content generated successfully" /\
     field "csvContent" (body_of out) = str content /\
     field "fileName" (body_of out) = str "generated_data.csv") /\
  (forall raw m,
     (forall c, ollama c = replied raw) ->
     final_csv_content w raw = Err m ->
     status_of out = Some 500 /\
     field "message" (body_of out) = str "❌ Failed to generate CSV" /\
     field "error" (body_of out) = str m /\
     field "csvContent" (body_of out) = undefined) /\
  (forall m,
     (forall c, ollama c = failed m) ->
     status_of out = Some 500 /\
     field "message" (body_of out) = str "❌ Failed to generate CSV" /\
     field "error" (body_of out) = str "Failed to generate content from Ollama." /\
     field "csvContent" (body_of out) = undefined).
Proof.
  intros Hp. cbv zeta. unfold generate_csv. rewrite Hp.
  unfold result. cbn [run]. repeat apply conj.
  - intros raw content Hreply Hfinal Hs. rewrite Hreply. cbv beta iota.
    rewrite Hfinal. cbv beta iota. rewrite (proj2 (blank_spaces content) Hs).
    simpl. repeat split.
  - intros raw content Hreply Hfinal Hs. rewrite Hreply. cbv beta iota.
    rewrite Hfinal. cbv beta iota.
    destruct (blank (Some content)) eqn:E.
    + exfalso. now apply Hs, blank_spaces.
    + simpl. repeat split.
  - intros raw m Hreply Hfinal. rewrite Hreply. cbv beta iota.
    rewrite Hfinal. simpl. repeat split.
  - intros m Hreply. rewrite Hreply. simpl. repeat split.
Qed.

(** The model answers with a no-break space, an ideographic space and
    blanks. *)
Lemma empty_csv_result_witness :
  let req := Sample.with_prompt (Some "five fruits") None in
  let blanks := Sample.nbsp +:+ Sample.wide_space +:+ "  " in
  let out := snd (result (Sample.answering blanks) (generate_csv Sample.world ∅ req)) in
  status_of out = Some 500 /\
  field "message" (body_of out) =
    str "❌ Generated empty CSV. Please refine your prompt or data." /\
  field "error" (body_of out) = undefined.
Proof.
  cbv zeta.
  destruct (proj1 (empty_csv_result Sample.world ∅
                     (Sample.with_prompt (Some "five fruits") None)
                     (Sample.answering (Sample.nbsp +:+ Sample.wide_space +:+ "  "))
                     eq_refl)
              (Sample.nbsp +:+ Sample.wide_space +:+ "  ")
              (Sample.nbsp +:+ Sample.wide_space +:+ "  ")
              (fun _ => eq_refl) eq_refl
              (proj1 (all_white_spaces (Sample.nbsp +:+ Sample.wide_space +:+ "  ")) eq_refl))
    as [H1 [H2 [_ [_ H5]]]].
  split; [exact H1 | split; [exact H2 | exact H5]].
Defined.

(** C8 as stated fails: the status of the answer to an empty result is
    500, not a success status. *)
Lemma empty_csv_result_counterexample :
  let req := Sample.with_prompt (Some "five fruits") None in
  let out := snd (result (Sample.answering "") (generate_csv Sample.world ∅ req)) in
  final_csv_content Sample.world "" = Ok "" /\
  status_of out = Some 500 /\
  status_of out <> Some 200.
Proof. vm_compute. repeat split. discriminate. Qed.

(** The other way to an empty result: the model answers with a fenced
    empty array, which [jsonToCsv] turns into the empty text. *)
Example empty_array_is_empty_result :
  final_csv_content Sample.world_with_json Sample.fenced_empty_array = Ok "" /\
  snd (result (Sample.answering Sample.fenced_empty_array)
         (generate_csv Sample.world_with_json ∅
            (Sample.with_prompt (Some "five fruits") None))) =
  empty_csv_response.
Proof. split; reflexivity. Qed.

(** A fenced array the CSV writer refuses: the generation fails. *)
Example refused_array_is_failure :
  snd (result (Sample.answering Sample.fenced_numbers)
         (generate_csv Sample.world_with_numbers ∅
            (Sample.with_prompt (Some "five fruits") None))) =
  failed_csv_response
    "Failed to convert JSON to CSV: Invalid Record: expect an array or an object, got 1".
Proof. reflexivity. Qed.

End GenerationTheorems.

(** ** Searching a text *)

Module SearchFacts.
Import JS Notions MoreNotions TextFacts.

Lemma length_substring_to (i : nat) (s : string) :
  i <= String.length s -> String.length (substring_to i s) = i.
Proof.
  revert s. induction i as [|i IH]; intros s H; [reflexivity |].
  destruct s as [|c s]; simpl in *; [lia |]. rewrite IH; lia.
Qed.

Lemma substring_append_le (n : nat) (x y : string) :
  n <= String.length x -> substring n (x +:+ y) = substring n x +:+ y.
Proof.
  revert x. induction n as [|n IH]; intros x H; [reflexivity |].
  destruct x as [|c x]; simpl in H; [lia |].
  push_append. simpl. apply IH. lia.
Qed.

(** Where [indexOf] finds [p], [p] is. *)
Lemma indexOf_split (s p : string) (i : nat) :
  indexOf s p = Some i ->
  s = substring_to i s +:+ p +:+ substring (i + String.length p) s /\
  String.length (substring_to i s) = i.
Proof.
  revert i. induction s as [|c s IH]; intros i; simpl.
  - destruct (startsWith "" p) eqn:E; [| discriminate].
    intros [= <-]. split; [| reflexivity].
    simpl. push_append. now apply startsWith_split.
  - destruct (startsWith (String c s) p) eqn:E.
    + intros [= <-]. split; [| reflexivity].
      simpl substring_to. push_append. now apply startsWith_split.
    + destruct (indexOf s p) as [i'|] eqn:Ei; [| discriminate].
      intros [= <-]. destruct (IH i' eq_refl) as [H1 H2].
      simpl. push_append. split; [now f_equal | now f_equal].
Qed.

(** [indexOf] finds the leftmost occurrence. *)
Lemma indexOf_least (s p : string) (i : nat) :
  indexOf s p = Some i ->
  forall pre post, s = pre +:+ p +:+ post -> i <= String.length pre.
Proof.
  revert i. induction s as [|c s IH]; intros i; simpl.
  - destruct (startsWith "" p); [| discriminate]. intros [= <-]. lia.
  - destruct (startsWith (String c s) p) eqn:E; [intros [= <-]; lia |].
    destruct (indexOf s p) as [i'|] eqn:Ei; [| discriminate].
    intros [= <-] pre post H. destruct pre as [|d pre].
    + exfalso. rewrite H, append_nil_l, startsWith_append in E. discriminate.
    + rewrite append_cons in H. injection H as _ H.
      simpl. specialize (IH i' eq_refl pre post H). lia.
Qed.

(** [indexOf] finds every text that occurs. *)
Lemma indexOf_occurs (pre p post : string) :
  exists i, indexOf (pre +:+ p +:+ post) p = Some i /\ i <= String.length pre.
Proof.
  induction pre as [|c pre IH].
  - exists 0. push_append. split; [| lia].
    destruct (p +:+ post) eqn:E; simpl; rewrite <- E, startsWith_append; reflexivity.
  - destruct IH as [i [Hi Hle]]. push_append. simpl.
    destruct (startsWith (String c (pre +:+ p +:+ post)) p).
    + exists 0. split; [reflexivity | lia].
    + exists (S i). rewrite Hi. split; [reflexivity | simpl; lia].
Qed.

Lemma indexOf_None (s p : string) : indexOf s p = None -> ~ occurs p s.
Proof.
  intros H [pre [post ->]].
  destruct (indexOf_occurs pre p post) as [i [Hi _]]. congruence.
Qed.

Lemma indexOf_Some_occurs (s p : string) (i : nat) : indexOf s p = Some i -> occurs p s.
Proof. intros H. destruct (indexOf_split s p i H) as [E _]. eexists _, _. exact E. Qed.

(** [s.includes(p)] holds exactly when [p] occurs in [s]. *)
Lemma includes_occurs (s p : string) : includes s p = true <-> occurs p s.
Proof.
  unfold includes. split.
  - destruct (indexOf s p) eqn:E; [| discriminate]. intros _.
    now apply (indexOf_Some_occurs s p n).
  - intros [pre [post ->]].
    destruct (indexOf_occurs pre p post) as [i [-> _]]. reflexivity.
Qed.

End SearchFacts.

(** ** The fenced JSON block *)

Module FenceFacts.
Import JS Notions MoreNotions TextFacts SearchFacts.

(** The fenced JSON block of lines 412 and 678.  When the regular
    expression matches, the match is an opening fence, the group and a
    closing fence; it occurs in the text, no opening fence starts before
    it, and the group holds no closing fence.  It fails to match exactly
    when the text holds no opening fence followed by a closing fence. *)
Theorem fenced_block_meaning (text : string) :
  (forall whole group,
     match_json_block text = Some (whole, group) ->
     whole = json_open +:+ group +:+ json_close /\
     ~ occurs json_close group /\
     exists pre post,
       text = pre +:+ whole +:+ post /\
       forall pre' post', text = pre' +:+ json_open +:+ post' ->
                          String.length pre <= String.length pre') /\
  (match_json_block text = None <->
   ~ exists pre body post,
       text = pre +:+ json_open +:+ body +:+ json_close +:+ post).
Proof.
  unfold match_json_block. split.
  - intros whole group.
    destruct (indexOf text json_open) as [p|] eqn:Ep; [| discriminate].
    set (body := substring (p + String.length json_open) text).
    destruct (indexOf body json_close) as [q|] eqn:Eq; [| discriminate].
    intros [= <- <-].
    destruct (indexOf_split _ _ _ Ep) as [Ht Hp]. fold body in Ht.
    destruct (indexOf_split _ _ _ Eq) as [Hb Hq].
    set (post := substring (q + String.length json_close) body) in *.
    split; [reflexivity | split].
    + intros [a [b Hg]].
      assert (Hle : q <= String.length a).
      { apply (indexOf_least _ _ _ Eq a (b +:+ json_close +:+ post)).
        rewrite Hb at 1. rewrite Hg. now rewrite !append_assoc. }
      apply (f_equal String.length) in Hg. rewrite Hq, !length_append in Hg.
      simpl in Hg. lia.
    + exists (substring_to p text), post.
      split.
      * rewrite Ht at 1. rewrite Hb at 1. now rewrite !append_assoc.
      * intros pre' post' H. rewrite Hp. exact (indexOf_least _ _ _ Ep pre' post' H).
  - split.
    + intros Hnone [pre [body [post Ht]]].
      destruct (indexOf_occurs pre json_open (body +:+ json_close +:+ post))
        as [p [Ep Hle]].
      rewrite <- Ht in Ep. rewrite Ep in Hnone.
      set (rest := substring (p + String.length json_open) text) in *.
      assert (Hb : rest =
                   (substring (p + String.length json_open) (pre +:+ json_open) +:+ body)
                   +:+ json_close +:+ post).
      { unfold rest. rewrite Ht at 1. rewrite <- (append_assoc pre json_open).
        rewrite substring_append_le by (rewrite length_append; lia).
        now rewrite append_assoc. }
      destruct (indexOf_occurs
                  (substring (p + String.length json_open) (pre +:+ json_open) +:+ body)
                  json_close post) as [q [Eqq _]].
      rewrite <- Hb in Eqq. rewrite Eqq in Hnone. discriminate.
    + intros Hno.
      destruct (indexOf text json_open) as [p|] eqn:Ep; [| reflexivity].
      set (body := substring (p + String.length json_open) text).
      destruct (indexOf body json_close) as [q|] eqn:Eq; [| reflexivity].
      exfalso. apply Hno.
      destruct (indexOf_split _ _ _ Ep) as [Ht _]. fold body in Ht.
      destruct (indexOf_split _ _ _ Eq) as [Hb _].
      eexists _, _, _. rewrite Ht at 1. rewrite Hb at 1. reflexivity.
Qed.

Lemma fenced_block_meaning_witness :
  match_json_block Sample.fenced_empty_array = Some (Sample.fenced_empty_array, "[]") /\
  ~ occurs json_close "[]".
Proof.
  split; [reflexivity |].
  exact (proj1 (proj2 (proj1 (fenced_block_meaning Sample.fenced_empty_array)
                         Sample.fenced_empty_array "[]" eq_refl))).
Defined.

End FenceFacts.

(** ** The handlers as a whole *)

Module RunFacts.
Import JS Server Notions MoreNotions TextFacts StoreFacts HandlerFacts ValidationFacts.

Lemma result_return {A : Type} (ollama : Call -> Reply) (a : A) :
  result ollama (Return a) = a.
Proof. reflexivity. Qed.

Lemma result_await {A : Type} (ollama : Call -> Reply) (c : Call) (k : Reply -> Handler A) :
  result ollama (Await c k) = result ollama (k (ollama c)).
Proof. unfold result. simpl. now destruct (run ollama (k (ollama c))). Qed.

Lemma calls_return {A : Type} (ollama : Call -> Reply) (a : A) :
  calls ollama (Return a) = [].
Proof. reflexivity. Qed.

Lemma calls_await {A : Type} (ollama : Call -> Reply) (c : Call) (k : Reply -> Handler A) :
  calls ollama (Await c k) = c :: calls ollama (k (ollama c)).
Proof. unfold calls. simpl. now destruct (run ollama (k (ollama c))). Qed.

Lemma one_shot_calls {A : Type} (h : Handler A) (ollama : Call -> Reply) :
  one_shot h -> length (calls ollama h) <= 1.
Proof.
  intros [[a ->] | [c [k [-> Hk]]]].
  - simpl. lia.
  - rewrite calls_await. destruct (Hk (ollama c)) as [a ->]. simpl. lia.
Qed.

(** The resolution of /chat touches one entry. *)
Lemma resolve_chat_frame (w : Externals) (store : Store) (sessionId : option string)
    (j : string) :
  j <> resolved_id w store sessionId ->
  snd (resolve_chat w store sessionId) !! j = store !! j.
Proof.
  unfold resolve_chat, resolved_id, resolve.
  destruct (unknown w store sessionId); simpl; intros H; [| reflexivity].
  rewrite lookup_on_ne by congruence. now apply lookup_insert_ne.
Qed.

(** For a session id that names an inherited member, the four handlers
    that work on the history return at once, the store as it was: they
    throw where they reach for the history, unless the request is
    settled before (/chat by a direct command or for want of a
    question, /analyze-pdf for want of a readable PDF). *)
Lemma heir_returns (e : Endpoint) (w : Externals) (store : Store) (req : Request)
    (h : Heir) :
  heir_at w store (req_sessionId req) = Some h ->
  (exists out, handle e w store req = Return (store, out) /\
     (out = threw no_history \/
      (e = to_chat /\ req_question req = None /\ status_of out = None) \/
      (e = to_chat /\ exists q d, req_question req = Some q /\ direct_command q = Some d) \/
      (e = to_analyze_pdf /\ exists m, out = responded 400 [("error", str m)]))) \/
  e = to_generate_csv \/ e = to_generate_image.
Proof.
  intros Hh. destruct e; simpl; [left | left | left | left | now right; left | now right; right].
  - destruct (req_question req) as [q|] eqn:Hq.
    + destruct (direct_command q) as [[kind rest]|] eqn:Hd.
      * unfold chat. rewrite Hq, Hd. eexists. split; [reflexivity |].
        right. right. left. split; [reflexivity |]. now exists q, (kind, rest).
      * rewrite (chat_heir w store req h Hh q Hq Hd). eexists. split; [reflexivity |].
        now left.
    + unfold chat. rewrite Hq. eexists. split; [reflexivity |].
      right. left. repeat split.
  - rewrite (analyze_csv_heir w store req h Hh). eexists. split; [reflexivity | now left].
  - unfold analyze_pdf.
    destruct (resolve_heir w store _ h Hh) as (id & _ & _ & _ & _ & _ & _ & -> & ->).
    destruct (negb (present (req_pdf req))).
    { eexists. split; [reflexivity |]. right. right. right. split; [reflexivity |].
      eexists. reflexivity. }
    destruct (pdf w (default "" (req_pdf req))); eexists; (split; [reflexivity |]).
    + now left.
    + right. right. right. split; [reflexivity |]. eexists. reflexivity.
  - rewrite (analyze_image_heir w store req h Hh). eexists. split; [reflexivity | now left].
Qed.

Ltac find_leaf :=
  simpl;
  repeat match goal with
  | |- exists a, Return _ = Return a => eexists; reflexivity
  | |- exists a, match ?x with _ => _ end = Return a => destruct x; simpl
  end.

Ltac settle_one_shot :=
  repeat match goal with
  | |- one_shot (Return _) => left; eexists; reflexivity
  | |- one_shot (Await _ _) =>
      right; eexists _, _; split; [reflexivity | intros [m | text]; find_leaf]
  | |- one_shot (match ?x with _ => _ end) => destruct x
  end.

(** No handler calls the endpoint twice: a failed call is not tried
    again, and no answer leads to a second call. *)
Theorem no_second_call (e : Endpoint) (w : Externals) (store : Store) (req : Request) :
  one_shot (handle e w store req) /\
  forall ollama, length (calls ollama (handle e w store req)) <= 1.
Proof.
  assert (H : one_shot (handle e w store req)).
  { destruct e; simpl;
      unfold chat, analyze_csv, analyze_pdf, analyze_image, generate_csv, generate_image;
      settle_one_shot. }
  split; [exact H |]. intros ollama. now apply one_shot_calls.
Qed.

End RunFacts.

(** ** What the handlers do to the store *)

Module StoreEffects.
Import JS Server Notions MoreNotions TextFacts StoreFacts HandlerFacts ValidationFacts RunFacts.

Lemma resolve_chat_facts (w : Externals) (store : Store) (sessionId : option string)
    (id : string) (st : Store) :
  plain_id w store sessionId ->
  resolve_chat w store sessionId = (id, st) ->
  id = resolved_id w store sessionId /\
  (exists s1, st !! id = Some s1 /\
     history s1 = (if unknown w store sessionId
                   then [msg system (chat_instructions w)]
                   else history_before store sessionId)) /\
  (forall j, j <> id -> st !! j = store !! j).
Proof.
  intros Hp E.
  destruct (resolve_chat_at w store sessionId Hp) as [H1 H2].
  pose proof (resolve_chat_frame w store sessionId) as H3.
  rewrite E in H1, H2, H3. simpl in *. subst id. auto.
Qed.

Lemma resolve_analyze_facts (w : Externals) (store : Store) (sessionId : option string)
    (id : string) (st : Store) :
  plain_id w store sessionId ->
  resolve_analyze w store sessionId = (id, st) ->
  id = resolved_id w store sessionId /\
  (exists s1, st !! id = Some s1 /\
     history s1 = history_before store sessionId /\
     analyzedData s1 = None /\ analyzedImage s1 = None) /\
  (forall j, j <> id -> st !! j = store !! j).
Proof.
  intros Hp E.
  destruct (resolve_analyze_at w store sessionId Hp) as [H1 H2].
  pose proof (resolve_analyze_frame w store sessionId) as H3.
  rewrite E in H1, H2, H3. simpl in *. subst id. auto.
Qed.

(** Walks through the branches of a handler under [result] or [calls]. *)
Ltac explore ollama :=
  repeat (rewrite ?result_return, ?result_await, ?calls_return, ?calls_await;
          cbv beta zeta;
          match goal with
          | |- context [result ollama (match ?x with _ => _ end)] => destruct x eqn:?
          | |- context [calls ollama (match ?x with _ => _ end)] => destruct x eqn:?
          end);
  rewrite ?result_return, ?result_await, ?calls_return, ?calls_await.

(** Splits the choices left inside the state reached. *)
Ltac choices :=
  repeat match goal with
  | |- context [match ?x with _ => _ end] => destruct x
  end.

(** Brings in what is known of the resolved pair, for a plain id: the
    session under the id is [s1], and the branch of a handler in which
    the store holds none is closed. *)
Ltac resolved s1 Hs1 Hframe :=
  match goal with
  | Hp : plain_id _ _ _, E : resolve_chat _ _ _ = (_, _) |- _ =>
      let Hh := fresh "Hh" in
      destruct (resolve_chat_facts _ _ _ _ _ Hp E) as (-> & (s1 & Hs1 & Hh) & Hframe)
  | Hp : plain_id _ _ _, E : resolve_analyze _ _ _ = (_, _) |- _ =>
      let Hh := fresh "Hh" in
      let Hd := fresh "Hd" in
      let Hi := fresh "Hi" in
      destruct (resolve_analyze_facts _ _ _ _ _ Hp E)
        as (-> & (s1 & Hs1 & Hh & Hd & Hi) & Hframe)
  end;
  try match goal with
  | H : negb (held _ _) = true |- _ =>
      rewrite (held_true _ _ _ Hs1) in H; discriminate H
  end.

(** The store after a request whose session id names an inherited
    member and which goes to one of the four handlers that work on the
    history. *)
Ltac by_heir e w store req h Hh :=
  let out := fresh "out" in
  let E := fresh "E" in
  let Hout := fresh "Hout" in
  destruct (heir_returns e w store req h Hh) as [[out [E Hout]] | [-> | ->]];
  [rewrite E, ?result_return, ?calls_return; cbn [fst snd] | |].

Section OneRequest.
Context (w : Externals) (store : Store) (req : Request) (ollama : Call -> Reply).

Lemma generation_keeps :
  fst (result ollama (generate_csv w store req)) = store /\
  fst (result ollama (generate_image w store req)) = store.
Proof.
  split; unfold generate_csv, generate_image; explore ollama; reflexivity.
Qed.

(** /generate-csv and /generate-image only read the store. *)
Theorem generation_reads_only :
  fst (result ollama (generate_csv w store req)) = store /\
  fst (result ollama (generate_image w store req)) = store.
Proof. exact generation_keeps. Qed.

(** With a session id that names an inherited member no handler
    changes the store. *)
Lemma heir_keeps (e : Endpoint) (h : Heir) :
  heir_at w store (req_sessionId req) = Some h ->
  fst (result ollama (handle e w store req)) = store.
Proof.
  intros Hh. by_heir e w store req h Hh;
    [reflexivity | apply generation_keeps | apply generation_keeps].
Qed.

Lemma elsewhere_unchanged (e : Endpoint) (j : string) :
  j <> resolved_id w store (req_sessionId req) ->
  fst (result ollama (handle e w store req)) !! j = store !! j.
Proof.
  intros Hj. destruct (plain_or_heir w store (req_sessionId req)) as [Hp | [h Hh]].
  - destruct e; simpl;
      unfold chat, analyze_csv, analyze_pdf, analyze_image, generate_csv, generate_image;
      explore ollama; try reflexivity;
      resolved ses Hses Hframe; simpl; choices; rewrite ?lookup_on_ne by congruence; auto.
  - now rewrite (heir_keeps e h Hh).
Qed.

(** A handler changes no session but the one it resolved: the others
    are as before, no session is deleted, and the only session that can
    appear is the one named by [uuidv4()], for a request whose id is
    unknown. *)
Theorem session_isolation (e : Endpoint) (j : string) :
  (j <> resolved_id w store (req_sessionId req) ->
   fst (result ollama (handle e w store req)) !! j = store !! j) /\
  (is_Some (store !! j) -> is_Some (fst (result ollama (handle e w store req)) !! j)) /\
  (is_Some (fst (result ollama (handle e w store req)) !! j) ->
   is_Some (store !! j) \/ (j = uuidv4 w /\ unknown w store (req_sessionId req) = true)).
Proof.
  split; [apply elsewhere_unchanged |].
  destruct (plain_or_heir w store (req_sessionId req)) as [Hp | [h Hh]];
    [| rewrite (heir_keeps e h Hh); tauto].
  destruct (decide (j = resolved_id w store (req_sessionId req))) as [-> | Hj].
  - assert (Hid : is_Some (store !! resolved_id w store (req_sessionId req)) \/
                  (resolved_id w store (req_sessionId req) = uuidv4 w /\
                   unknown w store (req_sessionId req) = true)).
    { unfold resolved_id, resolve.
      destruct (unknown w store (req_sessionId req)) eqn:E; [now right |].
      destruct (unknown_false _ _ _ Hp E) as [id [s [-> [Hs _]]]]. left. simpl. eauto. }
    split; [| intros _; exact Hid].
    intros Hin.
    destruct e; simpl;
      unfold chat, analyze_csv, analyze_pdf, analyze_image, generate_csv, generate_image;
      explore ollama; try assumption;
      resolved ses Hses Hframe; simpl; choices;
      rewrite ?on_on; try (erewrite lookup_on by eassumption); eauto.
  - rewrite (elsewhere_unchanged e j Hj). tauto.
Qed.

End OneRequest.

Lemma session_isolation_witness :
  "s1" <> resolved_id Sample.world Sample.one_session None /\
  fst (result (Sample.answering "Hello!")
         (chat Sample.world Sample.one_session (Sample.ask "hi" None))) !! "s1" =
  Some Sample.busy.
Proof.
  assert (H : "s1" <> resolved_id Sample.world Sample.one_session None)
    by (vm_compute; discriminate).
  split; [exact H |].
  exact (proj1 (session_isolation Sample.world Sample.one_session (Sample.ask "hi" None)
                  (Sample.answering "Hello!") to_chat "s1") H).
Defined.

End StoreEffects.

(** ** The session a request leaves behind *)

Module SessionEffects.
Import JS Server Notions MoreNotions TextFacts StoreFacts HandlerFacts ValidationFacts.
Import RunFacts StoreEffects.

Section OneRequest.
Context (w : Externals) (store : Store) (req : Request) (ollama : Call -> Reply).

(** The session id a response carries names a session of the store the
    handler leaves (the echo of the direct commands of /chat aside). *)
Theorem returned_id_is_live (e : Endpoint) (i : string) :
  (e = to_chat -> forall q, req_question req = Some q -> direct_command q = None) ->
  field "sessionId" (body_of (snd (result ollama (handle e w store req)))) = str i ->
  i = resolved_id w store (req_sessionId req) /\
  is_Some (fst (result ollama (handle e w store req)) !! i).
Proof.
  intros Hchat.
  destruct (plain_or_heir w store (req_sessionId req)) as [Hp | [h Hh]].
  - destruct e; simpl;
      [ specialize (Hchat eq_refl); unfold chat;
        destruct (req_question req) as [q|]; [rewrite (Hchat q eq_refl) |]
      | unfold analyze_csv | unfold analyze_pdf | unfold analyze_image
      | unfold generate_csv | unfold generate_image ];
      explore ollama; simpl; try discriminate;
      resolved ses Hses Hframe; choices; simpl; try discriminate;
      intros [= <-]; (split; [reflexivity |]);
      rewrite ?on_on; erewrite lookup_on by eassumption; eauto.
  - by_heir e w store req h Hh.
    + destruct Hout as [-> | [(_ & _ & Hs) | [(-> & q & d & Hq & Hd) | (_ & m & ->)]]];
        try discriminate.
      * destruct out as [status body | m]; [discriminate Hs | discriminate].
      * rewrite (Hchat eq_refl q Hq) in Hd. discriminate Hd.
    + simpl. unfold generate_csv. explore ollama; simpl; discriminate.
    + simpl. unfold generate_image. explore ollama; simpl; discriminate.
Qed.

Lemma csv_attached (c : string) (records : list Csv.Record) :
  plain_id w store (req_sessionId req) ->
  req_csv req = Some c -> c <> "" -> parse w c = Ok records ->
  exists s', fst (result ollama (analyze_csv w store req))
               !! resolved_id w store (req_sessionId req) = Some s' /\
             analyzedData s' = Some (Records records) /\ analyzedImage s' = None.
Proof.
  intros Hpl Hc Hne Hparse. unfold analyze_csv.
  rewrite (present_nonempty _ _ Hc Hne), Hc. simpl negb. simpl default.
  unfold csvToJson. rewrite Hparse.
  explore ollama; resolved ses Hses Hframe; simpl;
    rewrite ?on_on; erewrite lookup_on by eassumption;
    (eexists; split; [reflexivity |]); unfold compose, pop_user;
    choices; simpl; auto.
Qed.

Lemma pdf_attached (p text : string) :
  plain_id w store (req_sessionId req) ->
  req_pdf req = Some p -> p <> "" -> pdf w p = Ok text ->
  exists s', fst (result ollama (analyze_pdf w store req))
               !! resolved_id w store (req_sessionId req) = Some s' /\
             analyzedData s' = Some (DocumentText text) /\ analyzedImage s' = None.
Proof.
  intros Hpl Hp Hne Hparse. unfold analyze_pdf.
  rewrite (present_nonempty _ _ Hp Hne), Hp. simpl negb. simpl default.
  rewrite Hparse.
  explore ollama; resolved ses Hses Hframe; simpl;
    rewrite ?on_on; erewrite lookup_on by eassumption;
    (eexists; split; [reflexivity |]); unfold compose, pop_user;
    choices; simpl; auto.
Qed.

Lemma image_attached (i : string) :
  plain_id w store (req_sessionId req) ->
  req_image req = Some i -> i <> "" ->
  exists s', fst (result ollama (analyze_image w store req))
               !! resolved_id w store (req_sessionId req) = Some s' /\
             analyzedData s' = None /\ analyzedImage s' = Some i.
Proof.
  intros Hpl Hi Hne. unfold analyze_image.
  rewrite (present_nonempty _ _ Hi Hne), Hi. simpl negb.
  explore ollama; resolved ses Hses Hframe; simpl;
    rewrite ?on_on; erewrite lookup_on by eassumption;
    (eexists; split; [reflexivity |]); unfold compose;
    choices; simpl; auto.
Qed.

(** What an analysis attaches to the session stays attached whatever
    the model answers, also when the call fails; the attachment of the
    other kind is gone (for a request whose session id names no
    inherited member of the store object). *)
Theorem analysis_attaches :
  plain_id w store (req_sessionId req) ->
  let id := resolved_id w store (req_sessionId req) in
  (forall c records, req_csv req = Some c -> c <> "" -> parse w c = Ok records ->
     exists s', fst (result ollama (analyze_csv w store req)) !! id = Some s' /\
                analyzedData s' = Some (Records records) /\ analyzedImage s' = None) /\
  (forall p text, req_pdf req = Some p -> p <> "" -> pdf w p = Ok text ->
     exists s', fst (result ollama (analyze_pdf w store req)) !! id = Some s' /\
                analyzedData s' = Some (DocumentText text) /\ analyzedImage s' = None) /\
  (forall i, req_image req = Some i -> i <> "" ->
     exists s', fst (result ollama (analyze_image w store req)) !! id = Some s' /\
                analyzedData s' = None /\ analyzedImage s' = Some i).
Proof.
  intros Hpl. cbv zeta. repeat apply conj.
  - intros c records. now apply csv_attached.
  - intros p text. now apply pdf_attached.
  - intros i. now apply image_attached.
Qed.

(** What /chat sends to the model: the history of the resolved session,
    the output of a tool the question triggers, and the question last. *)
Lemma chat_call (q : string) :
  plain_id w store (req_sessionId req) ->
  req_question req = Some q -> direct_command q = None ->
  calls ollama (chat w store req) =
  [api_chat OLLAMA_DEFAULT_MODEL
     ((if unknown w store (req_sessionId req)
       then [msg system (chat_instructions w)]
       else history_before store (req_sessionId req)) ++
      tool_messages w q ++ [msg user q])%list].
Proof.
  intros Hpl Hq Hd. unfold chat. rewrite Hq, Hd.
  destruct (resolve_chat w store (req_sessionId req)) as [id st] eqn:E.
  resolved ses Hses Hframe. rewrite <- Hh, (held_true _ _ _ Hses). cbn [negb].
  unfold tool_messages.
  destruct (dispatchTool w q) as [[tool data]|];
    rewrite calls_await; destruct (ollama _); rewrite calls_return;
    do 2 f_equal; rewrite ?on_on, (history_of_on _ _ _ _ Hses);
    unfold compose; simpl; now rewrite <- ?app_assoc.
Qed.

End OneRequest.

Lemma returned_id_is_live_witness :
  let req := Sample.with_csv (Some Sample.small_table) None in
  field "sessionId"
    (body_of (snd (result Sample.down (analyze_csv Sample.world Sample.one_session req)))) =
    str (uuidv4 Sample.world) /\
  is_Some (fst (result Sample.down (analyze_csv Sample.world Sample.one_session req))
             !! uuidv4 Sample.world).
Proof.
  split; [reflexivity |].
  exact (proj2 (returned_id_is_live Sample.world Sample.one_session
                  (Sample.with_csv (Some Sample.small_table) None) Sample.down
                  to_analyze_csv (uuidv4 Sample.world)
                  ltac:(discriminate) eq_refl)).
Defined.

Lemma analysis_attaches_witness :
  exists s',
    fst (result Sample.down
           (analyze_image Sample.world Sample.one_session
              (Sample.with_image (Some "aGVsbG8=") (Some "s1")))) !! "s1" = Some s' /\
    analyzedData s' = None /\ analyzedImage s' = Some "aGVsbG8=".
Proof.
  exact (proj2 (proj2 (analysis_attaches Sample.world Sample.one_session
                         (Sample.with_image (Some "aGVsbG8=") (Some "s1")) Sample.down
                         eq_refl))
               "aGVsbG8=" eq_refl ltac:(discriminate)).
Defined.

End SessionEffects.

(** ** Invariants of the conversation *)

Module ConversationFacts.
Import JS Server Notions MoreNotions TextFacts StoreFacts HandlerFacts ValidationFacts.
Import RunFacts StoreEffects SessionEffects PrimingFacts.

Lemma last_is_user_snoc (h : list Message) (m : Message) :
  last_is_user (h ++ [m]) = match role m with user => true | _ => false end.
Proof. unfold last_is_user. now rewrite last_snoc. Qed.

Lemma before_settled (store : Store) (sessionId : option string) :
  all_settled store -> last_is_user (history_before store sessionId) = false.
Proof.
  intros Hall. unfold history_before.
  destruct (session_at store sessionId) as [s|] eqn:E; [| reflexivity].
  destruct sessionId as [id|]; [| discriminate]. unfold session_at in E.
  destruct (truthy id); [| discriminate]. exact (Hall id s E).
Qed.

Section OneRequest.
Context (w : Externals) (store : Store) (req : Request) (ollama : Call -> Reply).

(** /chat, /analyze-csv, /analyze-pdf and the generate-* handlers never
    leave a question without its answer: if no history of the store ends
    with a user message before the request, none does after it. *)
Theorem questions_are_answered (e : Endpoint) :
  e <> to_analyze_image ->
  all_settled store ->
  all_settled (fst (result ollama (handle e w store req))).
Proof.
  intros He Hall.
  destruct (plain_or_heir w store (req_sessionId req)) as [Hp | [h Hh]];
    [| now rewrite (heir_keeps w store req ollama e h Hh)].
  intros j s.
  destruct (decide (j = resolved_id w store (req_sessionId req))) as [-> | Hj];
    [| rewrite (elsewhere_unchanged w store req ollama e j Hj); apply Hall].
  pose proof (before_settled store (req_sessionId req) Hall) as Hb.
  destruct e; try congruence; simpl;
    unfold chat, analyze_csv, analyze_pdf, generate_csv, generate_image;
    explore ollama; simpl; try apply Hall;
    resolved ses Hses Hframe; choices;
    rewrite ?on_on;
    first [erewrite lookup_on by eassumption | rewrite Hses];
    intros [= <-]; unfold settled, compose, msg;
    rewrite ?pop_user_push, ?pop_push; simpl;
    rewrite ?last_is_user_snoc; try reflexivity;
    rewrite Hh; try exact Hb;
    (destruct (unknown w store (req_sessionId req)); [reflexivity | exact Hb]).
Qed.

Lemma resolve_chat_attachment (id : string) (g : Store) (s : Session) :
  all_one_attachment store ->
  resolve_chat w store (req_sessionId req) = (id, g) -> g !! id = Some s ->
  one_attachment s.
Proof.
  intros Hall. unfold resolve_chat, resolve.
  destruct (unknown w store (req_sessionId req)) eqn:E.
  - intros [= <- <-]. rewrite on_insert, lookup_insert_eq. intros [= <-]. now left.
  - intros [= <- <-]. apply Hall.
Qed.

(** An analysis drops what an earlier analysis attached before it
    attaches its own, and the other handlers attach nothing. *)
Lemma one_attachment_step (e : Endpoint) :
  all_one_attachment store ->
  all_one_attachment (fst (result ollama (handle e w store req))).
Proof.
  intros Hall.
  destruct (plain_or_heir w store (req_sessionId req)) as [Hp | [h Hh]];
    [| now rewrite (heir_keeps w store req ollama e h Hh)].
  intros j s.
  destruct (decide (j = resolved_id w store (req_sessionId req))) as [-> | Hj];
    [| rewrite (elsewhere_unchanged w store req ollama e j Hj); apply Hall].
  destruct e; simpl;
    unfold chat, analyze_csv, analyze_pdf, analyze_image, generate_csv, generate_image;
    explore ollama; simpl; try apply Hall;
    try match goal with
    | E : resolve_chat _ _ _ = (?i, ?g) |- _ =>
        pose proof (fun s => resolve_chat_attachment i g s Hall E) as Hchat
    end;
    resolved ses Hses Hframe; choices;
    rewrite ?on_on;
    first [erewrite lookup_on by eassumption | rewrite Hses];
    intros [= <-]; unfold one_attachment, compose, pop_user;
    choices; simpl; auto;
    apply (Hchat ses Hses).
Qed.

End OneRequest.

Lemma questions_are_answered_witness :
  all_settled Sample.one_session /\
  all_settled
    (fst (result Sample.down
            (chat Sample.world Sample.one_session (Sample.ask "hello again" (Some "s1"))))).
Proof.
  assert (H : all_settled Sample.one_session).
  { intros j s Hs. unfold Sample.one_session in Hs.
    apply lookup_singleton_Some in Hs. destruct Hs as [_ <-]. reflexivity. }
  split; [exact H |].
  exact (questions_are_answered Sample.world Sample.one_session
           (Sample.ask "hello again" (Some "s1")) Sample.down to_chat
           ltac:(discriminate) H).
Defined.

Lemma one_attachment_cleared (w : Externals) (store : Store) (req : Request) :
  all_one_attachment store ->
  all_one_attachment (fst (clear_chat_history w store req)).
Proof.
  intros Hall j s. unfold clear_chat_history.
  destruct (unknown w store (req_sessionId req)); simpl; [apply Hall |].
  intros H. apply lookup_delete_Some in H. destruct H as [_ H]. exact (Hall j s H).
Qed.

(** No session ever holds both kinds of attachment, in any store the
    server reaches from the empty one by requests handled one after
    another. *)
Theorem one_attachment_always (store : Store) :
  reachable store -> all_one_attachment store.
Proof.
  induction 1 as [| e w req ollama store _ IH | w req store _ IH].
  - intros j s H. rewrite lookup_empty in H. discriminate.
  - now apply one_attachment_step.
  - now apply one_attachment_cleared.
Qed.

Lemma one_attachment_always_witness :
  let req := Sample.with_image (Some "aGVsbG8=") None in
  let store := fst (result (Sample.answering "A greeting.")
                      (handle to_analyze_image Sample.world ∅ req)) in
  reachable store /\ all_one_attachment store.
Proof.
  cbv zeta.
  assert (H : reachable
                (fst (result (Sample.answering "A greeting.")
                        (handle to_analyze_image Sample.world ∅
                           (Sample.with_image (Some "aGVsbG8=") None)))))
    by (apply after_request, at_start).
  split; [exact H | exact (one_attachment_always _ H)].
Defined.

End ConversationFacts.

(** ** Classification and status *)

Module ResponseFacts.
Import JS Server Notions MoreNotions TextFacts StoreFacts HandlerFacts ValidationFacts.
Import RunFacts StoreEffects.

(** No text starts with both markers. *)
Lemma markers_exclude (text : string) :
  startsWith text "CSV_REQUEST:" = true -> startsWith text "IMAGE_REQUEST:" = true -> False.
Proof.
  destruct text as [|c t]; [discriminate |]. cbn [startsWith].
  destruct (Ascii.eqb_spec "C"%char c) as [<- |]; [| discriminate].
  intros _. simpl. discriminate.
Qed.

(** The two orders in which the handlers test the markers give the same
    classification. *)
Theorem classification_orders_agree (text : string) :
  classify_csv_first text = classify_image_first text.
Proof.
  unfold classify_csv_first, classify_image_first.
  destruct (startsWith text "CSV_REQUEST:") eqn:E1,
           (startsWith text "IMAGE_REQUEST:") eqn:E2; try reflexivity.
  destruct (markers_exclude text E1 E2).
Qed.

Section OneRequest.
Context (w : Externals) (store : Store) (req : Request) (ollama : Call -> Reply).







End OneRequest.


End ResponseFacts.

(** ** Generation after analysis *)

Module GenerationFacts.
Import JS Server Notions MoreNotions TextFacts StoreFacts HandlerFacts ValidationFacts.
Import RunFacts StoreEffects SessionEffects.

Lemma resolved_id_truthy (w : Externals) (store : Store) (sessionId : option string) :
  uuidv4 w <> "" -> truthy (resolved_id w store sessionId) = true.
Proof.
  intros Hu. unfold resolved_id, resolve.
  destruct (unknown w store sessionId) eqn:E; simpl; [now apply truthy_nonempty |].
  destruct sessionId as [id|]; [| discriminate]. simpl.
  unfold unknown in E. destruct (truthy id); [reflexivity | discriminate].
Qed.

Lemma blank_false (p : string) : blank (Some p) = false -> p <> "".
Proof. intros H ->. discriminate. Qed.

Section Successive.
Context (w w2 : Externals) (store : Store) (req next : Request).
Context (ollama ollama2 : Call -> Reply) (p : string).
Hypothesis plain : plain_id w store (req_sessionId req).
Hypothesis fresh_id : uuidv4 w <> "".
Hypothesis same_session : req_sessionId next = Some (resolved_id w store (req_sessionId req)).
Hypothesis prompt_given : req_prompt next = Some p.
Hypothesis some_prompt : blank (Some p) = false.

Lemma csv_then_generate (c : string) (records : list Csv.Record) :
  req_csv req = Some c -> c <> "" -> parse w c = Ok records ->
  calls ollama2 (generate_csv w2 (fst (result ollama (analyze_csv w store req))) next) =
    [api_generate OLLAMA_DEFAULT_MODEL
       (prompt_about_data (JSON_stringify w2 records) p +:+ json_output_request) []] /\
  calls ollama2 (generate_image w2 (fst (result ollama (analyze_csv w store req))) next) =
    [api_generate OLLAMA_MULTIMODAL_MODEL p []].
Proof.
  intros Hc Hne Hparse.
  destruct (csv_attached w store req ollama c records plain Hc Hne Hparse) as (s' & Hs' & Hd & Hi).
  unfold generate_csv, generate_image, csv_generation_prompt, analyzedData_at, analyzedImage_at.
  rewrite prompt_given, some_prompt, same_session, (resolved_id_truthy w store _ fresh_id), Hs'.
  simpl. rewrite Hd, Hi. simpl. rewrite !calls_await.
  split; destruct (ollama2 _); explore ollama2; reflexivity.
Qed.

Lemma pdf_then_generate (d text : string) :
  req_pdf req = Some d -> d <> "" -> pdf w d = Ok text ->
  calls ollama2 (generate_csv w2 (fst (result ollama (analyze_pdf w store req))) next) =
    [api_generate OLLAMA_DEFAULT_MODEL
       ((if truthy text then prompt_about_text text p else p) +:+ json_output_request) []] /\
  calls ollama2 (generate_image w2 (fst (result ollama (analyze_pdf w store req))) next) =
    [api_generate OLLAMA_MULTIMODAL_MODEL p []].
Proof.
  intros Hc Hne Hparse.
  destruct (pdf_attached w store req ollama d text plain Hc Hne Hparse) as (s' & Hs' & Hd & Hi).
  unfold generate_csv, generate_image, csv_generation_prompt, analyzedData_at, analyzedImage_at.
  rewrite prompt_given, some_prompt, same_session, (resolved_id_truthy w store _ fresh_id), Hs'.
  simpl. rewrite Hd, Hi. simpl. rewrite !calls_await.
  split; destruct (ollama2 _); explore ollama2; reflexivity.
Qed.

Lemma image_then_generate (i : string) :
  req_image req = Some i -> i <> "" ->
  calls ollama2 (generate_image w2 (fst (result ollama (analyze_image w store req))) next) =
    [api_generate OLLAMA_MULTIMODAL_MODEL
       ("Given the attached image, please provide a textual output: " +:+ p) [i]] /\
  calls ollama2 (generate_csv w2 (fst (result ollama (analyze_image w store req))) next) =
    [api_generate OLLAMA_DEFAULT_MODEL (p +:+ json_output_request) []].
Proof.
  intros Hc Hne.
  destruct (image_attached w store req ollama i plain Hc Hne) as (s' & Hs' & Hd & Hi).
  unfold generate_csv, generate_image, csv_generation_prompt, analyzedData_at, analyzedImage_at.
  rewrite prompt_given, some_prompt, same_session, (resolved_id_truthy w store _ fresh_id), Hs'.
  simpl. rewrite Hd, Hi. simpl. rewrite (truthy_nonempty i Hne). rewrite !calls_await.
  split; destruct (ollama2 _); explore ollama2; reflexivity.
Qed.

(** A generation that follows an analysis in the same session works on
    what the analysis attached, whatever the model answered to the
    analysis: /generate-csv embeds the parsed CSV data or the text of
    the document in its prompt, /generate-image sends the picture; the
    attachment of the other kind is not sent (the analysis being one
    whose session id names no inherited member of the store object). *)
Theorem analysis_feeds_generation :
  (forall c records, req_csv req = Some c -> c <> "" -> parse w c = Ok records ->
     let store' := fst (result ollama (analyze_csv w store req)) in
     calls ollama2 (generate_csv w2 store' next) =
       [api_generate OLLAMA_DEFAULT_MODEL
          (prompt_about_data (JSON_stringify w2 records) p +:+ json_output_request) []] /\
     calls ollama2 (generate_image w2 store' next) =
       [api_generate OLLAMA_MULTIMODAL_MODEL p []]) /\
  (forall d text, req_pdf req = Some d -> d <> "" -> pdf w d = Ok text ->
     let store' := fst (result ollama (analyze_pdf w store req)) in
     calls ollama2 (generate_csv w2 store' next) =
       [api_generate OLLAMA_DEFAULT_MODEL
          ((if truthy text then prompt_about_text text p else p) +:+ json_output_request) []] /\
     calls ollama2 (generate_image w2 store' next) =
       [api_generate OLLAMA_MULTIMODAL_MODEL p []]) /\
  (forall i, req_image req = Some i -> i <> "" ->
     let store' := fst (result ollama (analyze_image w store req)) in
     calls ollama2 (generate_image w2 store' next) =
       [api_generate OLLAMA_MULTIMODAL_MODEL
          ("Given the attached image, please provide a textual output: " +:+ p) [i]] /\
     calls ollama2 (generate_csv w2 store' next) =
       [api_generate OLLAMA_DEFAULT_MODEL (p +:+ json_output_request) []]).
Proof.
  repeat apply conj; cbv zeta.
  - apply csv_then_generate.
  - apply pdf_then_generate.
  - apply image_then_generate.
Qed.

End Successive.

Lemma analysis_feeds_generation_witness :
  calls (Sample.answering "a picture")
    (generate_image Sample.world
       (fst (result Sample.down
               (analyze_image Sample.world Sample.one_session
                  (Sample.with_image (Some "aGVsbG8=") (Some "s1")))))
       (Sample.with_prompt (Some "What colours?") (Some "s1"))) =
  [api_generate OLLAMA_MULTIMODAL_MODEL
     "Given the attached image, please provide a textual output: What colours?"
     ["aGVsbG8="]].
Proof.
  exact (proj1 (proj2 (proj2 (analysis_feeds_generation Sample.world Sample.world
                                Sample.one_session
                                (Sample.with_image (Some "aGVsbG8=") (Some "s1"))
                                (Sample.with_prompt (Some "What colours?") (Some "s1"))
                                Sample.down (Sample.answering "a picture") "What colours?"
                                eq_refl ltac:(discriminate) eq_refl eq_refl eq_refl))
                      "aGVsbG8=" eq_refl ltac:(discriminate))).
Defined.

End GenerationFacts.

(** ** The CSV /generate-csv returns *)

Module CsvGenerationFacts.
Import JS Server Notions MoreNotions TextFacts StoreFacts HandlerFacts ValidationFacts.
Import RunFacts StoreEffects.

Section OneRequest.
Context (w : Externals) (store : Store) (req : Request) (ollama : Call -> Reply).

(** A 200 of /generate-csv carries a CSV text that is not blank: the
    text of the model as it came, or the rows of the JSON array the
    model fenced, written by [stringify]. *)
Theorem generated_csv_content :
  let call :=
    api_generate OLLAMA_DEFAULT_MODEL
      (csv_generation_prompt w store (req_sessionId req) (default "" (req_prompt req)) +:+
       json_output_request) [] in
  status_of (snd (result ollama (generate_csv w store req))) = Some 200 ->
  exists text c,
    ollama call = replied text /\
    field "csvContent" (body_of (snd (result ollama (generate_csv w store req)))) = str c /\
    blank (Some c) = false /\
    (c = text \/
     exists whole group items,
       match_json_block text = Some (whole, group) /\
       tryParseJson w (trim group) = Some (JArray items) /\
       items <> [] /\ stringify w items = Ok c).
Proof.
  cbv zeta. unfold generate_csv.
  destruct (blank (req_prompt req)); [discriminate |].
  rewrite result_await.
  destruct (ollama _) as [m | text] eqn:Hreply; [discriminate |].
  destruct (final_csv_content w text) as [c | m] eqn:Hfinal; [| discriminate].
  destruct (blank (Some c)) eqn:Hblank; [discriminate |].
  intros _. exists text, c. repeat split; try assumption.
  unfold final_csv_content in Hfinal.
  destruct (match_json_block text) as [[whole group]|]; [| left; congruence].
  destruct (truthy group); [| left; congruence].
  destruct (tryParseJson w (trim group)) as [[]|] eqn:Hparse; try (left; congruence).
  right. exists whole, group, items. split; [reflexivity |]. split; [exact Hparse |].
  unfold jsonToCsv in Hfinal.
  match type of Hfinal with match ?l with _ => _ end = _ => destruct l eqn:Hl end;
    [injection Hfinal as <-; discriminate |].
  split; [discriminate |].
  destruct (stringify w _); congruence.
Qed.

End OneRequest.

Lemma generated_csv_content_witness :
  exists text c,
    field "csvContent"
      (body_of (snd (result (Sample.answering Sample.small_table)
                       (generate_csv Sample.world Sample.one_session
                          (Sample.with_prompt (Some "Two people") (Some "s1")))))) = str c /\
    blank (Some c) = false /\
    (c = text \/
     exists whole group items,
       match_json_block text = Some (whole, group) /\
       tryParseJson Sample.world (trim group) = Some (JArray items) /\
       items <> [] /\ stringify Sample.world items = Ok c).
Proof.
  destruct (generated_csv_content Sample.world Sample.one_session
              (Sample.with_prompt (Some "Two people") (Some "s1"))
              (Sample.answering Sample.small_table) eq_refl)
    as (text & c & _ & H).
  exists text, c. exact H.
Defined.

End CsvGenerationFacts.

(** ** Successive requests *)

Module TurnFacts.
Import JS Server Notions MoreNotions TextFacts StoreFacts HandlerFacts ValidationFacts.
Import RunFacts StoreEffects SessionEffects GenerationFacts.

Section OneRequest.
Context (w : Externals) (store : Store) (req : Request) (ollama : Call -> Reply).

(** The session /chat leaves under the resolved id. *)
Lemma chat_turn (q : string) :
  plain_id w store (req_sessionId req) ->
  req_question req = Some q -> direct_command q = None ->
  let base := chat_base w store (req_sessionId req) in
  exists s',
    fst (result ollama (chat w store req)) !! resolved_id w store (req_sessionId req)
      = Some s' /\
    history s' =
      chat_left w base q (ollama (api_chat OLLAMA_DEFAULT_MODEL (chat_sent w base q))).
Proof.
  intros Hpl Hq Hd. cbv zeta. unfold chat. rewrite Hq, Hd.
  destruct (resolve_chat w store (req_sessionId req)) as [id st] eqn:E.
  resolved ses Hses Hframe. rewrite (held_true _ _ _ Hses). cbn [negb].
  unfold chat_left, chat_sent, chat_base, tool_messages. rewrite <- Hh.
  destruct (dispatchTool w q) as [[tool data]|];
    rewrite result_await, ?on_on, (history_of_on _ _ _ _ Hses);
    unfold compose; simpl history; rewrite <- ?app_assoc; simpl app;
    destruct (ollama _); rewrite result_return; simpl fst;
    rewrite ?on_on; erewrite lookup_on by eassumption;
    (eexists; split; [reflexivity |]); unfold compose, msg;
    rewrite ?pop_push; simpl; rewrite <- ?app_assoc; reflexivity.
Qed.

End OneRequest.

Lemma plain_known (w : Externals) (store : Store) (id : string) (s : Session) :
  store !! id = Some s -> plain_id w store (Some id).
Proof. intros H. unfold plain_id, heir_at. rewrite H. now destruct (truthy id). Qed.

Section Successive.
Context (w w2 : Externals) (store : Store) (req next : Request).
Context (ollama ollama2 : Call -> Reply) (q q2 : string).
Hypothesis plain : plain_id w store (req_sessionId req).
Hypothesis fresh_id : uuidv4 w <> "".
Hypothesis first_question : req_question req = Some q.
Hypothesis first_for_model : direct_command q = None.
Hypothesis second_question : req_question next = Some q2.
Hypothesis second_for_model : direct_command q2 = None.
Hypothesis same_session :
  req_sessionId next = Some (resolved_id w store (req_sessionId req)).

(** A conversation goes on under the id the first answer carried: the
    second request of /chat resolves the same session, primes nothing,
    and sends the model what the first request left, the exchange of the
    first request when the model answered it and nothing of it when the
    call failed, followed by the new question (the session id of the
    first request naming no inherited member of the store object). *)
Theorem conversation_continues :
  let base := chat_base w store (req_sessionId req) in
  let first := api_chat OLLAMA_DEFAULT_MODEL (chat_sent w base q) in
  let store' := fst (result ollama (chat w store req)) in
  calls ollama (chat w store req) = [first] /\
  resolved_id w2 store' (req_sessionId next) = resolved_id w store (req_sessionId req) /\
  calls ollama2 (chat w2 store' next) =
    [api_chat OLLAMA_DEFAULT_MODEL (chat_sent w2 (chat_left w base q (ollama first)) q2)].
Proof.
  cbv zeta.
  pose proof (resolved_id_truthy w store (req_sessionId req) fresh_id) as Hid.
  apply truthy_true in Hid.
  destruct (chat_turn w store req ollama q plain first_question first_for_model)
    as (s' & Hs' & Hh').
  cbv zeta in Hh'.
  pose proof (unknown_known w2 _ _ _ Hid Hs') as Hknown.
  assert (Hpl2 : plain_id w2 (fst (result ollama (chat w store req))) (req_sessionId next))
    by (rewrite same_session; exact (plain_known w2 _ _ _ Hs')).
  split; [exact (chat_call w store req ollama q plain first_question first_for_model) |].
  split.
  - unfold resolved_id at 1, resolve. now rewrite same_session, Hknown.
  - rewrite (chat_call w2 _ next ollama2 q2 Hpl2 second_question second_for_model).
    rewrite same_session, Hknown. unfold history_before.
    rewrite (session_at_known _ _ _ Hid Hs'), Hh'. reflexivity.
Qed.

End Successive.

Lemma conversation_continues_witness :
  calls (Sample.answering "Fine.")
    (chat Sample.world
       (fst (result (Sample.answering "Hello!")
               (chat Sample.world ∅ (Sample.ask "hi" None))))
       (Sample.ask "how are you?" (Some (uuidv4 Sample.world)))) =
  [api_chat OLLAMA_DEFAULT_MODEL
     [msg system (chat_instructions Sample.world);
      msg user "hi"; msg assistant "Hello!"; msg user "how are you?"]].
Proof.
  exact (proj2 (proj2 (conversation_continues Sample.world Sample.world ∅
                         (Sample.ask "hi" None)
                         (Sample.ask "how are you?" (Some (uuidv4 Sample.world)))
                         (Sample.answering "Hello!") (Sample.answering "Fine.")
                         "hi" "how are you?"
                         eq_refl ltac:(discriminate) eq_refl eq_refl eq_refl eq_refl eq_refl))).
Defined.

End TurnFacts.

(** ** The tools of /chat *)

Module ToolFacts.
Import JS Server Notions MoreNotions TextFacts TrimFacts SearchFacts.

Lemma same_length_prefix (a b a' b' : string) :
  a +:+ b = a' +:+ b' -> String.length a = String.length a' -> a = a'.
Proof.
  revert a'. induction a as [|c a IH]; intros [|c' a'] H Hl; try discriminate Hl.
  - reflexivity.
  - rewrite !append_cons in H. injection H as -> H. f_equal. apply (IH a' H).
    simpl in Hl. lia.
Qed.

Lemma terminator_nonempty (lt : string) : In lt line_terminators -> lt <> "".
Proof.
  intros H. vm_compute in H.
  repeat (destruct H as [<- | H]; [discriminate |]). destruct H.
Qed.

Lemma terminator_here (s : string) :
  existsb (startsWith s) line_terminators = true <->
  exists lt, In lt line_terminators /\ begins lt s.
Proof.
  rewrite existsb_exists. split; intros [lt [Hin H]]; exists lt; (split; [exact Hin |]).
  - now apply startsWith_begins.
  - now apply startsWith_begins.
Qed.

(** [dots] takes the first line. *)
Lemma dots_first_line (s : string) : first_line s (dots s).
Proof.
  induction s as [|c s [[post [Hs Hpost]] Hleast]].
  - split; [exists ""; split; [reflexivity | now left] |].
    intros pre lt rest _ _. simpl. lia.
  - cbn [dots]. destruct (existsb (startsWith (String c s)) line_terminators) eqn:E.
    + split; [| intros pre lt rest _ _; simpl; lia].
      exists (String c s). split; [reflexivity |]. right. now apply terminator_here.
    + split.
      * exists post. split; [now rewrite append_cons, <- Hs | exact Hpost].
      * intros pre lt rest Hin H. destruct pre as [|d pre].
        -- exfalso. rewrite append_nil_l in H.
           assert (Ht : existsb (startsWith (String c s)) line_terminators = true)
             by (apply terminator_here; exists lt; split; [exact Hin | now exists rest]).
           congruence.
        -- rewrite append_cons in H. injection H as _ H.
           specialize (Hleast pre lt rest Hin H). simpl. lia.
Qed.

Lemma first_line_unique (s g g' : string) : first_line s g -> first_line s g' -> g = g'.
Proof.
  assert (Hle : forall a b, first_line s a -> first_line s b ->
                            String.length b <= String.length a).
  { intros a b [[post [Hs Hpost]] _] [[post' [Hs' _]] Hleast].
    destruct Hpost as [-> | [lt [Hin [rest ->]]]].
    - rewrite append_nil_r in Hs. subst a. rewrite Hs', length_append. lia.
    - exact (Hleast a lt rest Hin Hs). }
  intros H H'. pose proof (Hle g g' H H'). pose proof (Hle g' g H' H).
  destruct H as [[post [Hs _]] _], H' as [[post' [Hs' _]] _].
  apply (same_length_prefix g post g' post'); [congruence | lia].
Qed.

(** The test [match_weather_in] makes at a position. *)
Lemma place_here_spec (s g : string) :
  place_here s g <->
  startsWith s "weather in " = true /\ dots (substring 11 s) = g /\ g <> "".
Proof.
  split.
  - intros (rest & -> & Hne & Hfirst).
    split; [apply startsWith_append |].
    change 11 with (String.length "weather in "). rewrite substring_append.
    split; [| exact Hne]. exact (first_line_unique rest _ _ (dots_first_line rest) Hfirst).
  - intros (Hs & <- & Hne). exists (substring 11 s).
    split; [exact (startsWith_split _ _ Hs) |].
    split; [exact Hne | apply dots_first_line].
Qed.

Lemma match_weather_in_step (c : ascii) (s : string) :
  (exists g, place_here (String c s) g /\ match_weather_in (String c s) = Some g) \/
  ((forall g, ~ place_here (String c s) g) /\
   match_weather_in (String c s) = match_weather_in s).
Proof.
  cbn [match_weather_in].
  destruct (startsWith (String c s) "weather in ") eqn:E.
  - destruct (dots (substring 11 (String c s))) as [|d r] eqn:Ed.
    + right. split; [| reflexivity]. intros g Hg.
      apply place_here_spec in Hg. destruct Hg as (_ & Hg & Hne). congruence.
    + left. eexists. split; [| reflexivity].
      apply place_here_spec. rewrite E, Ed. repeat split. discriminate.
  - right. split; [| reflexivity]. intros g Hg.
    apply place_here_spec in Hg. destruct Hg as (Hg & _). congruence.
Qed.

Lemma no_place_here_nil (g : string) : ~ place_here "" g.
Proof. intros (rest & H & _). discriminate H. Qed.

(** [match_weather_in] gives the group of the leftmost match, and
    nothing when there is no match. *)
Lemma match_weather_in_spec (t : string) :
  match match_weather_in t with
  | Some g => place_in t g
  | None => no_place t
  end.
Proof.
  induction t as [|c t IH].
  - simpl. intros pre s g H. destruct pre; [| discriminate H].
    rewrite append_nil_l in H. subst s. apply no_place_here_nil.
  - destruct (match_weather_in_step c t) as [(g & Hg & ->) | [Hnone ->]].
    + exists "", (String c t). split; [reflexivity |]. split; [exact Hg |].
      intros pre' s' g' _ Hl. simpl in Hl. lia.
    + destruct (match_weather_in t) as [g|].
      * destruct IH as (pre & s & -> & Hs & Hleft).
        exists (String c pre), s. split; [reflexivity |]. split; [exact Hs |].
        intros pre' s' g' H Hl. destruct pre' as [|d pre'].
        -- rewrite append_nil_l in H. subst s'. apply Hnone.
        -- rewrite !append_cons in H. injection H as _ H.
           apply (Hleft pre' s' g' H). simpl in Hl. lia.
      * intros pre s g H. destruct pre as [|d pre].
        -- rewrite append_nil_l in H. subst s. apply Hnone.
        -- rewrite append_cons in H. injection H as _ H. exact (IH pre s g H).
Qed.

Lemma place_in_match (t g : string) : place_in t g -> match_weather_in t = Some g.
Proof.
  intros (pre & s & -> & Hs & Hleft). induction pre as [|c pre IH].
  - rewrite append_nil_l. destruct s as [|c s]; [destruct (no_place_here_nil g Hs) |].
    destruct (match_weather_in_step c s) as [(g' & Hg' & ->) | [Hnone _]].
    + f_equal. apply place_here_spec in Hs, Hg'.
      destruct Hs as (_ & <- & _), Hg' as (_ & <- & _). reflexivity.
    + destruct (Hnone g Hs).
  - rewrite append_cons.
    destruct (match_weather_in_step c (pre +:+ s)) as [(g' & Hg' & _) | [_ ->]].
    + exfalso. apply (Hleft "" (String c (pre +:+ s)) g'); [reflexivity | simpl; lia |].
      exact Hg'.
    + apply IH. intros pre' s' g' H Hl.
      apply (Hleft (String c pre') s' g'); [now rewrite append_cons, H | simpl; lia].
Qed.

Lemma no_place_match (t : string) : no_place t -> match_weather_in t = None.
Proof.
  intros Hn. pose proof (match_weather_in_spec t) as H.
  destruct (match_weather_in t) as [g|]; [| reflexivity].
  destruct H as (pre & s & Ht & Hs & _). destruct (Hn pre s g Ht Hs).
Qed.

Lemma match_place_in (t g : string) : match_weather_in t = Some g -> place_in t g.
Proof. intros H. pose proof (match_weather_in_spec t) as Hs. now rewrite H in Hs. Qed.

Lemma mentions_date (t : string) :
  includes t "today's date" || includes t "current date" ||
  includes t "what date is it" || includes t "current time" ||
  includes t "what time is it" || includes t "date and time" = true <->
  mentions date_keywords t.
Proof.
  rewrite !orb_true_iff, !includes_occurs. unfold mentions, date_keywords. simpl In. split.
  - intros [[[[[H | H] | H] | H] | H] | H]; eexists; (split; [| exact H]); tauto.
  - intros [k [Hin H]]. repeat (destruct Hin as [<- | Hin]; [tauto |]). destruct Hin.
Qed.

Lemma mentions_weather (t : string) :
  includes t "weather" || includes t "temperature" = true <->
  mentions weather_keywords t.
Proof.
  rewrite !orb_true_iff, !includes_occurs. unfold mentions, weather_keywords. simpl In. split.
  - intros [H | H]; eexists; (split; [| exact H]); tauto.
  - intros [k [Hin H]]. repeat (destruct Hin as [<- | Hin]; [tauto |]). destruct Hin.
Qed.

(** [dispatchTool] reads the question in lower case, the lower case
    of Unicode: a date or time phrase gives the date tool, also when
    the question mentions the weather; else a weather word gives the
    weather tool.  Its place is what follows the leftmost "weather in "
    that has a character other than a line terminator behind it, up to
    the end of that line and trimmed of the white space around it, as
    the lower-cased question has it; it is Adimali exactly when the
    question has no such "weather in ".  Any other question uses no
    tool. *)
Theorem tool_dispatch (w : Externals) (q : string) :
  let t := toLowerCase q in
  (mentions date_keywords t ->
   dispatchTool w q = Some ("get_date_time", getSystemDateTime (clock_tool w))) /\
  (~ mentions date_keywords t -> mentions weather_keywords t ->
   (forall g, place_in t g ->
      dispatchTool w q = Some ("get_weather", getWeather (trim g)) /\
      trimmed g (trim g)) /\
   (no_place t ->
      dispatchTool w q = Some ("get_weather", getWeather "Adimali, Kerala, India")) /\
   ((exists g, place_in t g) \/ no_place t)) /\
  (~ mentions date_keywords t -> ~ mentions weather_keywords t ->
   dispatchTool w q = None).
Proof.
  cbv zeta. unfold dispatchTool. cbv zeta.
  pose proof (mentions_date (toLowerCase q)) as Hd.
  pose proof (mentions_weather (toLowerCase q)) as Hw.
  destruct (includes (toLowerCase q) "today's date" || _ || _ || _ || _ || _) eqn:Ed;
    (split; [intuition congruence | split]);
    try (intros Hn; exfalso; apply Hn; tauto).
  - intros _ Hm.
    destruct (includes (toLowerCase q) "weather" || _) eqn:Ew;
      [| apply Hw in Hm; discriminate].
    split; [| split].
    + intros g Hg. rewrite (place_in_match _ _ Hg). split; [reflexivity |].
      apply trim_trimmed.
    + intros Hn. now rewrite (no_place_match _ Hn).
    + pose proof (match_weather_in_spec (toLowerCase q)) as Hs.
      destruct (match_weather_in (toLowerCase q)) as [g|]; [left; now exists g | now right].
  - intros _ Hn.
    destruct (includes (toLowerCase q) "weather" || _) eqn:Ew; [| reflexivity].
    exfalso. apply Hn. tauto.
Qed.

(** A question in capitals with a place that has a letter beyond ASCII
    and white space behind it, then a second line. *)
Lemma tool_dispatch_witness :
  let q := "How is the WEATHER IN MÜNCHEN " +:+ Sample.nbsp +:+ JS.nl +:+ "Thanks" in
  toLowerCase q = "how is the weather in münchen " +:+ Sample.nbsp +:+ JS.nl +:+ "thanks" /\
  place_in (toLowerCase q) ("münchen " +:+ Sample.nbsp) /\
  dispatchTool Sample.world q = Some ("get_weather", getWeather "münchen").
Proof.
  cbv zeta.
  assert (Hplace : place_in
            (toLowerCase
               ("How is the WEATHER IN MÜNCHEN " +:+ Sample.nbsp +:+ JS.nl +:+ "Thanks"))
            ("münchen " +:+ Sample.nbsp))
    by (apply match_place_in; reflexivity).
  split; [reflexivity |]. split; [exact Hplace |].
  refine (proj1 (proj1 (proj1 (proj2 (tool_dispatch Sample.world
            ("How is the WEATHER IN MÜNCHEN " +:+ Sample.nbsp +:+ JS.nl +:+ "Thanks"))) _ _)
            _ Hplace)).
  - intros [k [Hin [pre [post H]]]]. vm_compute in Hin.
    assert (Hi : includes
              (toLowerCase
                 ("How is the WEATHER IN MÜNCHEN " +:+ Sample.nbsp +:+ JS.nl +:+ "Thanks"))
              k = true) by (apply includes_occurs; now exists pre, post).
    repeat (destruct Hin as [<- | Hin]; [discriminate Hi |]). destruct Hin.
  - exists "weather". split; [simpl; tauto |].
    apply includes_occurs. reflexivity.
Defined.

End ToolFacts.

(** ** The CSV /analyze-image converts itself *)

Module ImageCsvFacts.
Import JS Server Notions MoreNotions TextFacts SearchFacts FenceFacts StoreFacts HandlerFacts.
Import RunFacts StoreEffects.

(** A marker that starts a text ends before the first character the
    marker does not have. *)
Lemma startsWith_before (m pre x : string) (b : ascii) :
  (forall a, In a (list_ascii_of_string m) -> a <> b) ->
  startsWith (pre +:+ String b x) m = true -> startsWith pre m = true.
Proof.
  revert pre. induction m as [|c m IH]; intros pre Hm; [reflexivity |].
  destruct pre as [|d pre]; push_append; simpl.
  - destruct (Ascii.eqb_spec c b) as [-> |]; [| discriminate].
    destruct (Hm b); [now left | reflexivity].
  - destruct (Ascii.eqb c d); [| discriminate].
    apply IH. intros a Ha. apply Hm. now right.
Qed.

Lemma trimEnd_keep (c : ascii) (s : string) :
  after_white (String c s) = None -> trimEnd (String c s) = String c (trimEnd s).
Proof.
  intros H. cbn [trimEnd]. unfold all_white, trimStart. simpl String.length.
  cbn [strip]. now rewrite H.
Qed.

Lemma trimStart_keep (c : ascii) (s : string) :
  after_white (String c s) = None -> trimStart (String c s) = String c s.
Proof. intros H. unfold trimStart. simpl String.length. cbn [strip]. now rewrite H. Qed.

Lemma trim_csv_request (x : string) :
  trim ("CSV_REQUEST:" +:+ x) = "CSV_REQUEST:" +:+ trimEnd x.
Proof.
  unfold trim. push_append.
  rewrite trimStart_keep by reflexivity.
  repeat (rewrite trimEnd_keep by reflexivity). reflexivity.
Qed.

Lemma match_json_block_whole (text whole group : string) :
  match_json_block text = Some (whole, group) ->
  whole = json_open +:+ group +:+ json_close.
Proof.
  unfold match_json_block.
  destruct (indexOf text json_open) as [p|]; [| discriminate].
  destruct (indexOf _ json_close) as [q|]; [| discriminate].
  now intros [= <- <-].
Qed.

(** Taking a fenced block out of a text that starts with the marker
    leaves the marker where it is. *)
Lemma remove_first_keeps_marker (text block : string) :
  startsWith text "CSV_REQUEST:" = true ->
  exists x, remove_first text (String BQ block) = "CSV_REQUEST:" +:+ x.
Proof.
  intros H. unfold remove_first.
  destruct (indexOf text (String BQ block)) as [i|] eqn:E.
  - destruct (indexOf_split _ _ _ E) as [Hsplit _].
    set (rest := substring (i + String.length (String BQ block)) text) in *.
    assert (Hpre : startsWith (substring_to i text) "CSV_REQUEST:" = true).
    { apply (startsWith_before _ _ (block +:+ rest) BQ).
      - simpl. intros a Ha.
        repeat (destruct Ha as [<- | Ha]; [discriminate |]). destruct Ha.
      - rewrite <- append_cons, <- Hsplit. exact H. }
    apply startsWith_begins in Hpre. destruct Hpre as [r ->].
    exists (r +:+ rest). now rewrite append_assoc.
  - apply startsWith_begins in H. exact H.
Qed.

(** When [embedded_csv] converts the array, the answer is the text
    without the block and still starts with the marker. *)
Lemma embedded_csv_converted (w : Externals) (text : string) (d d' : Directive)
    (answer c : string) :
  startsWith text "CSV_REQUEST:" = true ->
  embedded_csv w text d = (answer, d', Some c) ->
  d' = d /\
  exists whole group items x,
    match_json_block text = Some (whole, group) /\
    tryParseJson w (trim group) = Some (JArray items) /\
    jsonToCsv (stringify w) items = Ok c /\
    answer = trim (remove_first text whole) /\
    answer = "CSV_REQUEST:" +:+ x.
Proof.
  intros Hstart. unfold embedded_csv.
  destruct (match_json_block text) as [[whole group]|] eqn:Em; [| discriminate].
  destruct (truthy group); [| discriminate].
  destruct (tryParseJson w (trim group)) as [[]|] eqn:Ep; try discriminate.
  destruct (jsonToCsv (stringify w) items) as [out | m] eqn:Ec; [| discriminate].
  pose proof (match_json_block_whole _ _ _ Em) as Hw.
  destruct (remove_first_keeps_marker text
              (String BQ (String BQ ("json" +:+ nl +:+ group +:+ json_close))) Hstart)
    as [x Hx].
  change (String BQ (String BQ (String BQ ("json" +:+ nl +:+ group +:+ json_close))))
    with (json_open +:+ group +:+ json_close) in Hx.
  rewrite <- Hw in Hx. rewrite Hx, trim_csv_request.
  change (Nat.eqb (String.length ("CSV_REQUEST:" +:+ trimEnd x)) 0) with false.
  cbv beta iota zeta. rewrite andb_false_l.
  intros [= <- <- <-]. split; [reflexivity |].
  exists whole, group, items, (trimEnd x).
  rewrite Hx, trim_csv_request. auto.
Qed.

Section OneRequest.
Context (w : Externals) (store : Store) (req : Request).

(** /analyze-image returns converted CSV only for an answer that starts
    with CSV_REQUEST: and fences a JSON array; the text it then answers
    with is the model's text without the block, which still starts with
    the marker: the sentence of line 687 that stands in for an empty
    text is never used. *)
Theorem converted_csv_answer (text c : string) :
  field "csvContent" (answered text (analyze_image w store req)) = str c ->
  begins "CSV_REQUEST:" text /\
  exists whole group items x,
    match_json_block text = Some (whole, group) /\
    tryParseJson w (trim group) = Some (JArray items) /\
    jsonToCsv (stringify w) items = Ok c /\
    trim (remove_first text whole) = "CSV_REQUEST:" +:+ x /\
    field "response" (answered text (analyze_image w store req)) =
      str ("CSV_REQUEST:" +:+ x) /\
    field "fileType" (answered text (analyze_image w store req)) = str "csv".
Proof.
  unfold answered, analyze_image.
  destruct (resolve_analyze w store (req_sessionId req)) as [id st].
  destruct (negb (held st id)); [discriminate |].
  destruct (present (req_image req)); simpl negb; cbv iota; [| discriminate].
  rewrite result_await. cbv beta iota.
  unfold classify_image_first.
  destruct (startsWith text "IMAGE_REQUEST:"); [discriminate |].
  destruct (startsWith text "CSV_REQUEST:") eqn:Hstart; [| discriminate].
  cbn [fileTypeToGenerate].
  destruct (embedded_csv w text _) as [[answer d'] [out|]] eqn:Ee; [| discriminate].
  destruct (embedded_csv_converted w text _ d' answer out Hstart Ee)
    as (-> & whole & group & items & x & Hm & Hp & Hc & Ha & Hx).
  rewrite result_return. simpl. intros [= <-].
  split; [now apply startsWith_begins |].
  exists whole, group, items, x. rewrite <- Ha, Hx.
  repeat split; assumption.
Qed.

End OneRequest.

Lemma converted_csv_answer_witness :
  let text := "CSV_REQUEST: the objects " +:+ Sample.fenced_empty_array in
  let req := Sample.with_image (Some "aGVsbG8=") None in
  field "csvContent" (answered text (analyze_image Sample.world_with_json ∅ req)) = str "" /\
  exists x,
    field "response" (answered text (analyze_image Sample.world_with_json ∅ req)) =
      str ("CSV_REQUEST:" +:+ x).
Proof.
  cbv zeta.
  assert (H0 : field "csvContent"
                 (answered ("CSV_REQUEST: the objects " +:+ Sample.fenced_empty_array)
                    (analyze_image Sample.world_with_json ∅
                       (Sample.with_image (Some "aGVsbG8=") None))) = str "")
    by (vm_compute; reflexivity).
  split; [exact H0 |].
  destruct (converted_csv_answer Sample.world_with_json ∅
              (Sample.with_image (Some "aGVsbG8=") None)
              ("CSV_REQUEST: the objects " +:+ Sample.fenced_empty_array) "" H0)
    as (_ & whole & group & items & x & _ & _ & _ & _ & H & _).
  exists x. exact H.
Defined.

End ImageCsvFacts.

(** ** What the analyses send, and clearing *)

Module AnalysisFacts.
Import JS Server Notions MoreNotions TextFacts StoreFacts HandlerFacts ValidationFacts.
Import RunFacts StoreEffects.

Section OneRequest.
Context (w : Externals) (store : Store) (req : Request) (ollama : Call -> Reply).

(** What an analysis sends to the model: the history the request found,
    the instructions of the handler, and one user message with the
    prompt of the request, or the default prompt of the handler, and the
    payload: the records as JSON, the text of the document, or the
    picture as an attachment of the message (for a request whose
    session id names no inherited member of the store object). *)
Theorem analysis_sends :
  plain_id w store (req_sessionId req) ->
  let before := history_before store (req_sessionId req) in
  (forall c records, req_csv req = Some c -> c <> "" -> parse w c = Ok records ->
     calls ollama (analyze_csv w store req) =
       [api_chat OLLAMA_DEFAULT_MODEL
          (before ++
           [msg system (csv_instructions w);
            msg user (or_default (req_prompt req) "Analyze the following CSV data." +:+
                      nl +:+ nl +:+ "CSV Data (JSON format):" +:+ nl +:+
                      fence +:+ "json" +:+ nl +:+ JSON_stringify w records +:+
                      nl +:+ fence +:+ nl)])%list]) /\
  (forall d text, req_pdf req = Some d -> d <> "" -> pdf w d = Ok text ->
     calls ollama (analyze_pdf w store req) =
       [api_chat OLLAMA_DEFAULT_MODEL
          (before ++
           [msg system (pdf_instructions w);
            msg user (or_default (req_prompt req) "Summarize the content of the PDF." +:+
                      nl +:+ nl +:+ "Document Text:" +:+ nl +:+ fence +:+ nl +:+
                      text +:+ nl +:+ fence +:+ nl)])%list]) /\
  (forall i, req_image req = Some i -> i <> "" ->
     calls ollama (analyze_image w store req) =
       [api_chat OLLAMA_MULTIMODAL_MODEL
          (before ++
           [msg system (image_instructions w);
            mkMessage user (or_default (req_prompt req) "Describe this image.")
                      (Some [i])])%list]).
Proof.
  intros Hpl. cbv zeta. repeat apply conj.
  - intros c records Hc Hne Hparse. unfold analyze_csv.
    rewrite (present_nonempty _ _ Hc Hne), Hc. simpl negb. simpl default.
    unfold csvToJson. rewrite Hparse.
    explore ollama; resolved ses Hses Hframe; rewrite <- Hh;
      do 2 f_equal; rewrite ?on_on, (history_of_on _ _ _ _ Hses);
      unfold compose; simpl; now rewrite <- ?app_assoc.
  - intros d text Hd Hne Hparse. unfold analyze_pdf.
    rewrite (present_nonempty _ _ Hd Hne), Hd. simpl negb. simpl default.
    rewrite Hparse.
    explore ollama; resolved ses Hses Hframe; rewrite <- Hh;
      do 2 f_equal; rewrite ?on_on, (history_of_on _ _ _ _ Hses);
      unfold compose; simpl; now rewrite <- ?app_assoc.
  - intros i Hi Hne. unfold analyze_image.
    rewrite (present_nonempty _ _ Hi Hne), Hi. simpl negb. simpl default.
    explore ollama; resolved ses Hses Hframe; rewrite <- Hh;
      do 2 f_equal; rewrite ?on_on, (history_of_on _ _ _ _ Hses);
      unfold compose; simpl; now rewrite <- ?app_assoc.
Qed.

(** A payload that cannot be read is refused with 400 before any call
    to the model and nothing is attached; /analyze-csv has by then
    pushed its instructions, /analyze-pdf has pushed nothing and answers
    with the message of the reader's error (for a request whose session
    id names no inherited member of the store object). *)
Theorem unreadable_payload :
  plain_id w store (req_sessionId req) ->
  let id := resolved_id w store (req_sessionId req) in
  let before := history_before store (req_sessionId req) in
  (forall c m, req_csv req = Some c -> c <> "" -> parse w c = Err m ->
     calls ollama (analyze_csv w store req) = [] /\
     snd (result ollama (analyze_csv w store req)) =
       responded 400
         [("error",
           str "❌ Failed to parse CSV content. Please ensure it's valid CSV format.")] /\
     left_behind store (fst (result ollama (analyze_csv w store req))) id
       (before ++ [msg system (csv_instructions w)])%list) /\
  (forall d m, req_pdf req = Some d -> d <> "" -> pdf w d = Err m ->
     calls ollama (analyze_pdf w store req) = [] /\
     snd (result ollama (analyze_pdf w store req)) =
       responded 400 [("error", str ("❌ Failed to parse PDF content: " +:+ m))] /\
     left_behind store (fst (result ollama (analyze_pdf w store req))) id before).
Proof.
  intros Hpl. cbv zeta. split.
  - intros c m Hc Hne Hparse. unfold analyze_csv, left_behind.
    rewrite (present_nonempty _ _ Hc Hne), Hc. simpl negb. simpl default.
    unfold csvToJson. rewrite Hparse.
    destruct (resolve_analyze w store (req_sessionId req)) as [i st] eqn:E.
    resolved ses Hses Hframe. cbv beta iota zeta.
    rewrite ?(held_true _ _ _ Hses). cbn [negb]. cbv beta iota zeta.
    rewrite calls_return, result_return. simpl fst. simpl snd.
    repeat split.
    + eexists. rewrite (lookup_on _ _ _ _ Hses). split; [reflexivity |].
      simpl. now rewrite Hh.
    + intros j Hj. rewrite lookup_on_ne by congruence. now apply Hframe.
  - intros d m Hd Hne Hparse. unfold analyze_pdf, left_behind.
    rewrite (present_nonempty _ _ Hd Hne), Hd. simpl negb. simpl default.
    rewrite Hparse.
    destruct (resolve_analyze w store (req_sessionId req)) as [i st] eqn:E.
    resolved ses Hses Hframe. cbv beta iota zeta.
    rewrite ?(held_true _ _ _ Hses). cbn [negb]. cbv beta iota zeta.
    rewrite calls_return, result_return. simpl fst. simpl snd.
    repeat split; [| exact Hframe]. now exists ses.
Qed.

End OneRequest.

(** Clearing twice.  The second of two requests to clear the same
    session id changes nothing more.  It is answered 404 when the id
    names no inherited member of the store object; when it names one
    ([toString], [constructor], ...) both requests are answered 200
    with the same message, and the store holds no session under that
    id. *)
Theorem clear_is_final (w : Externals) (store : Store) (req : Request) :
  let first := clear_chat_history w store req in
  let second := clear_chat_history w (fst first) req in
  fst second = fst first /\
  ((forall id, req_sessionId req = Some id -> inherited w id = None) ->
   snd second =
     responded 404 [("error", str "❌ Session not found or no sessionId provided.")]) /\
  (forall id h, req_sessionId req = Some id -> id <> "" -> inherited w id = Some h ->
   snd first =
     responded 200
       [("message", str ("✅ Conversation history cleared for session: " +:+ id))] /\
   snd second = snd first /\
   fst second !! id = None).
Proof.
  cbv zeta. split; [| split].
  - unfold clear_chat_history.
    destruct (unknown w store (req_sessionId req)) eqn:E; cbn [fst snd].
    + now rewrite E.
    + destruct (unknown w (delete (the_id (req_sessionId req)) store) (req_sessionId req));
        cbn [fst snd]; [reflexivity |].
      apply delete_id, lookup_delete_eq.
  - intros Hnone. unfold clear_chat_history.
    destruct (unknown w store (req_sessionId req)) eqn:E; cbn [fst snd].
    + now rewrite E.
    + destruct (req_sessionId req) as [id|] eqn:Hreq; [| discriminate E].
      cbn [the_id].
      rewrite (unknown_missing w _ id (lookup_delete_eq _ _) (Hnone id eq_refl)).
      reflexivity.
  - intros id h Hreq Hid Hh. unfold clear_chat_history.
    rewrite Hreq, !(unknown_inherited w _ id h Hid Hh). simpl.
    repeat split. rewrite (delete_id (delete id store)) by apply lookup_delete_eq.
    apply lookup_delete_eq.
Qed.

Lemma analysis_sends_witness :
  calls Sample.down
    (analyze_image Sample.world Sample.one_session
       (Sample.with_image (Some "aGVsbG8=") (Some "s1"))) =
  [api_chat OLLAMA_MULTIMODAL_MODEL
     (history Sample.busy ++
      [msg system (image_instructions Sample.world);
       mkMessage user "Describe this image." (Some ["aGVsbG8="])])%list].
Proof.
  exact (proj2 (proj2 (analysis_sends Sample.world Sample.one_session
                         (Sample.with_image (Some "aGVsbG8=") (Some "s1")) Sample.down
                         eq_refl))
               "aGVsbG8=" eq_refl ltac:(discriminate)).
Defined.

Lemma unreadable_payload_witness :
  let ragged := "a,b" +:+ nl +:+ "1" +:+ nl in
  parse Sample.world ragged = Err "Invalid Record Length" /\
  snd (result Sample.down
         (analyze_csv Sample.world Sample.one_session
            (Sample.with_csv (Some ragged) (Some "s1")))) =
  responded 400
    [("error", str "❌ Failed to parse CSV content. Please ensure it's valid CSV format.")].
Proof.
  cbv zeta. split; [reflexivity |].
  exact (proj1 (proj2 (proj1 (unreadable_payload Sample.world Sample.one_session
                                (Sample.with_csv (Some ("a,b" +:+ nl +:+ "1" +:+ nl))
                                                 (Some "s1"))
                                Sample.down eq_refl)
                             ("a,b" +:+ nl +:+ "1" +:+ nl) "Invalid Record Length"
                             eq_refl ltac:(discriminate) eq_refl))).
Defined.

(** Clearing the session [s1] twice, and clearing [toString] twice. *)
Lemma clear_is_final_witness :
  let own := Sample.for_session (Some "s1") in
  let heir := Sample.for_session (Some "toString") in
  let store' := fst (clear_chat_history Sample.world Sample.one_session own) in
  status_of (snd (clear_chat_history Sample.world Sample.one_session own)) = Some 200 /\
  snd (clear_chat_history Sample.world store' own) =
    responded 404 [("error", str "❌ Session not found or no sessionId provided.")] /\
  snd (clear_chat_history Sample.world
         (fst (clear_chat_history Sample.world Sample.one_session heir)) heir) =
    responded 200
      [("message", str "✅ Conversation history cleared for session: toString")].
Proof.
  cbv zeta. split; [reflexivity |]. split.
  - apply (proj1 (proj2 (clear_is_final Sample.world Sample.one_session
                           (Sample.for_session (Some "s1"))))).
    intros id [= <-]. reflexivity.
  - destruct (proj2 (proj2 (clear_is_final Sample.world Sample.one_session
                              (Sample.for_session (Some "toString"))))
                "toString" (mkHeir None None) eq_refl ltac:(discriminate) eq_refl)
      as (H1 & H2 & _).
    rewrite H2. exact H1.
Defined.

End AnalysisFacts.

(** ** The direct commands, exactly *)

Module CommandFacts.
Import JS Server Notions TextFacts CaseFacts TrimFacts DirectCommandFacts.

(** /chat takes a question for a direct command exactly when it starts
    with one of the three markers, each letter of the marker in either
    case and no other character in its place; the kind is that of the
    marker and the instruction is what follows the marker, trimmed. *)
Theorem direct_command_exactly (q : string) (kind : FileType) (instruction : string) :
  direct_command q = Some (kind, instruction) <->
  exists head rest,
    q = head +:+ rest /\ instruction = trim rest /\
    (kind = csv /\ nocase head "generate csv:" \/
     kind = image /\ (nocase head "generate image:" \/
                      nocase head "show me an image of:")).
Proof.
  split; [apply direct_command_begins |].
  intros (head & rest & Hq & -> & [[-> Hn] | [-> [Hn | Hn]]]).
  - now apply (direct_csv q head rest).
  - now apply (direct_image q head rest).
  - now apply (direct_show q head rest).
Qed.

(** A marker in capitals is a command; one written with the Kelvin sign
    for a letter it does not have, or with a dotted capital I, is
    not. *)
Example direct_command_cases :
  direct_command "GENERATE IMAGE: a kite" = Some (image, "a kite") /\
  direct_command "generate İmage: a kite" = None /\
  direct_command "Please generate csv: a list" = None.
Proof. repeat split; reflexivity. Qed.

End CommandFacts.

(** ** Session ids that name inherited members *)

Module InheritedFacts.
Import JS Server Notions MoreNotions TextFacts StoreFacts HandlerFacts ValidationFacts.
Import RunFacts StoreEffects.



End InheritedFacts.
